(** * Token accounting for agent conversation traces

    A shallow embedding of the two accounting scripts of the repository,
    [4_extract_user_and_assistant_prompts.py] (content normalisation and
    row extraction) and [5_analyze_prompts.py] (tool-result parsing, token
    counting and the per-conversation aggregates), together with the
    properties the specification states about them.

    Conventions of the embedding.
    - A Python [str] is a [string]; a character is a code point below 256.
    - [len(enc.encode(s))] is a natural number; the tokenizer [enc] comes
      from the [tiktoken] package and is a parameter of every definition
      that uses it.
    - pandas' float results are exact rationals extended with the two
      special values a division by zero produces ([nan] and [inf]);
      rounding is not modelled.
    - an exception that leaves a function is a value of a sum type. *)

From Stdlib Require Import Strings.String Strings.Ascii.
From Stdlib Require Import Lists.List Arith.PeanoNat Bool.Bool.
From Stdlib Require Import ZArith.ZArith QArith.QArith micromega.Lia micromega.Lqa.
From Stdlib Require Import Sorting.Sorted Structures.OrderedTypeEx.
From Stdlib Require Import Sorting.Permutation.
Import ListNotations.

Local Close Scope Q_scope.
Local Close Scope Z_scope.
Local Open Scope nat_scope.
Local Open Scope list_scope.
Local Open Scope string_scope.

(** ** Python string primitives *)

Module Py.

(** [str.isspace] on one character, for code points below 256:
    TAB, LF, VT, FF, CR, the four separators FS GS RS US, the space,
    NEL and the no-break space. *)
Definition isspace (c : ascii) : bool :=
  let n := nat_of_ascii c in
  (((9 <=? n) && (n <=? 13)) || ((28 <=? n) && (n <=? 32))
   || (n =? 133) || (n =? 160))%nat.

(** [s.lstrip()] *)
Fixpoint lstrip (s : string) : string :=
  match s with
  | EmptyString => EmptyString
  | String c s' => if isspace c then lstrip s' else s
  end.

(** [s.rstrip()] *)
Fixpoint rstrip (s : string) : string :=
  match s with
  | EmptyString => EmptyString
  | String c s' =>
      match rstrip s' with
      | EmptyString => if isspace c then EmptyString else String c EmptyString
      | r => String c r
      end
  end.

(** [s.strip()] *)
Definition strip (s : string) : string := rstrip (lstrip s).

(** [s.startswith(p)] *)
Definition startswith (p s : string) : bool := String.prefix p s.

(** [s[n:]] *)
Fixpoint drop (n : nat) (s : string) : string :=
  match n, s with
  | O, _ => s
  | S _, EmptyString => EmptyString
  | S n', String _ s' => drop n' s'
  end.

(** Truthiness of a [str]: [bool(s)]. *)
Definition truthy (s : string) : bool :=
  match s with EmptyString => false | String _ _ => true end.

(** [sep.join(parts)] *)
Definition join (sep : string) (parts : list string) : string :=
  String.concat sep parts.

(** [p in s] for strings: [p] occurs somewhere in [s]. *)
Fixpoint contains (p s : string) : bool :=
  String.prefix p s
  || match s with
     | EmptyString => false
     | String _ s' => contains p s'
     end.

End Py.

(** ** The two regular expressions of the analysis script *)

Module Re.

Definition BEGIN : string := "<tool_result>".
Definition END : string := "</tool_result>".

(** The lazy group [(.*?)] followed by the literal [e], tried at the start
    of [s] under [re.DOTALL]: the shortest prefix of [s] after which [e]
    matches, with the text that follows the match. *)
Fixpoint lazy_until (e s : string) : option (string * string) :=
  if String.prefix e s then Some (EmptyString, Py.drop (String.length e) s)
  else
    match s with
    | EmptyString => None
    | String c s' =>
        match lazy_until e s' with
        | Some (inner, rest) => Some (String c inner, rest)
        | None => None
        end
    end.

(** [TOOL_RESULT_PATTERN] anchored at the start of [s]: the captured group
    and the text after the match. *)
Definition tool_result_here (s : string) : option (string * string) :=
  if String.prefix BEGIN s
  then lazy_until END (Py.drop (String.length BEGIN) s)
  else None.

(** The scanner behind [findall]: try the pattern at the current position;
    on success record the group and resume after the match, otherwise move
    one character on.  [fuel] bounds the number of scanner steps. *)
Fixpoint findall_from (fuel : nat) (s : string) : list string :=
  match fuel with
  | O => []
  | S fuel' =>
      match tool_result_here s with
      | Some (inner, rest) => inner :: findall_from fuel' rest
      | None =>
          match s with
          | EmptyString => []
          | String _ s' => findall_from fuel' s'
          end
      end
  end.

(** [TOOL_RESULT_PATTERN.findall(s)].  Every scanner step consumes at least
    one character, so [length s] steps are enough ([findall_from_enough]). *)
Definition TOOL_RESULT_findall (s : string) : list string :=
  findall_from (String.length s) s.

(** The character class [[a-zA-Z0-9\-_]]. *)
Definition is_tag_char (c : ascii) : bool :=
  let n := nat_of_ascii c in
  (((97 <=? n) && (n <=? 122)) || ((65 <=? n) && (n <=? 90))
   || ((48 <=? n) && (n <=? 57)) || (n =? 45) || (n =? 95))%nat.

(** The greedy run [[a-zA-Z0-9\-_]*] at the start of [s] and what follows. *)
Fixpoint span_tag (s : string) : string * string :=
  match s with
  | EmptyString => (EmptyString, EmptyString)
  | String c s' =>
      if is_tag_char c
      then let (name, rest) := span_tag s' in (String c name, rest)
      else (EmptyString, s)
  end.

(** [INNER_TAG_PATTERN] anchored at the start of [s]: group 1 of the match.
    The run is followed by [>] only at its greedy end, since [>] is not in
    the class. *)
Definition inner_tag_here (s : string) : option string :=
  match s with
  | String "<"%char s' =>
      match span_tag s' with
      | (String c name, String ">"%char _) => Some (String c name)
      | _ => None
      end
  | _ => None
  end.

(** [INNER_TAG_PATTERN.search(s)], reduced to group 1 of the leftmost
    match. *)
Fixpoint INNER_TAG_search (s : string) : option string :=
  match inner_tag_here s with
  | Some tag => Some tag
  | None =>
      match s with
      | EmptyString => None
      | String _ s' => INNER_TAG_search s'
      end
  end.

End Re.

(** ** [4_extract_user_and_assistant_prompts.py] *)

(** A decoded JSON document, as [json.load] returns it.  An object keeps its
    members in the order of the text; [json.load] lets the last of several
    equal keys win ([obj_get]).  Numbers are never inspected by the script
    and are kept as integers. *)
#[local] Unset Elimination Schemes.
Inductive json : Type :=
| JNull
| JBool (b : bool)
| JNum (n : Z)
| JStr (s : string)
| JArr (items : list json)
| JObj (members : list (string * json)).
#[local] Set Elimination Schemes.

(** The exceptions that can leave the functions of the script. *)
Inductive exn : Type :=
| AttributeError
| TypeError.

(** The outcome of a call: a value, or an exception that propagates. *)
Inductive result (A : Type) : Type :=
| Ok (a : A)
| Raise (e : exn).

Arguments Ok {A} a.
Arguments Raise {A} e.

Module ExtractPrompts.

Definition bind {A B : Type} (r : result A) (k : A -> result B) : result B :=
  match r with
  | Ok a => k a
  | Raise e => Raise e
  end.

Notation "x <- r ;; k" := (bind r (fun x => k))
  (at level 61, r at next level, right associativity).

(** Member lookup in a decoded object: the last binding of [key]. *)
Fixpoint obj_get (key : string) (members : list (string * json))
  : option json :=
  match members with
  | [] => None
  | (k, v) :: rest =>
      match obj_get key rest with
      | Some v' => Some v'
      | None => if String.eqb k key then Some v else None
      end
  end.

(** The method call [v.get(key, default)]: only a [dict] has the method,
    on any other value the attribute lookup raises. *)
Definition get (v : json) (key : string) (default : json) : result json :=
  match v with
  | JObj members =>
      Ok (match obj_get key members with
          | Some x => x
          | None => default
          end)
  | _ => Raise AttributeError
  end.

(** What one [item] of a list content appends to [parts]. *)
Definition item_parts (item : json) : list string :=
  match item with
  | JStr s => if Py.truthy (Py.strip s) then [Py.strip s] else []
  | JObj members =>
      match obj_get "type" members with
      | Some (JStr "text") =>
          match obj_get "text" members with
          | Some (JStr text_val) =>
              if Py.truthy (Py.strip text_val) then [Py.strip text_val] else []
          | _ => []
          end
      | _ => []
      end
  | _ => []
  end.

Definition NEWLINE : string := String (ascii_of_nat 10) EmptyString.

(** [normalize_content]: a [str] ([Some]) or [None]. *)
Definition normalize_content (content : json) : option string :=
  match content with
  | JStr s => Some (Py.strip s)
  | JArr items =>
      match flat_map item_parts items with
      | [] => None
      | parts => Some (Py.strip (Py.join NEWLINE parts))
      end
  | _ => None
  end.

(** A row of the output CSV: [(file_path, prompt, role)]. *)
Definition prompt_row : Type := string * string * string.

(** The body of the [try] inside the loop over [messages]: the row the
    message appends, if any, or the exception the [except] clause catches. *)
Definition message_try (file_path : string) (msg : json)
  : result (option prompt_row) :=
  role <- get msg "role" JNull ;;
  match role with
  | JStr r =>
      if String.eqb r "user" || String.eqb r "assistant" then
        raw_content <- get msg "content" (JStr EmptyString) ;;
        match normalize_content raw_content with
        | Some text =>
            if Py.truthy text then Ok (Some (file_path, text, r))
            else Ok None
        | None => Ok None
        end
      else Ok None
  | _ => Ok None
  end.

(** One iteration of the loop, [except Exception: continue] included. *)
Definition message_rows (file_path : string) (msg : json) : list prompt_row :=
  match message_try file_path msg with
  | Ok (Some row) => [row]
  | Ok None => []
  | Raise _ => []
  end.

(** The keys of a decoded object in insertion order: a repeated key keeps
    the place of its first occurrence. *)
Fixpoint obj_keys (members : list (string * json)) (seen : list string)
  : list string :=
  match members with
  | [] => []
  | (k, _) :: rest =>
      if existsb (String.eqb k) seen then obj_keys rest seen
      else k :: obj_keys rest (k :: seen)
  end.

(** The values [for msg in messages] iterates over: the items of a list,
    the characters of a [str], the keys of a [dict]; any other value is not
    iterable. *)
Definition iterate (messages : json) : result (list json) :=
  match messages with
  | JArr items => Ok items
  | JStr s =>
      Ok (map (fun c => JStr (String c EmptyString)) (list_ascii_of_string s))
  | JObj members =>
      Ok (map (fun k => JStr k) (obj_keys members []))
  | _ => Raise TypeError
  end.

(** [extract_prompts_from_file].  [loaded] is the outcome of the first
    [try]: [None] when opening or decoding the file raised (the function
    warns and returns the empty list), otherwise the decoded document. *)
Definition extract_prompts_from_file (file_path : string)
    (loaded : option json) : result (list prompt_row) :=
  match loaded with
  | None => Ok []
  | Some data =>
      request_obj <- get data "request" (JObj []) ;;
      messages <- get request_obj "messages" (JArr []) ;;
      msgs <- iterate messages ;;
      Ok (flat_map (message_rows file_path) msgs)
  end.

(** The collecting loop of [main] over the futures in completion order:
    [fut.result()] re-raises what the worker raised, and nothing in [main]
    catches it, so the rows are written only if every file returned. *)
Fixpoint collect (files : list (string * option json))
    (all_rows : list prompt_row) : result (list prompt_row) :=
  match files with
  | [] => Ok all_rows
  | (file_path, loaded) :: rest =>
      file_results <- extract_prompts_from_file file_path loaded ;;
      collect rest (all_rows ++ file_results)
  end.

(** [main]: the rows handed to the CSV writer, or the exception that ends
    the run. *)
Definition main (files : list (string * option json))
  : result (list prompt_row) :=
  collect files [].

End ExtractPrompts.

(** ** [5_analyze_prompts.py]: per-prompt accounting *)

(** A cell of the [prompt] column as [pd.read_csv] delivers it: a [str], or
    a value that is not a [str] (the float [nan] of an empty or NA cell). *)
Inductive cell : Type :=
| PyStr (s : string)
| NotStr.

Module Analyze.

Definition EXCLUDED : string := "<str-replace>".

Section Tokenizer.

(** [enc.encode], the tokenizer [build_tokenizer] returns. *)
Variable encode : string -> list nat.

Definition count_tokens (text : cell) : nat :=
  match text with
  | NotStr => 0
  | PyStr s => List.length (encode s)
  end.

(** One iteration of the loop [for m in matches] on the pair
    [(total_tool_tokens, tool_type)]. *)
Definition loop_body (st : nat * option string) (m : string)
  : nat * option string :=
  let inner := Py.strip m in
  if Py.startswith EXCLUDED inner then st
  else
    match Re.INNER_TAG_search inner with
    | None => st
    | Some tag =>
        (fst st + List.length (encode inner),
         match snd st with
         | None => Some tag
         | Some t => Some t
         end)
    end.

(** The captured groups on which the loop body reaches its last lines:
    not skipped by either [continue]. *)
Definition counted (m : string) : bool :=
  negb (Py.startswith EXCLUDED (Py.strip m))
  && match Re.INNER_TAG_search (Py.strip m) with
     | Some _ => true
     | None => false
     end.

(** The loop over a sequence of captured groups. *)
Definition analyze_matches (matches : list string) : nat * option string :=
  fold_left loop_body matches (0, None).

Definition analyze_tool_calls (prompt : cell) : nat * option string :=
  match prompt with
  | NotStr => (0, None)
  | PyStr p => analyze_matches (Re.TOOL_RESULT_findall p)
  end.

End Tokenizer.

End Analyze.

(** ** [5_analyze_prompts.py]: the data frame and its aggregates *)

(** A float64 result of pandas arithmetic: a finite value, or one of the two
    values a division by zero gives. *)
Inductive fval : Type :=
| Fin (q : Q)
| Inf
| NaN.

Module Frame.

(** A row of the data frame after [add_token_columns]. *)
Record row : Type := mkRow {
  file_path : string;
  prompt : cell;
  role : string;
  num_token : nat;
  num_token_from_toolcall : nat;
  tool_type : option string
}.

Section Tokenizer.

Variable encode : string -> list nat.

(** [add_token_columns] on the rows [pd.read_csv] returned. *)
Definition add_token_columns (df : list (string * cell * string)) : list row :=
  map (fun r =>
         let '(fp, p, rl) := r in
         let (tok, tool) := Analyze.analyze_tool_calls encode p in
         mkRow fp p rl (Analyze.count_tokens encode p) tok tool)
      df.

End Tokenizer.

Definition sum (l : list nat) : nat := fold_right Nat.add 0 l.

Definition Qnat (n : nat) : Q := inject_Z (Z.of_nat n).

(** [overall_stats]: [pct_tool]. *)
Definition pct_tool (df : list row) : Q :=
  let total_token := sum (map num_token df) in
  let tool_token := sum (map num_token_from_toolcall df) in
  if (0 <? total_token)%nat
  then (Qnat tool_token / Qnat total_token * 100)%Q
  else 0%Q.

(** Element-wise [/] of two integer columns. *)
Definition truediv (a b : nat) : fval :=
  match b, a with
  | O, O => NaN
  | O, S _ => Inf
  | S _, _ => Fin (Qnat a / Qnat b)%Q
  end.

(** Element-wise [* 100]. *)
Definition times100 (v : fval) : fval :=
  match v with
  | Fin q => Fin (q * 100)%Q
  | Inf => Inf
  | NaN => NaN
  end.

(** *** [groupby(...).sum()]

    The result is a series indexed by the distinct keys, in ascending key
    order (the default [sort=True]). *)
Section GroupBy.

Variable K : Type.
Variable cmp : K -> K -> comparison.

Fixpoint add_to (k : K) (v : nat) (g : list (K * nat)) : list (K * nat) :=
  match g with
  | [] => [(k, v)]
  | (k', v') :: g' =>
      match cmp k k' with
      | Eq => (k', v' + v) :: g'
      | Lt => (k, v) :: g
      | Gt => (k', v') :: add_to k v g'
      end
  end.

Definition groupby_sum (l : list (K * nat)) : list (K * nat) :=
  fold_left (fun g kv => add_to (fst kv) (snd kv) g) l [].

(** The sum of the values filed under key [k], and whether there are any. *)
Definition same_key (k k' : K) : bool :=
  match cmp k' k with
  | Eq => true
  | _ => false
  end.

Definition sum_for (k : K) (l : list (K * nat)) : nat :=
  sum (map snd (filter (fun kv => same_key k (fst kv)) l)).

Definition has_key (k : K) (l : list (K * nat)) : bool :=
  existsb (fun kv => same_key k (fst kv)) l.

(** A series whose labels strictly ascend. *)
Definition ascending {V : Type} (s : list (K * V)) : Prop :=
  StronglySorted (fun a b => cmp (fst a) (fst b) = Lt) s.

(** The entry of a series at a label. *)
Fixpoint series_get {V : Type} (k : K) (s : list (K * V)) : option V :=
  match s with
  | [] => None
  | (k', v) :: s' =>
      match cmp k k' with
      | Eq => Some v
      | _ => series_get k s'
      end
  end.

(** [idxmax]: the label of the first occurrence of the maximum. *)
Fixpoint idxmax_from (best : K * nat) (s : list (K * nat)) : K :=
  match s with
  | [] => fst best
  | kv :: s' =>
      if (snd best <? snd kv)%nat then idxmax_from kv s' else idxmax_from best s'
  end.

Definition idxmax (s : list (K * nat)) : option K :=
  match s with
  | [] => None
  | kv :: s' => Some (idxmax_from kv s')
  end.

End GroupBy.

Arguments same_key {K} cmp k k'.
Arguments sum_for {K} cmp k l.
Arguments has_key {K} cmp k l.
Arguments ascending {K} cmp {V} s.
Arguments add_to {K} cmp k v g.
Arguments groupby_sum {K} cmp l.
Arguments series_get {K} cmp {V} k s.
Arguments idxmax_from {K} best s.
Arguments idxmax {K} s.

(** *** [analyze_by_file_path] *)

(** [file_tool_pct]: the two grouped sums divided label by label; a label
    missing on one side gives [NaN]. *)
Definition file_tool_pct (df : list row) : list (string * fval) :=
  let tool :=
    groupby_sum String.compare
      (map (fun r => (file_path r, num_token_from_toolcall r)) df) in
  let total :=
    groupby_sum String.compare (map (fun r => (file_path r, num_token r)) df) in
  map (fun kv =>
         (fst kv,
          match series_get String.compare (fst kv) total with
          | Some d => times100 (truediv (snd kv) d)
          | None => NaN
          end))
      tool.

Definition bins : list Q := [0; 20; 40; 60; 80; 100]%Q.

(** The bucket labels, kept as the bytes of the source text. *)
Definition labels : list string :=
  ["0–20%"; "20–40%"; "40–60%"; "60–80%"; "80–100%"].

Definition Qlt_bool (x y : Q) : bool := negb (Qle_bool y x).

(** [pd.cut(..., right=True)] on one finite value: the position of the
    interval [(lo, hi]] of consecutive edges that holds [x]. *)
Fixpoint cut_from (i : nat) (edges : list Q) (x : Q) : option nat :=
  match edges with
  | lo :: ((hi :: _) as rest) =>
      if Qlt_bool lo x && Qle_bool x hi then Some i
      else cut_from (S i) rest x
  | _ => None
  end.

(** [pd.cut] on one value of the column; [nan] and values outside every
    interval get no bin. *)
Definition cut (edges : list Q) (v : fval) : option nat :=
  match v with
  | Fin q => cut_from 0 edges q
  | Inf => None
  | NaN => None
  end.

Definition in_bin (i : nat) (b : option nat) : bool :=
  match b with
  | Some j => (j =? i)%nat
  | None => false
  end.

(** [range_counts]: [value_counts().sort_index()] of the categorical column
    [range_bin], one count per label, labels in their declared order. *)
Definition range_counts (pcts : list (string * fval)) : list (string * nat) :=
  let range_bin := map (fun kv => cut bins (snd kv)) pcts in
  map (fun il => (snd il, List.length (filter (in_bin (fst il)) range_bin)))
      (combine (seq 0 (List.length labels)) labels).

(** Lexicographic order of the two-level index [(file_path, tool_type)]. *)
Definition pair_compare (a b : string * string) : comparison :=
  match String.compare (fst a) (fst b) with
  | Eq => String.compare (snd a) (snd b)
  | c => c
  end.

(** The rows with [tool_type.notna()], keyed for the two-level grouping. *)
Definition typed_rows (df : list row) : list ((string * string) * nat) :=
  flat_map (fun r =>
              match tool_type r with
              | Some t => [((file_path r, t), num_token_from_toolcall r)]
              | None => []
              end)
           df.

Definition tool_type_by_file (df : list row) : list ((string * string) * nat) :=
  groupby_sum pair_compare (typed_rows df).

(** The entries of one conversation in the grouped series, in its order. *)
Definition level0_group (fp : string) (s : list ((string * string) * nat))
  : list ((string * string) * nat) :=
  filter (fun e => String.eqb (fst (fst e)) fp) s.

(** The distinct [file_path] labels of the grouped series, ascending. *)
Definition level0_keys (s : list ((string * string) * nat)) : list string :=
  map fst (groupby_sum String.compare (map (fun e => (fst (fst e), snd e)) s)).

(** [tool_type_by_file.groupby("file_path").idxmax()]: for every
    conversation the label [(file_path, tool_type)] of its first maximum. *)
Definition dominant_tool_type (df : list row)
  : list (string * (string * string)) :=
  let s := tool_type_by_file df in
  flat_map (fun fp =>
              match idxmax (level0_group fp s) with
              | Some label => [(fp, label)]
              | None => []
              end)
           (level0_keys s).

(** [dominant_tool_type_df]: index [file_path], column
    [dominant_tool_type], both read off the labels. *)
Definition dominant_tool_type_df (df : list row) : list (string * string) :=
  map (fun e => (fst (snd e), snd (snd e))) (dominant_tool_type df).

(** *** Quantities the properties below refer to *)

(** The summed [num_token_from_toolcall] of the rows of conversation [fp]
    whose [tool_type] is [tp]. *)
Definition type_sum (df : list row) (fp tp : string) : nat :=
  sum (map num_token_from_toolcall
         (filter (fun r =>
                    String.eqb (file_path r) fp
                    && match tool_type r with
                       | Some t => String.eqb t tp
                       | None => false
                       end)
                 df)).

(** The summed column of the rows of conversation [fp]. *)
Definition file_sum (column : row -> nat) (df : list row) (fp : string) : nat :=
  sum (map column (filter (fun r => String.eqb (file_path r) fp) df)).

(** The tool types of conversation [fp] in the order in which [idxmax]
    meets them in the grouped series. *)
Definition types_in_order (df : list row) (fp : string) : list string :=
  map (fun e => snd (fst e)) (level0_group fp (tool_type_by_file df)).

(** A defined (non-NaN) percentage. *)
Definition notna (v : fval) : bool :=
  match v with
  | NaN => false
  | _ => true
  end.

(** A percentage in the half-open range (0, 100]. *)
Definition in_0_100 (v : fval) : bool :=
  match v with
  | Fin q => Qlt_bool 0 q && Qle_bool q 100
  | _ => false
  end.

End Frame.

(** ** The specification's reading of the parser and of [enrich]

    Definitions that follow the words of the specification (sections 4.3
    and 4.4), over the same two patterns, to compare with the code. *)

Module Spec.

(** "If the trimmed content starts with the excluded marker literal". *)
Definition excluded (m : string) : bool :=
  Py.startswith Analyze.EXCLUDED (Py.strip m).

(** "the first occurrence of a tag pattern ... anywhere in the content";
    [None] is the absent tag. *)
Definition inner_tag (m : string) : option string :=
  Re.INNER_TAG_search (Py.strip m).

(** [parse_tool_blocks]: the spans in order, excluded ones discarded. *)
Definition blocks (text : string) : list string :=
  filter (fun m => negb (excluded m)) (Re.TOOL_RESULT_findall text).

(** "the [inner_tag] of the first non-excluded block that has a non-absent
    tag, else absent". *)
Definition tool_type (text : string) : option string :=
  match find (fun m => match inner_tag m with Some _ => true | None => false end)
             (blocks text) with
  | Some m => inner_tag m
  | None => None
  end.

(** "the sum of [count_tokens(block.raw_text)] over all non-excluded
    blocks". *)
Definition tool_tokens (encode : string -> list nat) (text : string) : nat :=
  Frame.sum (map (fun m => List.length (encode (Py.strip m))) (blocks text)).

End Spec.

(** ** A concrete tokenizer *)

(** One token per character. *)
Definition char_tokens (s : string) : list nat :=
  map nat_of_ascii (list_ascii_of_string s).

(** ** Shapes of a decoded document *)

Module Shape.

(** [isinstance(v, dict)] *)
Definition is_dict (v : json) : bool :=
  match v with
  | JObj _ => true
  | _ => false
  end.

(** The values a [for] loop can iterate over: [list], [str], [dict]. *)
Definition is_iterable (v : json) : bool :=
  match v with
  | JArr _ | JStr _ | JObj _ => true
  | _ => false
  end.

(** The member [key] of [v] when [v] is an object that has it. *)
Definition member (key : string) (v : json) : option json :=
  match v with
  | JObj members => ExtractPrompts.obj_get key members
  | _ => None
  end.

End Shape.


(** ** [5_analyze_prompts.py]: [tool_type_stats] and the dominant-type counts *)

Module Stats.

(** One more occurrence of [k] in a table of counts kept in order of first
    appearance. *)
Fixpoint count_into (k : string) (acc : list (string * nat))
  : list (string * nat) :=
  match acc with
  | [] => [(k, 1)]
  | (k', n) :: acc' =>
      if String.eqb k k' then (k', S n) :: acc'
      else (k', n) :: count_into k acc'
  end.

(** The distinct values of a column with their numbers of occurrences, in
    order of first appearance: [value_counts] before it sorts. *)
Definition counts (l : list string) : list (string * nat) :=
  fold_left (fun acc k => count_into k acc) l [].

(** The count a table holds for a label, 0 when the label is absent. *)
Definition count_of (k : string) (acc : list (string * nat)) : nat :=
  match find (fun kv => String.eqb (fst kv) k) acc with
  | Some kv => snd kv
  | None => 0
  end.

(** The [tool_type] column of [tool_df = df[df["tool_type"].notna()]]. *)
Definition tool_types (df : list Frame.row) : list string :=
  flat_map (fun r =>
              match Frame.tool_type r with
              | Some t => [t]
              | None => []
              end)
           df.

(** The rows of [tool_df] keyed by their type, with a column value. *)
Definition by_type (column : Frame.row -> nat) (df : list Frame.row)
  : list (string * nat) :=
  flat_map (fun r =>
              match Frame.tool_type r with
              | Some t => [(t, column r)]
              | None => []
              end)
           df.

Section SortValues.

(** [sort_values(ascending=False)] on a series of counts and on a series of
    floats.  pandas leaves the order of equal values to the sorting routine,
    so the two sorts are parameters. *)
Variable sort_counts : list (string * nat) -> list (string * nat).
Variable sort_floats : list (string * Q) -> list (string * Q).

(** [Series.value_counts()] *)
Definition value_counts (l : list string) : list (string * nat) :=
  sort_counts (counts l).

Definition tool_type_counts (df : list Frame.row) : list (string * nat) :=
  value_counts (tool_types df).

(** [groupby("tool_type")["num_token_from_toolcall"].mean()], then
    [sort_values(ascending=False)]: per type the sum over its rows divided
    by their number. *)
Definition avg_token_by_type (df : list Frame.row) : list (string * Q) :=
  let sums :=
    Frame.groupby_sum String.compare
      (by_type Frame.num_token_from_toolcall df) in
  let sizes := Frame.groupby_sum String.compare (by_type (fun _ => 1) df) in
  sort_floats
    (map (fun kv =>
            (fst kv,
             match Frame.series_get String.compare (fst kv) sizes with
             | Some n => (Frame.Qnat (snd kv) / Frame.Qnat n)%Q
             | None => 0%Q
             end))
         sums).

(** [freq_dominant] of [analyze_by_file_path]. *)
Definition freq_dominant (df : list Frame.row) : list (string * nat) :=
  value_counts (map snd (Frame.dominant_tool_type_df df)).

End SortValues.

(** A stable insertion sort by descending value, one sorting routine that
    [sort_values] may stand for. *)
Section InsertionSort.

Variable V : Type.
Variable leb : V -> V -> bool.

Fixpoint insert_desc (x : string * V) (l : list (string * V))
  : list (string * V) :=
  match l with
  | [] => [x]
  | y :: l' =>
      if leb (snd y) (snd x) then x :: l else y :: insert_desc x l'
  end.

Definition sort_desc (l : list (string * V)) : list (string * V) :=
  fold_right insert_desc [] l.

End InsertionSort.

Arguments sort_desc {V} leb l.

End Stats.


(** ** [1_obtain_json_gz_from_S3.py]: the latest archive of an id *)

Module S3.

(** An entry of [Contents] in a listing page: its key and its time of last
    modification (a point in time, here a number). *)
Record obj : Type := mkObj {
  Key : string;
  LastModified : Z
}.

(** [s.endswith(suffix)]: [suffix] is [s] or a tail of [s]. *)
Fixpoint endswith (suffix s : string) : bool :=
  String.eqb suffix s
  || match s with
     | EmptyString => false
     | String _ s' => endswith suffix s'
     end.

(** The body of the inner loop on [latest_obj]. *)
Definition keep_latest (latest_obj : option obj) (o : obj) : option obj :=
  if endswith ".gz" (Key o) then
    match latest_obj with
    | None => Some o
    | Some l => if (LastModified l <? LastModified o)%Z then Some o else latest_obj
    end
  else latest_obj.

(** The loop over the pages of the paginator.  A page is the list under
    [Contents] (empty when the key is missing), or [None] when fetching it
    raised [ClientError], which ends the function with [None]. *)
Fixpoint over_pages (pages : list (option (list obj))) (latest_obj : option obj)
  : option obj :=
  match pages with
  | [] => latest_obj
  | None :: _ => None
  | Some contents :: rest =>
      over_pages rest (fold_left keep_latest contents latest_obj)
  end.

Definition find_latest_gz_for_id (pages : list (option (list obj)))
  : option obj :=
  over_pages pages None.

End S3.


(** ** [1_obtain_json_gz_from_S3.py]: the ids of the CSV *)

Module Ids.

(** The exceptions that can leave [load_ids_from_csv]. *)
Inductive failure : Type :=
| KeyError
| AttributeError.

Inductive outcome (A : Type) : Type :=
| Return (a : A)
| Raised (e : failure).

Arguments Return {A} a.
Arguments Raised {A} e.

(** The dictionary [csv.DictReader] builds for one record: the field names
    paired with the fields, a field name beyond a short record getting
    [None]; fields beyond the field names go under the key [None] and are
    not reachable by a column name. *)
Fixpoint record_items (fieldnames : list string) (fields : list string)
  : list (string * option string) :=
  match fieldnames with
  | [] => []
  | name :: names =>
      match fields with
      | [] => (name, None) :: record_items names []
      | field :: rest => (name, Some field) :: record_items names rest
      end
  end.

(** [row[key]]: the last item stored under [key], if any. *)
Fixpoint getitem (key : string) (items : list (string * option string))
  : option (option string) :=
  match items with
  | [] => None
  | (k, v) :: rest =>
      match getitem key rest with
      | Some v' => Some v'
      | None => if String.eqb k key then Some v else None
      end
  end.

(** The loop of [load_ids_from_csv] over the records after the header;
    [DictReader] skips a record without fields. *)
Fixpoint load_rows (fieldnames : list string) (records : list (list string))
    (id_column : string) (ids : list string) : outcome (list string) :=
  match records with
  | [] => Return ids
  | [] :: rest => load_rows fieldnames rest id_column ids
  | fields :: rest =>
      match getitem id_column (record_items fieldnames fields) with
      | None => Raised KeyError
      | Some None => Raised AttributeError
      | Some (Some value) =>
          let id_value := Py.strip value in
          if Py.truthy id_value
          then load_rows fieldnames rest id_column (ids ++ [id_value])
          else load_rows fieldnames rest id_column ids
      end
  end.

(** [load_ids_from_csv] on the header and the records the CSV reader
    delivers. *)
Definition load_ids_from_csv (fieldnames : list string)
    (records : list (list string)) (id_column : string)
  : outcome (list string) :=
  load_rows fieldnames records id_column [].

End Ids.


(** ** What the patterns and [strip] find, stated without the scanners

    The properties of a text that the two regular expressions and [strip]
    decide, written as plain statements about how the text is put together
    ([s = a ++ p ++ b]); the scanners of [Re] and [Py] are proved against
    them. *)

Module Decl.

(** The white space [str.strip] removes, by code point. *)
Definition white (c : ascii) : Prop :=
  In (nat_of_ascii c) [9; 10; 11; 12; 13; 28; 29; 30; 31; 32; 133; 160].

Definition White (s : string) : Prop :=
  Forall white (list_ascii_of_string s).

(** [t] is [s] without the white space at its two ends. *)
Definition Trim (s t : string) : Prop :=
  (exists a b, s = a ++ t ++ b /\ White a /\ White b)
  /\ (forall c r, t = String c r -> ~ white c)
  /\ (forall r c, t = r ++ String c EmptyString -> ~ white c).

(** The characters of the class [[a-zA-Z0-9\-_]]. *)
Definition tag_alphabet : string :=
  "abcdefghijklmnopqrstuvwxyzABCDEFGHIJKLMNOPQRSTUVWXYZ0123456789-_".

Definition TagName (t : string) : Prop :=
  t <> EmptyString
  /\ Forall (fun c => In c (list_ascii_of_string tag_alphabet))
            (list_ascii_of_string t).

(** [<tag>] stands in [s] after [a] and before [b]. *)
Definition TagAt (s a tag b : string) : Prop :=
  s = a ++ "<" ++ tag ++ ">" ++ b /\ TagName tag.

(** [tag] is the name of the leftmost tag of [s]. *)
Definition FirstTag (s tag : string) : Prop :=
  exists a b,
    TagAt s a tag b
    /\ forall a' t' b', TagAt s a' t' b' -> String.length a <= String.length a'.

(** [s] holds no tag. *)
Definition Untagged (s : string) : Prop :=
  forall a t b, ~ TagAt s a t b.

(** [t] starts with the excluded marker. *)
Definition Excluded (t : string) : Prop :=
  exists r, t = "<str-replace>" ++ r.

(** [p] occurs in [s]. *)
Definition Occurs (p s : string) : Prop :=
  exists a b, s = a ++ p ++ b.

(** The tool-result blocks of a text, in order: the text is cut at its
    leftmost begin marker, the block runs to the nearest end marker, and
    the rest of the text is cut in the same way; the cutting ends where no
    begin marker has an end marker after it. *)
Inductive Blocks : string -> list string -> Prop :=
| Blocks_end (text : string) :
    (forall a b, text = a ++ Re.BEGIN ++ b -> ~ Occurs Re.END b) ->
    Blocks text []
| Blocks_span (g m rest : string) (ms : list string) :
    (forall a b,
        g ++ Re.BEGIN ++ m ++ Re.END ++ rest = a ++ Re.BEGIN ++ b ->
        String.length g <= String.length a) ->
    ~ Occurs Re.END m ->
    Blocks rest ms ->
    Blocks (g ++ Re.BEGIN ++ m ++ Re.END ++ rest) (m :: ms).

(** A block that gives the row a type: not excluded, with a first tag. *)
Definition Tagged (m tag : string) : Prop :=
  exists t, Trim m t /\ ~ Excluded t /\ FirstTag t tag.

(** A block that gives no type: excluded, or without any tag. *)
Definition Skipped (m : string) : Prop :=
  exists t, Trim m t /\ (Excluded t \/ Untagged t).

End Decl.


(** * Properties *)

(** ** The patterns on concrete texts *)

(** Lazy matching: a begin marker pairs with the nearest end marker, the
    scan resumes after it, and a begin marker without an end marker yields
    nothing. *)
Example findall_nearest_end :
  Re.TOOL_RESULT_findall
    "a<tool_result> <x>hi </tool_result>b<tool_result><tool_result>c</tool_result>d</tool_result><tool_result>e"
  = [" <x>hi "; "<tool_result>c"].
Proof. reflexivity. Qed.

Example inner_tag_leftmost :
  Re.INNER_TAG_search "a < b <> <no tag> <read_file>x</read_file> <ls>"
  = Some "read_file".
Proof. reflexivity. Qed.

Example strip_whitespace :
  Py.strip (String (ascii_of_nat 9) (" a b " ++ String (ascii_of_nat 10) ""))
  = "a b".
Proof. reflexivity. Qed.

(** The end-to-end example of the specification, one token per character:
    the assistant row has type [read_file] and the tokens of the trimmed
    inner text, markers excluded. *)
Example read_file_row :
  Frame.add_token_columns char_tokens
    [("t.json", PyStr "fix bug", "user");
     ("t.json",
      PyStr "<tool_result><read_file>data</read_file></tool_result>done",
      "assistant")]
  = [Frame.mkRow "t.json" (PyStr "fix bug") "user" 7 0 None;
     Frame.mkRow "t.json"
       (PyStr "<tool_result><read_file>data</read_file></tool_result>done")
       "assistant" 58 27 (Some "read_file")].
Proof. reflexivity. Qed.

(** ** The scanner *)

Lemma prefix_length (p s : string) :
  String.prefix p s = true -> String.length p <= String.length s.
Proof.
  revert s; induction p as [|c p IH]; intros [|d s]; simpl; try lia;
    try discriminate.
  destruct (ascii_dec c d); [|discriminate].
  intros H; apply IH in H; lia.
Qed.

Lemma drop_length (n : nat) (s : string) :
  String.length (Py.drop n s) = String.length s - n.
Proof.
  revert s; induction n as [|n IH]; intros [|c s]; simpl; auto.
Qed.

Lemma lazy_until_length (e s inner rest : string) :
  Re.lazy_until e s = Some (inner, rest) ->
  String.length inner + String.length e + String.length rest = String.length s.
Proof.
  revert inner rest; induction s as [|c s IH]; intros inner rest;
    cbn [Re.lazy_until].
  - destruct (String.prefix e EmptyString) eqn:P; [|discriminate].
    intros [= <- <-]. apply prefix_length in P. rewrite drop_length.
    cbn [String.length] in *; lia.
  - destruct (String.prefix e (String c s)) eqn:P.
    + intros [= <- <-]. apply prefix_length in P. rewrite drop_length.
      cbn [String.length] in *; lia.
    + destruct (Re.lazy_until e s) as [[i r]|]; [|discriminate].
      intros [= <- <-]. specialize (IH _ _ eq_refl).
      cbn [String.length]; lia.
Qed.

Lemma tool_result_here_length (s inner rest : string) :
  Re.tool_result_here s = Some (inner, rest) ->
  String.length Re.BEGIN + String.length inner + String.length Re.END
  + String.length rest = String.length s.
Proof.
  unfold Re.tool_result_here.
  destruct (String.prefix Re.BEGIN s) eqn:P; [|discriminate].
  intros H. apply lazy_until_length in H. apply prefix_length in P.
  rewrite drop_length in H. lia.
Qed.

(** The scanner needs no more steps than the text has characters: any
    larger fuel gives the same list, so [TOOL_RESULT_findall] is the
    complete scan. *)
Lemma findall_from_enough (n : nat) (s : string) :
  String.length s <= n ->
  Re.findall_from n s = Re.TOOL_RESULT_findall s.
Proof.
  unfold Re.TOOL_RESULT_findall.
  remember (String.length s) as k eqn:Hk.
  revert s n Hk.
  induction k as [k IH] using lt_wf_ind; intros s n Hk Hn.
  destruct s as [|c s].
  - subst k. destruct n; reflexivity.
  - simpl in Hk. destruct n as [|n]; [lia|]. subst k.
    cbn [Re.findall_from].
    destruct (Re.tool_result_here (String c s)) as [[inner rest]|] eqn:E.
    + apply tool_result_here_length in E. cbn in E.
      f_equal.
      rewrite (IH (String.length rest)) by (simpl; lia).
      symmetry. apply (IH (String.length rest)); simpl; lia.
    + rewrite (IH (String.length s)) by (simpl; lia).
      reflexivity.
Qed.

(** A text without the begin marker yields no span. *)
Lemma findall_from_no_begin (n : nat) (s : string) :
  Py.contains Re.BEGIN s = false -> Re.findall_from n s = [].
Proof.
  revert s; induction n as [|n IH]; intros s H; [reflexivity|].
  cbn [Re.findall_from]. unfold Re.tool_result_here.
  destruct s as [|c s]; cbn [Py.contains] in H;
    apply orb_false_elim in H; destruct H as [H1 H2]; rewrite H1.
  - reflexivity.
  - now apply IH.
Qed.

(** ** The loop of [analyze_tool_calls] *)

Section ToolCalls.

Variable encode : string -> list nat.

Lemma loop_body_not_counted (st : nat * option string) (m : string) :
  Analyze.counted m = false -> Analyze.loop_body encode st m = st.
Proof.
  unfold Analyze.counted, Analyze.loop_body.
  destruct (Py.startswith Analyze.EXCLUDED (Py.strip m)); [reflexivity|].
  destruct (Re.INNER_TAG_search (Py.strip m)); [discriminate|reflexivity].
Qed.

Lemma loop_body_counted (st : nat * option string) (m : string) :
  Analyze.counted m = true ->
  Analyze.loop_body encode st m =
  (fst st + List.length (encode (Py.strip m)),
   match snd st with
   | Some t => Some t
   | None => Re.INNER_TAG_search (Py.strip m)
   end).
Proof.
  unfold Analyze.counted, Analyze.loop_body.
  destruct (Py.startswith Analyze.EXCLUDED (Py.strip m)); [discriminate|].
  destruct (Re.INNER_TAG_search (Py.strip m)); [|discriminate].
  now destruct (snd st).
Qed.

(** The state after the loop, from any state before it. *)
Lemma loop_from (ms : list string) (n : nat) (ty : option string) :
  fold_left (Analyze.loop_body encode) ms (n, ty) =
  (n + Frame.sum (map (fun m => List.length (encode (Py.strip m)))
                    (filter Analyze.counted ms)),
   match ty with
   | Some t => Some t
   | None =>
       match find Analyze.counted ms with
       | Some m => Re.INNER_TAG_search (Py.strip m)
       | None => None
       end
   end).
Proof.
  revert n ty; induction ms as [|m ms IH]; intros n ty; cbn [fold_left].
  - cbn. rewrite Nat.add_0_r. now destruct ty.
  - cbn [filter find]. destruct (Analyze.counted m) eqn:C.
    + rewrite (loop_body_counted _ _ C). cbn [fst snd].
      rewrite IH. cbn [map Frame.sum fold_right].
      f_equal; [unfold Frame.sum; lia|].
      destruct ty; [reflexivity|].
      unfold Analyze.counted in C.
      destruct (Re.INNER_TAG_search (Py.strip m)); [reflexivity|].
      rewrite andb_false_r in C; discriminate.
    + rewrite (loop_body_not_counted _ _ C). apply IH.
Qed.

(** Dropping a group the loop does not count changes nothing. *)
Lemma analyze_matches_drop (pre post : list string) (m : string) :
  Analyze.counted m = false ->
  Analyze.analyze_matches encode (pre ++ m :: post)%list =
  Analyze.analyze_matches encode (pre ++ post)%list.
Proof.
  intros C. unfold Analyze.analyze_matches.
  rewrite !fold_left_app. cbn [fold_left].
  now rewrite (loop_body_not_counted _ _ C).
Qed.

Lemma find_counted_blocks (ms : list string) :
  find (fun m => match Spec.inner_tag m with Some _ => true | None => false end)
       (filter (fun m => negb (Spec.excluded m)) ms)
  = find Analyze.counted ms.
Proof.
  induction ms as [|m ms IH]; [reflexivity|].
  cbn [filter find]. unfold Analyze.counted at 1.
  fold (Spec.excluded m) (Spec.inner_tag m).
  destruct (Spec.excluded m); cbn [negb andb]; [exact IH|].
  cbn [find]. destruct (Spec.inner_tag m); [reflexivity|exact IH].
Qed.

End ToolCalls.

(** Every row of the frame carries the pair [analyze_tool_calls] returns
    for its prompt, and the token count of the prompt. *)
Lemma add_token_columns_row (encode : string -> list nat)
    (csv : list (string * cell * string)) (r : Frame.row) :
  In r (Frame.add_token_columns encode csv) ->
  Frame.num_token r = Analyze.count_tokens encode (Frame.prompt r)
  /\ (Frame.num_token_from_toolcall r, Frame.tool_type r)
     = Analyze.analyze_tool_calls encode (Frame.prompt r).
Proof.
  unfold Frame.add_token_columns. intros H.
  apply in_map_iff in H as ([[fp p] rl] & <- & _).
  destruct (Analyze.analyze_tool_calls encode p) as [tok tool] eqn:E.
  cbn. now rewrite E.
Qed.

(** ** Claims about [analyze_tool_calls] *)

(** C1 (as amended): a non-excluded block in which no inner tag pattern
    occurs is skipped by the loop: the row's [tool_tokens] and [tool_type]
    are those of the remaining blocks, so the block adds neither tokens nor
    a type. *)
Theorem C1_untagged_block_is_skipped
    (encode : string -> list nat) (text : string)
    (pre post : list string) (m : string) :
  Re.TOOL_RESULT_findall text = (pre ++ m :: post)%list ->
  Spec.excluded m = false ->
  Spec.inner_tag m = None ->
  Analyze.analyze_tool_calls encode (PyStr text) =
  Analyze.analyze_matches encode (pre ++ post)%list.
Proof.
  intros Hm _ Htag. cbn [Analyze.analyze_tool_calls]. rewrite Hm.
  apply analyze_matches_drop. unfold Analyze.counted.
  unfold Spec.inner_tag in Htag. rewrite Htag. apply andb_false_r.
Qed.

(** The theorem on a text with one untagged and one tagged block. *)
Lemma C1_untagged_block_is_skipped_witness :
  Re.TOOL_RESULT_findall
    "<tool_result>plain output</tool_result><tool_result><ls>a b</tool_result>"
  = ([] ++ "plain output" :: ["<ls>a b"])%list
  /\ Spec.excluded "plain output" = false
  /\ Spec.inner_tag "plain output" = None
  /\ Analyze.analyze_tool_calls char_tokens
       (PyStr "<tool_result>plain output</tool_result><tool_result><ls>a b</tool_result>")
     = Analyze.analyze_matches char_tokens ([] ++ ["<ls>a b"])%list.
Proof.
  split; [reflexivity|]. split; [reflexivity|]. split; [reflexivity|].
  apply (C1_untagged_block_is_skipped char_tokens _ [] ["<ls>a b"] "plain output");
    reflexivity.
Defined.

(** C1 as the specification states it fails: a non-excluded block without an
    inner tag does not add its token count to [tool_tokens].  With one token
    per character the block below has 12 tokens and the row's [tool_tokens]
    is 0. *)
Lemma C1_untagged_block_not_counted :
  ~ (forall (encode : string -> list nat) (text m : string),
        In m (Spec.blocks text) ->
        Spec.inner_tag m = None ->
        List.length (encode (Py.strip m))
        <= fst (Analyze.analyze_tool_calls encode (PyStr text))).
Proof.
  intros H.
  specialize (H char_tokens "<tool_result>plain output</tool_result>"
                "plain output").
  assert (L : 12 <= 0); [|inversion L].
  apply H; [left|]; reflexivity.
Qed.

(** The code against the reading of the specification: both take the tag
    of the first span that is not excluded and holds a tag.  What the spans
    and the tag are is stated without the scanners further below
    ([Decl.Blocks], [Decl.Tagged]). *)
Lemma tool_type_as_in_spec (encode : string -> list nat) :
  (forall text : string,
      snd (Analyze.analyze_tool_calls encode (PyStr text)) = Spec.tool_type text)
  /\ (forall text : string,
         Py.contains Re.BEGIN text = false ->
         Analyze.analyze_tool_calls encode (PyStr text) = (0, None))
  /\ Analyze.analyze_tool_calls encode NotStr = (0, None).
Proof.
  split; [|split]; [| |reflexivity].
  - intros text. cbn [Analyze.analyze_tool_calls].
    unfold Analyze.analyze_matches. rewrite loop_from. cbn [snd].
    unfold Spec.tool_type, Spec.blocks. rewrite find_counted_blocks.
    reflexivity.
  - intros text H. cbn [Analyze.analyze_tool_calls].
    unfold Re.TOOL_RESULT_findall. now rewrite findall_from_no_begin.
Qed.

(** C10: [tool_tokens] is the sum of the token counts of the blocks that are
    not excluded and contain an inner tag; hence an absent [tool_type]
    comes with [tool_tokens = 0], and a positive [tool_tokens] with a
    [tool_type]. *)
Theorem C10_absent_type_has_zero_tokens
    (encode : string -> list nat) (prompt : cell) :
  let matches :=
    match prompt with
    | PyStr p => Re.TOOL_RESULT_findall p
    | NotStr => []
    end in
  let result := Analyze.analyze_tool_calls encode prompt in
  fst result =
    Frame.sum (map (fun m => List.length (encode (Py.strip m)))
                 (filter Analyze.counted matches))
  /\ (snd result = None -> fst result = 0)
  /\ (0 < fst result -> snd result <> None).
Proof.
  intros matches result.
  assert (E : result =
              (Frame.sum (map (fun m => List.length (encode (Py.strip m)))
                            (filter Analyze.counted matches)),
               match find Analyze.counted matches with
               | Some m => Re.INNER_TAG_search (Py.strip m)
               | None => None
               end)).
  { subst result matches. destruct prompt as [p|]; [|reflexivity].
    cbn [Analyze.analyze_tool_calls]. unfold Analyze.analyze_matches.
    now rewrite loop_from. }
  assert (Z : snd result = None -> fst result = 0).
  { rewrite E. cbn [fst snd]. clear E result.
    induction matches as [|m ms IH]; [reflexivity|].
    cbn [filter find]. destruct (Analyze.counted m) eqn:C; [|exact IH].
    unfold Analyze.counted in C.
    destruct (Re.INNER_TAG_search (Py.strip m)); [discriminate|].
    rewrite andb_false_r in C; discriminate. }
  split; [now rewrite E|]. split; [exact Z|].
  intros Hpos Hnone. apply Z in Hnone. lia.
Qed.

(** ** How the patterns and [strip] cut a text *)

Lemma prefix_split (p s : string) :
  String.prefix p s = true -> s = p ++ Py.drop (String.length p) s.
Proof.
  revert s; induction p as [|c p IH]; intros s; [now destruct s|].
  destruct s as [|d s]; cbn [String.prefix]; [discriminate|].
  destruct (ascii_dec c d) as [->|]; [|discriminate].
  intros H. cbn. f_equal. now apply IH.
Qed.

Lemma lazy_until_split (e s inner rest : string) :
  Re.lazy_until e s = Some (inner, rest) -> s = inner ++ e ++ rest.
Proof.
  revert inner rest; induction s as [|c s IH]; intros inner rest;
    cbn [Re.lazy_until].
  - destruct (String.prefix e EmptyString) eqn:P; [|discriminate].
    intros [= <- <-]. now apply prefix_split.
  - destruct (String.prefix e (String c s)) eqn:P.
    + intros [= <- <-]. now apply prefix_split.
    + destruct (Re.lazy_until e s) as [[i r]|]; [|discriminate].
      intros [= <- <-]. cbn. f_equal. now apply IH.
Qed.

(** A span the pattern finds is delimited by the two markers. *)
Lemma tool_result_here_split (s inner rest : string) :
  Re.tool_result_here s = Some (inner, rest) ->
  s = Re.BEGIN ++ inner ++ Re.END ++ rest.
Proof.
  unfold Re.tool_result_here.
  destruct (String.prefix Re.BEGIN s) eqn:P; [|discriminate].
  intros H. apply lazy_until_split in H. apply prefix_split in P.
  rewrite P at 1. now rewrite H.
Qed.

Lemma lstrip_split (s : string) : exists a, s = a ++ Py.lstrip s.
Proof.
  induction s as [|c s [a IH]]; [now exists EmptyString|].
  cbn [Py.lstrip]. destruct (Py.isspace c).
  - exists (String c a). cbn. now f_equal.
  - now exists EmptyString.
Qed.

Lemma rstrip_split (s : string) : exists b, s = Py.rstrip s ++ b.
Proof.
  induction s as [|c s [b IH]]; [now exists EmptyString|].
  cbn [Py.rstrip]. destruct (Py.rstrip s) as [|d r] eqn:R.
  - destruct (Py.isspace c).
    + now exists (String c s).
    + exists b. cbn. now f_equal.
  - exists b. cbn [append]. now f_equal.
Qed.

(** The trimmed text is a substring of the text. *)
Lemma strip_split (s : string) : exists a b, s = a ++ Py.strip s ++ b.
Proof.
  destruct (lstrip_split s) as [a Ha].
  destruct (rstrip_split (Py.lstrip s)) as [b Hb].
  exists a, b. unfold Py.strip. now rewrite <- Hb.
Qed.

(** ** Content normalisation and row extraction *)

Lemma truthy_empty (s : string) : Py.truthy s = false <-> s = EmptyString.
Proof. destruct s; cbn; split; congruence. Qed.

(** C7 (as amended): on a string, [normalize_content] returns exactly the
    trimmed string, also when that is empty (it never returns [None] and
    never raises); the extractor then treats the empty string as no text:
    a [user] or [assistant] message with string content gives one row with
    the trimmed text when it is non-empty and no row otherwise. *)
Theorem C7_normalize_string_returns_trimmed (s : string) :
  ExtractPrompts.normalize_content (JStr s) = Some (Py.strip s)
  /\ (forall (file_path r : string) (members : list (string * json)),
         ExtractPrompts.obj_get "role" members = Some (JStr r) ->
         r = "user" \/ r = "assistant" ->
         ExtractPrompts.obj_get "content" members = Some (JStr s) ->
         ExtractPrompts.message_rows file_path (JObj members) =
         if Py.truthy (Py.strip s) then [(file_path, Py.strip s, r)] else []).
Proof.
  split; [reflexivity|].
  intros file_path r members Hrole Hr Hcontent.
  unfold ExtractPrompts.message_rows, ExtractPrompts.message_try,
    ExtractPrompts.get, ExtractPrompts.bind.
  rewrite Hrole, Hcontent.
  assert (E : (String.eqb r "user" || String.eqb r "assistant")%bool = true).
  { destruct Hr as [-> | ->]; reflexivity. }
  rewrite E. cbn [ExtractPrompts.normalize_content].
  now destruct (Py.truthy (Py.strip s)).
Qed.

(** C7 as the specification states it fails: a string that trims to the
    empty string is answered with the empty string, not with [None]. *)
Lemma C7_blank_string_is_not_absent :
  ~ (forall s : string,
        Py.strip s = EmptyString ->
        ExtractPrompts.normalize_content (JStr s) = None).
Proof.
  intros H. specialize (H "   " eq_refl). discriminate H.
Qed.

(** What the extractor does contain: a file that cannot be opened or
    decoded, and a document without the [request] or [messages] key, give
    the empty list. *)
Lemma extract_contained_failures (file_path : string) :
  ExtractPrompts.extract_prompts_from_file file_path None = Ok []
  /\ ExtractPrompts.extract_prompts_from_file file_path (Some (JObj [])) = Ok []
  /\ ExtractPrompts.extract_prompts_from_file file_path
       (Some (JObj [("request", JObj [])])) = Ok [].
Proof. repeat split. Qed.

(** An item of [messages] of any shape leaves the loop body without an
    exception: [message_rows] is total and gives at most one row. *)
Lemma message_rows_at_most_one (file_path : string) (msg : json) :
  List.length (ExtractPrompts.message_rows file_path msg) <= 1.
Proof.
  unfold ExtractPrompts.message_rows.
  destruct (ExtractPrompts.message_try file_path msg) as [[row|]|e]; cbn; lia.
Qed.

(** An exception of one worker ends the run, wherever the file stands in
    the completion order and whatever the other files hold. *)
Lemma collect_raises (before after : list (string * option json))
    (file_path : string) (loaded : option json) (e : exn)
    (all_rows : list ExtractPrompts.prompt_row) :
  ExtractPrompts.extract_prompts_from_file file_path loaded = Raise e ->
  exists e',
    ExtractPrompts.collect (before ++ (file_path, loaded) :: after)%list all_rows
    = Raise e'.
Proof.
  intros He. revert all_rows.
  induction before as [|[fp l] before IH]; intros all_rows.
  - exists e. cbn. now rewrite He.
  - cbn. destruct (ExtractPrompts.extract_prompts_from_file fp l) as [rows|e1].
    + cbn. apply IH.
    + now exists e1.
Qed.

(** C2 (the code departs from the claim): a document that is valid JSON but
    not an object (here the array [[]]), a [request] that is not an object
    and a [messages] that is not iterable each make
    [extract_prompts_from_file] raise outside both [try] blocks, and the
    exception ends [main] although the other file is well formed. *)
Theorem C2_malformed_structure_aborts_run :
  let good :=
    JObj [("request",
           JObj [("messages",
                  JArr [JObj [("role", JStr "user");
                              ("content", JStr "hi")]])])] in
  ExtractPrompts.extract_prompts_from_file "a.json" (Some good)
  = Ok [("a.json", "hi", "user")]
  /\ ExtractPrompts.extract_prompts_from_file "b.json" (Some (JArr []))
     = Raise AttributeError
  /\ ExtractPrompts.extract_prompts_from_file "b.json"
       (Some (JObj [("request", JNull)])) = Raise AttributeError
  /\ ExtractPrompts.extract_prompts_from_file "b.json"
       (Some (JObj [("request", JObj [("messages", JNull)])])) = Raise TypeError
  /\ ExtractPrompts.main [("a.json", Some good); ("b.json", Some (JArr []))]
     = Raise AttributeError
  /\ ExtractPrompts.main [("b.json", Some (JArr [])); ("a.json", Some good)]
     = Raise AttributeError.
Proof. cbv zeta. repeat split. Qed.

(** ** Bucketing the per-conversation percentages *)

Lemma Qle_bool_false (x y : Q) : Qle_bool x y = false -> (y < x)%Q.
Proof.
  intros H. apply Qnot_le_lt. intros L.
  apply Qle_bool_iff in L. congruence.
Qed.

(** [pd.cut] puts a value in one of the five bins exactly when it lies in
    the range (0, 100]. *)
Lemma cut_cases (v : fval) :
  (Frame.in_0_100 v = true
   /\ exists i, i < 5 /\ Frame.cut Frame.bins v = Some i)
  \/ (Frame.in_0_100 v = false /\ Frame.cut Frame.bins v = None).
Proof.
  destruct v as [q| |]; [|right; split; reflexivity..].
  unfold Frame.in_0_100, Frame.cut, Frame.bins, Frame.cut_from, Frame.Qlt_bool.
  destruct (Qle_bool q 0) eqn:E0, (Qle_bool q 20) eqn:E20,
    (Qle_bool q 40) eqn:E40, (Qle_bool q 60) eqn:E60,
    (Qle_bool q 80) eqn:E80, (Qle_bool q 100) eqn:E100;
    cbn [negb andb];
    try (right; split; reflexivity);
    try (left; split; [reflexivity|eexists; split; [|reflexivity]; lia]);
    exfalso;
    repeat match goal with
           | H : Qle_bool _ _ = true |- _ => apply Qle_bool_iff in H
           | H : Qle_bool _ _ = false |- _ => apply Qle_bool_false in H
           end;
    lra.
Qed.

Lemma range_counts_cons (kv : string * fval) (pcts : list (string * fval)) :
  Frame.sum (map snd (Frame.range_counts (kv :: pcts)))
  = (if Frame.in_0_100 (snd kv) then 1 else 0)
    + Frame.sum (map snd (Frame.range_counts pcts)).
Proof.
  unfold Frame.range_counts. cbn [map].
  destruct (cut_cases (snd kv)) as [[-> (i & Hi & ->)]|[-> ->]].
  - do 5 (destruct i as [|i]; [cbn; lia|]). lia.
  - cbn. lia.
Qed.

(** C4 (as amended): the bucket counts sum to the number of conversations
    whose [tool_call_token_pct] lies in (0, 100]; a conversation whose
    percentage is 0, undefined or outside the range is in no bucket. *)
Theorem C4_bucket_counts_sum (df : list Frame.row) :
  Frame.sum (map snd (Frame.range_counts (Frame.file_tool_pct df)))
  = List.length
      (filter (fun kv => Frame.in_0_100 (snd kv)) (Frame.file_tool_pct df)).
Proof.
  induction (Frame.file_tool_pct df) as [|kv pcts IH]; [reflexivity|].
  rewrite range_counts_cons, IH. cbn [filter].
  destruct (Frame.in_0_100 (snd kv)); cbn; lia.
Qed.

(** C4 as the specification states it fails: a conversation without tool
    tokens has the defined percentage 0, which the first interval (0, 20]
    leaves out. *)
Lemma C4_zero_percent_in_no_bucket :
  ~ (forall df : list Frame.row,
        Frame.sum (map snd (Frame.range_counts (Frame.file_tool_pct df)))
        = List.length
            (filter (fun kv => Frame.notna (snd kv)) (Frame.file_tool_pct df))).
Proof.
  intros H.
  specialize (H (Frame.add_token_columns char_tokens
                   [("a.json", PyStr "hello", "user")])).
  vm_compute in H. discriminate H.
Qed.

(** ** Grouped sums *)

Section GroupByFacts.

Variable K : Type.
Variable cmp : K -> K -> comparison.

Hypothesis cmp_eq : forall a b : K, cmp a b = Eq <-> a = b.
Hypothesis cmp_antisym : forall a b : K, cmp a b = CompOpp (cmp b a).
Hypothesis cmp_trans :
  forall a b c : K, cmp a b = Lt -> cmp b c = Lt -> cmp a c = Lt.

Lemma cmp_refl (k : K) : cmp k k = Eq.
Proof. now apply cmp_eq. Qed.

Lemma cmp_gt_lt (a b : K) : cmp a b = Gt -> cmp b a = Lt.
Proof. rewrite (cmp_antisym b a). now intros ->. Qed.

Lemma cmp_lt_gt (a b : K) : cmp a b = Lt -> cmp b a = Gt.
Proof. rewrite (cmp_antisym b a). now intros ->. Qed.

Lemma same_key_iff (k k' : K) : Frame.same_key cmp k k' = true <-> k' = k.
Proof.
  unfold Frame.same_key. rewrite <- cmp_eq.
  destruct (cmp k' k); split; congruence.
Qed.

(** The labels of [add_to k v g] are [k] and the labels of [g]. *)
Lemma add_to_labels (P : K -> Prop) (k : K) (v : nat) (g : list (K * nat)) :
  P k -> Forall (fun e => P (fst e)) g ->
  Forall (fun e => P (fst e)) (Frame.add_to cmp k v g).
Proof.
  intros Hk. induction g as [|[k' v'] g IH]; intros Hg; cbn [Frame.add_to].
  - now constructor.
  - inversion Hg as [|? ? Hhd Htl]; subst.
    destruct (cmp k k'); constructor; auto.
Qed.

Lemma add_to_ascending (k : K) (v : nat) (g : list (K * nat)) :
  Frame.ascending cmp g -> Frame.ascending cmp (Frame.add_to cmp k v g).
Proof.
  unfold Frame.ascending.
  induction g as [|[k' v'] g IH]; intros Hg; cbn [Frame.add_to].
  - repeat constructor.
  - inversion Hg as [|? ? Hs Hall]; subst.
    destruct (cmp k k') eqn:C.
    + constructor; [assumption|exact Hall].
    + constructor; [assumption|].
      constructor; [exact C|].
      eapply Forall_impl; [|exact Hall].
      cbn. intros e He. eapply cmp_trans; eassumption.
    + constructor; [now apply IH|].
      apply (add_to_labels (fun x => cmp k' x = Lt)); [|exact Hall].
      now apply cmp_gt_lt.
Qed.

Lemma series_get_above (k : K) (g : list (K * nat)) :
  Forall (fun e => cmp k (fst e) = Lt) g -> Frame.series_get cmp k g = None.
Proof.
  induction 1 as [|[k' v'] g H _ IH]; [reflexivity|].
  cbn in *. now rewrite H.
Qed.

Lemma series_get_add_to_same (k : K) (v : nat) (g : list (K * nat)) :
  Frame.ascending cmp g ->
  Frame.series_get cmp k (Frame.add_to cmp k v g) =
  Some (match Frame.series_get cmp k g with
        | Some x => x + v
        | None => v
        end).
Proof.
  unfold Frame.ascending.
  induction g as [|[k' v'] g IH]; intros Hg;
    cbn [Frame.add_to Frame.series_get].
  - now rewrite cmp_refl.
  - inversion Hg as [|? ? Hs Hall]; subst.
    destruct (cmp k k') eqn:C; cbn [Frame.series_get]; rewrite ?C, ?cmp_refl.
    + reflexivity.
    + rewrite series_get_above; [reflexivity|].
      eapply Forall_impl; [|exact Hall].
      cbn. intros e He. eapply cmp_trans; eassumption.
    + now apply IH.
Qed.

Lemma series_get_add_to_other (k1 k : K) (v : nat) (g : list (K * nat)) :
  k1 <> k ->
  Frame.series_get cmp k1 (Frame.add_to cmp k v g) = Frame.series_get cmp k1 g.
Proof.
  intros Hne.
  assert (N : cmp k1 k <> Eq) by (now rewrite cmp_eq).
  induction g as [|[k' v'] g IH]; cbn [Frame.add_to Frame.series_get].
  - now destruct (cmp k1 k).
  - destruct (cmp k k') eqn:C; cbn [Frame.series_get].
    + apply cmp_eq in C; subst k'. now destruct (cmp k1 k).
    + now destruct (cmp k1 k).
    + rewrite IH. reflexivity.
Qed.

(** The grouped sums built from any ascending series. *)
Lemma groupby_from (l g : list (K * nat)) :
  Frame.ascending cmp g ->
  Frame.ascending cmp
    (fold_left (fun g kv => Frame.add_to cmp (fst kv) (snd kv) g) l g)
  /\ forall k,
      Frame.series_get cmp k
        (fold_left (fun g kv => Frame.add_to cmp (fst kv) (snd kv) g) l g)
      = match Frame.series_get cmp k g with
        | Some x => Some (x + Frame.sum_for cmp k l)
        | None =>
            if Frame.has_key cmp k l then Some (Frame.sum_for cmp k l)
            else None
        end.
Proof.
  revert g; induction l as [|[k0 v0] l IH]; intros g Hg; cbn [fold_left].
  - split; [exact Hg|]. intros k. cbn.
    destruct (Frame.series_get cmp k g); [f_equal; lia|reflexivity].
  - destruct (IH _ (add_to_ascending k0 v0 g Hg)) as [Hasc Hget].
    split; [exact Hasc|]. intros k. rewrite Hget. cbn [fst snd].
    unfold Frame.sum_for, Frame.has_key. cbn [filter existsb fst].
    destruct (Frame.same_key cmp k k0) eqn:S.
    + apply same_key_iff in S; subst k0.
      rewrite series_get_add_to_same by exact Hg.
      cbn [map snd Frame.sum fold_right]. fold Frame.sum.
      destruct (Frame.series_get cmp k g); cbn [orb]; f_equal;
        unfold Frame.sum; lia.
    + assert (k <> k0).
      { intros ->. rewrite (proj2 (same_key_iff k0 k0) eq_refl) in S.
        discriminate. }
      rewrite series_get_add_to_other by assumption.
      reflexivity.
Qed.

(** [groupby(...).sum()]: ascending labels, one per key that occurs, each
    with the sum of the values filed under it. *)
Lemma groupby_sum_spec (l : list (K * nat)) :
  Frame.ascending cmp (Frame.groupby_sum cmp l)
  /\ forall k,
      Frame.series_get cmp k (Frame.groupby_sum cmp l)
      = if Frame.has_key cmp k l then Some (Frame.sum_for cmp k l) else None.
Proof.
  unfold Frame.groupby_sum.
  destruct (groupby_from l [] (SSorted_nil _)) as [H1 H2].
  split; [exact H1|exact H2].
Qed.

Lemma In_series_get {V : Type} (k : K) (v : V) (g : list (K * V)) :
  Frame.ascending cmp g -> In (k, v) g -> Frame.series_get cmp k g = Some v.
Proof.
  unfold Frame.ascending.
  induction g as [|[k' v'] g IH]; intros Hg; [intros []|].
  inversion Hg as [|? ? Hs Hall]; subst.
  intros [[= -> ->]|Hin]; cbn [Frame.series_get].
  - now rewrite cmp_refl.
  - rewrite Forall_forall in Hall. specialize (Hall _ Hin). cbn in Hall.
    rewrite (cmp_lt_gt _ _ Hall). now apply IH.
Qed.

Lemma series_get_In {V : Type} (k : K) (v : V) (g : list (K * V)) :
  Frame.series_get cmp k g = Some v -> In (k, v) g.
Proof.
  induction g as [|[k' v'] g IH]; [discriminate|].
  cbn [Frame.series_get]. destruct (cmp k k') eqn:C.
  - apply cmp_eq in C; subst k'. intros [= ->]. now left.
  - intros H. right. now apply IH.
  - intros H. right. now apply IH.
Qed.

(** The labels of the grouped sums are the keys that occur. *)
Lemma groupby_sum_labels (l : list (K * nat)) (k : K) :
  In k (map fst (Frame.groupby_sum cmp l)) <-> Frame.has_key cmp k l = true.
Proof.
  destruct (groupby_sum_spec l) as [Hasc Hget]. specialize (Hget k).
  rewrite in_map_iff. split.
  - intros ([k' v] & Hk & Hin). cbn [fst] in Hk. subst k'.
    apply In_series_get in Hin; [|exact Hasc]. rewrite Hin in Hget.
    now destruct (Frame.has_key cmp k l).
  - intros Hh. rewrite Hh in Hget. apply series_get_In in Hget.
    now exists (k, Frame.sum_for cmp k l).
Qed.

End GroupByFacts.

(** [idxmax] returns a label of the series whose value no entry exceeds and
    no earlier entry reaches. *)
Lemma idxmax_from_spec {K : Type} (s : list (K * nat)) (best : K * nat) :
  exists before v after,
    best :: s = (before ++ (Frame.idxmax_from best s, v) :: after)%list
    /\ Forall (fun e => snd e < v) before
    /\ Forall (fun e => snd e <= v) after
    /\ snd best <= v.
Proof.
  revert best; induction s as [|kv s IH]; intros best; cbn [Frame.idxmax_from].
  - exists [], (snd best), []. destruct best; cbn. repeat split; auto.
  - destruct (Nat.ltb_spec (snd best) (snd kv)) as [L|L].
    + destruct (IH kv) as (b & v & a & E & Hb & Ha & Hv).
      exists (best :: b), v, a. cbn [app].
      split; [f_equal; exact E|].
      split; [constructor; [lia|exact Hb]|]. split; [exact Ha|lia].
    + destruct (IH best) as (b & v & a & E & Hb & Ha & Hv).
      destruct b as [|b0 b].
      * cbn in E. injection E as E1 E2.
        assert (Hv' : snd best = v) by (rewrite E1; reflexivity).
        exists [], v, (kv :: a). cbn [app].
        split; [now rewrite <- E1, E2|].
        split; [constructor|]. split; [|lia].
        constructor; [lia|exact Ha].
      * cbn in E. injection E as E1 E2. subst b0.
        exists (best :: kv :: b), v, a. cbn [app].
        inversion Hb; subst.
        split; [do 2 f_equal; exact E2|].
        repeat split; auto.
        constructor; [assumption|]. constructor; [lia|assumption].
Qed.

Lemma idxmax_spec {K : Type} (s : list (K * nat)) (k : K) :
  Frame.idxmax s = Some k ->
  exists before v after,
    s = (before ++ (k, v) :: after)%list
    /\ Forall (fun e => snd e < v) before
    /\ Forall (fun e => snd e <= v) after.
Proof.
  destruct s as [|kv s]; [discriminate|]. cbn [Frame.idxmax]. intros [= <-].
  destruct (idxmax_from_spec s kv) as (b & v & a & E & Hb & Ha & _).
  now exists b, v, a.
Qed.

(** ** The orders of the two indexes *)

Lemma string_compare_eq (a b : string) : String.compare a b = Eq <-> a = b.
Proof. exact (String_as_OT.cmp_eq a b). Qed.

Lemma string_compare_antisym (a b : string) :
  String.compare a b = CompOpp (String.compare b a).
Proof. exact (String_as_OT.cmp_antisym a b). Qed.

Lemma string_compare_trans (a b c : string) :
  String.compare a b = Lt -> String.compare b c = Lt -> String.compare a c = Lt.
Proof.
  intros H1 H2. apply String_as_OT.cmp_lt.
  apply String_as_OT.cmp_lt in H1, H2.
  eapply String_as_OT.lt_trans; eassumption.
Qed.

Lemma pair_compare_eq (a b : string * string) :
  Frame.pair_compare a b = Eq <-> a = b.
Proof.
  destruct a as [a1 a2], b as [b1 b2]. unfold Frame.pair_compare. cbn [fst snd].
  destruct (String.compare a1 b1) eqn:C1.
  - apply string_compare_eq in C1; subst b1.
    rewrite string_compare_eq. split; [now intros ->|now intros [= ->]].
  - split; [discriminate|]. intros [= -> ->].
    rewrite (proj2 (string_compare_eq b1 b1) eq_refl) in C1. discriminate.
  - split; [discriminate|]. intros [= -> ->].
    rewrite (proj2 (string_compare_eq b1 b1) eq_refl) in C1. discriminate.
Qed.

Lemma pair_compare_antisym (a b : string * string) :
  Frame.pair_compare a b = CompOpp (Frame.pair_compare b a).
Proof.
  unfold Frame.pair_compare.
  rewrite (string_compare_antisym (fst a) (fst b)).
  rewrite (string_compare_antisym (snd a) (snd b)).
  now destruct (String.compare (fst b) (fst a)).
Qed.

Lemma pair_compare_trans (a b c : string * string) :
  Frame.pair_compare a b = Lt -> Frame.pair_compare b c = Lt ->
  Frame.pair_compare a c = Lt.
Proof.
  destruct a as [a1 a2], b as [b1 b2], c as [c1 c2].
  unfold Frame.pair_compare. cbn [fst snd].
  destruct (String.compare a1 b1) eqn:C1; try discriminate;
    destruct (String.compare b1 c1) eqn:C2; try discriminate; intros H1 H2.
  - apply string_compare_eq in C1, C2; subst.
    rewrite (proj2 (string_compare_eq c1 c1) eq_refl).
    eapply string_compare_trans; eassumption.
  - apply string_compare_eq in C1; subst. now rewrite C2.
  - apply string_compare_eq in C2; subst. now rewrite C1.
  - now rewrite (string_compare_trans _ _ _ C1 C2).
Qed.

Lemma has_key_false_sum_for {K : Type} (cmp : K -> K -> comparison)
    (k : K) (l : list (K * nat)) :
  Frame.has_key cmp k l = false -> Frame.sum_for cmp k l = 0.
Proof.
  unfold Frame.has_key, Frame.sum_for.
  induction l as [|kv l IH]; [reflexivity|]. cbn [existsb filter].
  destruct (Frame.same_key cmp k (fst kv)); [discriminate|exact IH].
Qed.

Lemma StronglySorted_filter {A : Type} (R : A -> A -> Prop)
    (f : A -> bool) (l : list A) :
  StronglySorted R l -> StronglySorted R (filter f l).
Proof.
  induction 1 as [|a l Hs IH Hall]; cbn [filter]; [constructor|].
  destruct (f a); [|exact IH]. constructor; [exact IH|].
  rewrite Forall_forall in *. intros x Hx. apply filter_In in Hx.
  now apply Hall.
Qed.

Lemma StronglySorted_map {A B : Type} (R : A -> A -> Prop)
    (R' : B -> B -> Prop) (g : A -> B) (l : list A) :
  (forall a b, In a l -> In b l -> R a b -> R' (g a) (g b)) ->
  StronglySorted R l -> StronglySorted R' (map g l).
Proof.
  intros HR H. induction H as [|a l Hs IH Hall]; cbn [map]; [constructor|].
  constructor.
  - apply IH. intros x y Hx Hy. apply HR; now right.
  - rewrite Forall_forall in *. intros y Hy.
    apply in_map_iff in Hy as (x & <- & Hx).
    apply HR; [now left|now right|now apply Hall].
Qed.

(** ** The dominant tool type of a conversation *)

Section Dominant.

Variable df : list Frame.row.

Lemma same_key_pair (fp tp a t : string) :
  Frame.same_key Frame.pair_compare (fp, tp) (a, t)
  = (String.eqb a fp && String.eqb t tp)%bool.
Proof.
  apply eq_true_iff_eq.
  rewrite (same_key_iff _ _ pair_compare_eq), andb_true_iff, !String.eqb_eq.
  split; [now intros [= -> ->]|now intros [-> ->]].
Qed.

Lemma typed_rows_sum_for (fp tp : string) :
  Frame.sum_for Frame.pair_compare (fp, tp) (Frame.typed_rows df)
  = Frame.type_sum df fp tp.
Proof.
  unfold Frame.sum_for, Frame.type_sum, Frame.typed_rows.
  induction df as [|r l IH]; [reflexivity|]. cbn [flat_map filter].
  destruct (Frame.tool_type r) as [t|].
  - cbn [app filter fst]. rewrite same_key_pair.
    destruct (String.eqb (Frame.file_path r) fp && String.eqb t tp)%bool;
      cbn [map Frame.sum fold_right snd]; fold Frame.sum;
      unfold Frame.sum in *; now rewrite ?IH.
  - cbn [app]. now rewrite andb_false_r.
Qed.

Lemma typed_rows_has_key (fp tp : string) :
  Frame.has_key Frame.pair_compare (fp, tp) (Frame.typed_rows df) = true
  <-> exists r,
        In r df /\ Frame.file_path r = fp /\ Frame.tool_type r = Some tp.
Proof.
  unfold Frame.has_key, Frame.typed_rows. rewrite existsb_exists. split.
  - intros ([[a t] n] & Hin & Hk). apply in_flat_map in Hin as (r & Hr & Hin).
    cbn [fst] in Hk. rewrite same_key_pair in Hk.
    apply andb_true_iff in Hk as [H1 H2]. apply String.eqb_eq in H1, H2.
    destruct (Frame.tool_type r) as [t'|] eqn:T; [|destruct Hin].
    destruct Hin as [[= <- <- <-]|[]]. exists r. subst. auto.
  - intros (r & Hr & Hfp & Hty).
    exists ((fp, tp), Frame.num_token_from_toolcall r). split.
    + apply in_flat_map. exists r. split; [exact Hr|].
      rewrite Hty, Hfp. now left.
    + cbn [fst]. rewrite same_key_pair, !String.eqb_refl. reflexivity.
Qed.

(** The entries of the grouped series: one per (conversation, type) that
    has a row, holding the summed tool tokens of those rows. *)
Lemma tool_type_by_file_entries (fp tp : string) (v : nat) :
  In ((fp, tp), v) (Frame.tool_type_by_file df)
  <-> Frame.has_key Frame.pair_compare (fp, tp) (Frame.typed_rows df) = true
      /\ v = Frame.type_sum df fp tp.
Proof.
  unfold Frame.tool_type_by_file.
  destruct (groupby_sum_spec _ _ pair_compare_eq pair_compare_antisym
              pair_compare_trans (Frame.typed_rows df)) as [Hasc Hget].
  specialize (Hget (fp, tp)). rewrite typed_rows_sum_for in Hget. split.
  - intros Hin.
    apply (In_series_get _ _ pair_compare_eq pair_compare_antisym) in Hin;
      [|exact Hasc].
    rewrite Hin in Hget.
    destruct (Frame.has_key Frame.pair_compare (fp, tp) (Frame.typed_rows df));
      [|discriminate].
    now injection Hget as ->.
  - intros [Hk ->]. rewrite Hk in Hget.
    now apply (series_get_In _ _ pair_compare_eq) in Hget.
Qed.

Lemma level0_group_In (fp : string) (e : (string * string) * nat) :
  In e (Frame.level0_group fp (Frame.tool_type_by_file df))
  <-> In e (Frame.tool_type_by_file df) /\ fst (fst e) = fp.
Proof.
  unfold Frame.level0_group. rewrite filter_In, String.eqb_eq. reflexivity.
Qed.

Lemma level0_keys_In (fp : string) :
  In fp (Frame.level0_keys (Frame.tool_type_by_file df))
  <-> exists e, In e (Frame.tool_type_by_file df) /\ fst (fst e) = fp.
Proof.
  unfold Frame.level0_keys.
  rewrite (groupby_sum_labels _ _ string_compare_eq string_compare_antisym
             string_compare_trans).
  unfold Frame.has_key. rewrite existsb_exists. split.
  - intros (x & Hx & Hs). apply in_map_iff in Hx as (e & <- & He).
    apply (same_key_iff _ _ string_compare_eq) in Hs. now exists e.
  - intros (e & He & Hfp). exists (fst (fst e), snd e). split.
    + apply in_map_iff. now exists e.
    + now apply (same_key_iff _ _ string_compare_eq).
Qed.

Lemma dominant_tool_type_In (fp : string) (label : string * string) :
  In (fp, label) (Frame.dominant_tool_type df)
  <-> In fp (Frame.level0_keys (Frame.tool_type_by_file df))
      /\ Frame.idxmax (Frame.level0_group fp (Frame.tool_type_by_file df))
         = Some label.
Proof.
  unfold Frame.dominant_tool_type. rewrite in_flat_map. split.
  - intros (fp' & Hk & Hin).
    destruct (Frame.idxmax _) as [l|] eqn:E; [|destruct Hin].
    destruct Hin as [[= -> ->]|[]]. now split.
  - intros [Hk E]. exists fp. split; [exact Hk|]. rewrite E. now left.
Qed.

(** The types of a conversation stand in the grouped series in ascending
    order of their names. *)
Lemma types_in_order_ascending (fp : string) :
  StronglySorted (fun a b => String.compare a b = Lt)
    (Frame.types_in_order df fp).
Proof.
  unfold Frame.types_in_order.
  apply (StronglySorted_map
           (fun a b : string * string * nat =>
              Frame.pair_compare (fst a) (fst b) = Lt)).
  - intros a b Ha Hb. apply level0_group_In in Ha as [_ Ha], Hb as [_ Hb].
    unfold Frame.pair_compare. rewrite Ha, Hb.
    now rewrite (proj2 (string_compare_eq fp fp) eq_refl).
  - apply StronglySorted_filter.
    exact (proj1 (groupby_sum_spec _ _ pair_compare_eq pair_compare_antisym
                    pair_compare_trans (Frame.typed_rows df))).
Qed.

End Dominant.

(** C8: for a conversation with at least one row that has a [tool_type],
    the frame of dominant types holds exactly one type for it; the summed
    tool tokens of that type are maximal among the types of the
    conversation; and among types with the maximal sum it is the first that
    [idxmax] meets in the grouped series: every type before it in
    [types_in_order] has a strictly smaller sum.  (That order is the
    ascending order of the type names, [types_in_order_ascending].) *)
Theorem C8_dominant_type_is_first_maximum (df : list Frame.row) (fp : string) :
  (exists r, In r df /\ Frame.file_path r = fp /\ Frame.tool_type r <> None) ->
  exists (tp : string) (before after : list string),
    In (fp, tp) (Frame.dominant_tool_type_df df)
    /\ (forall tp', In (fp, tp') (Frame.dominant_tool_type_df df) -> tp' = tp)
    /\ Frame.types_in_order df fp = (before ++ tp :: after)%list
    /\ (forall t, Frame.type_sum df fp t <= Frame.type_sum df fp tp)
    /\ (forall t, In t before ->
                  Frame.type_sum df fp t < Frame.type_sum df fp tp).
Proof.
  intros (r & Hr & Hfp & Hty). subst fp.
  destruct (Frame.tool_type r) as [t0|] eqn:T; [clear Hty|contradiction].
  assert (Hin0 : In ((Frame.file_path r, t0),
                     Frame.type_sum df (Frame.file_path r) t0)
                   (Frame.level0_group (Frame.file_path r)
                      (Frame.tool_type_by_file df))).
  { apply level0_group_In. split; [|reflexivity].
    apply tool_type_by_file_entries. split; [|reflexivity].
    apply typed_rows_has_key. now exists r. }
  destruct (Frame.idxmax
              (Frame.level0_group (Frame.file_path r)
                 (Frame.tool_type_by_file df)))
    as [[fp' tp]|] eqn:E.
  2:{ destruct (Frame.level0_group (Frame.file_path r)
                  (Frame.tool_type_by_file df));
        [destruct Hin0|discriminate]. }
  destruct (idxmax_spec _ _ E) as (b & v & a & Eg & Hb & Ha).
  assert (Hlab : In ((fp', tp), v)
                   (Frame.level0_group (Frame.file_path r)
                      (Frame.tool_type_by_file df))).
  { rewrite Eg. apply in_elt. }
  apply level0_group_In in Hlab as [Hlab Hfp']. cbn [fst] in Hfp'. subst fp'.
  apply tool_type_by_file_entries in Hlab as [_ Hv].
  exists tp, (map (fun e => snd (fst e)) b), (map (fun e => snd (fst e)) a).
  split; [|split; [|split; [|split]]].
  - unfold Frame.dominant_tool_type_df. apply in_map_iff.
    exists (Frame.file_path r, (Frame.file_path r, tp)).
    split; [reflexivity|].
    apply dominant_tool_type_In. split; [|exact E].
    apply level0_keys_In. exists ((Frame.file_path r, t0),
                                  Frame.type_sum df (Frame.file_path r) t0).
    split; [|reflexivity]. now apply level0_group_In in Hin0.
  - intros tp' H. unfold Frame.dominant_tool_type_df in H.
    apply in_map_iff in H as ([fp0 [a1 b1]] & Heq & Hin).
    cbn [fst snd] in Heq. injection Heq as -> ->.
    apply dominant_tool_type_In in Hin as [_ E'].
    destruct (idxmax_spec _ _ E') as (b' & v' & a' & Eg' & _).
    assert (H0 : In ((Frame.file_path r, tp'), v')
                   (Frame.level0_group fp0 (Frame.tool_type_by_file df))).
    { rewrite Eg'. apply in_elt. }
    apply level0_group_In in H0 as [_ H0]. cbn [fst] in H0. subst fp0.
    rewrite E in E'. now injection E' as ->.
  - unfold Frame.types_in_order. rewrite Eg, map_app. reflexivity.
  - intros t.
    destruct (Frame.has_key Frame.pair_compare (Frame.file_path r, t)
                (Frame.typed_rows df)) eqn:Hk.
    + assert (Ht : In ((Frame.file_path r, t),
                       Frame.type_sum df (Frame.file_path r) t)
                     (Frame.level0_group (Frame.file_path r)
                        (Frame.tool_type_by_file df))).
      { apply level0_group_In. split; [|reflexivity].
        now apply tool_type_by_file_entries. }
      rewrite Eg in Ht. rewrite Forall_forall in Hb, Ha.
      apply in_app_or in Ht as [Ht|[Ht|Ht]].
      * apply Hb in Ht. cbn [snd] in Ht. lia.
      * injection Ht as _ Ht. lia.
      * apply Ha in Ht. cbn [snd] in Ht. lia.
    + rewrite <- (typed_rows_sum_for df (Frame.file_path r) t).
      rewrite has_key_false_sum_for by exact Hk. lia.
  - intros t Ht. apply in_map_iff in Ht as ([[f t'] ve] & Heq & He).
    cbn [fst snd] in Heq. subst t'.
    assert (Hg : In ((f, t), ve)
                   (Frame.level0_group (Frame.file_path r)
                      (Frame.tool_type_by_file df))).
    { rewrite Eg. apply in_or_app. now left. }
    apply level0_group_In in Hg as [Hg Hf]. cbn [fst] in Hf. subst f.
    apply tool_type_by_file_entries in Hg as [_ ->].
    rewrite Forall_forall in Hb. apply Hb in He. cbn [snd] in He. lia.
Qed.

(** Two types with equal sums: the type that [idxmax] meets first is the
    smaller name, not the type of the earlier row. *)
Example dominant_type_on_a_tie :
  Frame.dominant_tool_type_df
    [Frame.mkRow "b.json" NotStr "assistant" 9 5 (Some "zz");
     Frame.mkRow "b.json" NotStr "assistant" 9 5 (Some "aa")]
  = [("b.json", "aa")].
Proof. reflexivity. Qed.

(** The theorem on a conversation with two types of equal sums. *)
Lemma C8_dominant_type_witness :
  let df :=
    Frame.add_token_columns char_tokens
      [("b.json", PyStr "<tool_result><zz>abc</tool_result>", "assistant");
       ("b.json", PyStr "<tool_result><aa>abc</tool_result>", "assistant");
       ("b.json", PyStr "thanks", "user")] in
  (exists r,
      In r df /\ Frame.file_path r = "b.json" /\ Frame.tool_type r <> None)
  /\ exists (tp : string) (before after : list string),
      In ("b.json", tp) (Frame.dominant_tool_type_df df)
      /\ (forall tp',
             In ("b.json", tp') (Frame.dominant_tool_type_df df) -> tp' = tp)
      /\ Frame.types_in_order df "b.json" = (before ++ tp :: after)%list
      /\ (forall t, Frame.type_sum df "b.json" t
                    <= Frame.type_sum df "b.json" tp)
      /\ (forall t, In t before ->
                    Frame.type_sum df "b.json" t
                    < Frame.type_sum df "b.json" tp).
Proof.
  cbv zeta.
  assert (H : exists r,
             In r (Frame.add_token_columns char_tokens
                     [("b.json", PyStr "<tool_result><zz>abc</tool_result>",
                       "assistant");
                      ("b.json", PyStr "<tool_result><aa>abc</tool_result>",
                       "assistant");
                      ("b.json", PyStr "thanks", "user")])
             /\ Frame.file_path r = "b.json" /\ Frame.tool_type r <> None).
  { eexists. split; [left; reflexivity|]. split; [reflexivity|discriminate]. }
  split; [exact H|].
  exact (C8_dominant_type_is_first_maximum _ _ H).
Defined.

(** ** The tool-token percentages *)

(** The corpus-wide percentage: [100 * tool / total], and 0 when the corpus
    has no tokens. *)
Lemma pct_tool_spec (df : list Frame.row) :
  let total := Frame.sum (map Frame.num_token df) in
  let tool := Frame.sum (map Frame.num_token_from_toolcall df) in
  (0 < total ->
   (Frame.pct_tool df == 100 * Frame.Qnat tool / Frame.Qnat total)%Q)
  /\ (total = 0 -> Frame.pct_tool df = 0%Q).
Proof.
  cbv zeta. unfold Frame.pct_tool. split.
  - intros H. destruct (Nat.ltb_spec 0 (Frame.sum (map Frame.num_token df)));
      [|lia].
    field. unfold Frame.Qnat. intros E.
    apply (Qeq_bool_neq (inject_Z (Z.of_nat (Frame.sum (map Frame.num_token df)))) 0);
      [|exact E].
    unfold Qeq_bool, inject_Z. cbn.
    destruct (Z.of_nat (Frame.sum (map Frame.num_token df))) eqn:Z;
      [lia|reflexivity|lia].
  - now intros ->.
Qed.

Lemma file_column_sum_for (column : Frame.row -> nat) (df : list Frame.row)
    (fp : string) :
  Frame.sum_for String.compare fp
    (map (fun r => (Frame.file_path r, column r)) df)
  = Frame.file_sum column df fp.
Proof.
  unfold Frame.sum_for, Frame.file_sum.
  induction df as [|r l IH]; [reflexivity|]. cbn [map filter fst].
  replace (Frame.same_key String.compare fp (Frame.file_path r))
    with (String.eqb (Frame.file_path r) fp).
  - destruct (String.eqb (Frame.file_path r) fp);
      cbn [map Frame.sum fold_right snd]; fold Frame.sum;
      unfold Frame.sum in *; now rewrite ?IH.
  - apply eq_true_iff_eq.
    now rewrite (same_key_iff _ _ string_compare_eq), String.eqb_eq.
Qed.

Lemma file_column_has_key (column : Frame.row -> nat) (df : list Frame.row)
    (fp : string) :
  Frame.has_key String.compare fp
    (map (fun r => (Frame.file_path r, column r)) df) = true
  <-> exists r, In r df /\ Frame.file_path r = fp.
Proof.
  unfold Frame.has_key. rewrite existsb_exists. split.
  - intros (x & Hx & Hs). apply in_map_iff in Hx as (r & <- & Hr).
    apply (same_key_iff _ _ string_compare_eq) in Hs. now exists r.
  - intros (r & Hr & Hfp). exists (Frame.file_path r, column r). split.
    + apply in_map_iff. now exists r.
    + now apply (same_key_iff _ _ string_compare_eq).
Qed.

(** [file_tool_pct] has one entry per conversation: its labels ascend (so
    they are distinct) and are the [file_path] values of the frame. *)
Lemma file_tool_pct_conversations (df : list Frame.row) :
  Frame.ascending String.compare (Frame.file_tool_pct df)
  /\ forall fp,
      In fp (map fst (Frame.file_tool_pct df))
      <-> exists r, In r df /\ Frame.file_path r = fp.
Proof.
  unfold Frame.file_tool_pct. split.
  - apply (StronglySorted_map
             (fun a b : string * nat => String.compare (fst a) (fst b) = Lt));
      [now intros a b _ _|].
    exact (proj1 (groupby_sum_spec _ _ string_compare_eq
                    string_compare_antisym string_compare_trans _)).
  - intros fp. rewrite map_map. cbn [fst].
    rewrite (groupby_sum_labels _ _ string_compare_eq string_compare_antisym
               string_compare_trans).
    apply file_column_has_key.
Qed.

Lemma series_get_map_values {V : Type} (G : string -> nat -> V)
    (g : list (string * nat)) (k : string) :
  Frame.series_get String.compare k
    (map (fun kv => (fst kv, G (fst kv) (snd kv))) g)
  = option_map (G k) (Frame.series_get String.compare k g).
Proof.
  induction g as [|[k' v] g IH]; [reflexivity|].
  cbn [map Frame.series_get fst snd].
  destruct (String.compare k k') eqn:C; [|exact IH..].
  apply string_compare_eq in C. now subst.
Qed.

(** The percentage of a conversation: [sum(tool) / sum(total) * 100] as
    pandas divides, that is [NaN] when the conversation has no tokens (and
    [inf] when only the denominator is 0). *)
Lemma file_tool_pct_spec (df : list Frame.row) (fp : string) :
  (exists r, In r df /\ Frame.file_path r = fp) ->
  Frame.series_get String.compare fp (Frame.file_tool_pct df)
  = Some (Frame.times100
            (Frame.truediv
               (Frame.file_sum Frame.num_token_from_toolcall df fp)
               (Frame.file_sum Frame.num_token df fp))).
Proof.
  intros H. unfold Frame.file_tool_pct.
  rewrite (series_get_map_values
             (fun k a =>
                match Frame.series_get String.compare k
                        (Frame.groupby_sum String.compare
                           (map (fun r => (Frame.file_path r, Frame.num_token r))
                              df)) with
                | Some d => Frame.times100 (Frame.truediv a d)
                | None => NaN
                end)).
  rewrite !(proj2 (groupby_sum_spec _ _ string_compare_eq
                     string_compare_antisym string_compare_trans _)).
  rewrite !(proj2 (file_column_has_key _ _ _) H).
  now rewrite !file_column_sum_for.
Qed.

(** C3 (the code departs from the claim): for a conversation whose rows add
    up to 0 tokens (a prompt cell that [read_csv] delivers as [nan] counts
    0 tokens) [tool_call_token_pct] is [NaN], not 0, while the corpus-wide
    percentage of the same frame is 0. *)
Theorem C3_zero_denominator_conversation_is_nan (encode : string -> list nat) :
  let df := Frame.add_token_columns encode [("a.json", NotStr, "user")] in
  Frame.file_sum Frame.num_token df "a.json" = 0
  /\ Frame.file_tool_pct df = [("a.json", NaN)]
  /\ Frame.pct_tool df = 0%Q.
Proof. cbv zeta. repeat split. Qed.

(** * Further properties of the two scripts *)

(** ** Substrings *)

Lemma string_app_assoc (a b c : string) : (a ++ b) ++ c = a ++ b ++ c.
Proof. induction a as [|x a IH]; cbn; congruence. Qed.

Lemma prefix_app (p b : string) : String.prefix p (p ++ b) = true.
Proof.
  induction p as [|c p IH]; [now destruct b|].
  cbn. now destruct (ascii_dec c c).
Qed.

Lemma prefix_app_r (p a b : string) :
  String.prefix p a = true -> String.prefix p (a ++ b) = true.
Proof.
  intros H. apply prefix_split in H. rewrite H, string_app_assoc.
  apply prefix_app.
Qed.

(** [p in s] holds exactly when [s] is some text, [p], some text. *)
Lemma contains_iff (p s : string) :
  Py.contains p s = true <-> exists a b, s = a ++ p ++ b.
Proof.
  split.
  - induction s as [|c s IH]; cbn [Py.contains]; intros H;
      apply orb_true_iff in H as [H|H]; try discriminate.
    + apply prefix_split in H. now exists EmptyString, (Py.drop (String.length p) "").
    + apply prefix_split in H.
      now exists EmptyString, (Py.drop (String.length p) (String c s)).
    + destruct (IH H) as (a & b & ->). now exists (String c a), b.
  - intros (a & b & ->). induction a as [|c a IH].
    + cbn [append]. pose proof (prefix_app p b) as H.
      destruct (p ++ b); cbn [Py.contains]; now rewrite H.
    + cbn [append Py.contains]. rewrite IH. apply orb_true_r.
Qed.

Lemma contains_trans (p q s : string) :
  Py.contains p q = true -> Py.contains q s = true -> Py.contains p s = true.
Proof.
  rewrite !contains_iff. intros (a & b & ->) (c & d & ->).
  exists (c ++ a), (b ++ d). now rewrite !string_app_assoc.
Qed.

Lemma strip_contained (s : string) : Py.contains (Py.strip s) s = true.
Proof.
  apply contains_iff. destruct (strip_split s) as (a & b & E). now exists a, b.
Qed.

(** The lazy group stops at the first place where the literal matches, so
    the literal does not occur inside it. *)
Lemma lazy_until_shortest (e s inner rest : string) :
  e <> EmptyString ->
  Re.lazy_until e s = Some (inner, rest) -> Py.contains e inner = false.
Proof.
  intros He. revert inner rest; induction s as [|c s IH]; intros inner rest;
    cbn [Re.lazy_until].
  - destruct (String.prefix e EmptyString) eqn:P; [|discriminate].
    destruct e; [contradiction|discriminate].
  - destruct (String.prefix e (String c s)) eqn:P.
    + intros [= <- <-]. cbn. destruct e; [contradiction|reflexivity].
    + destruct (Re.lazy_until e s) as [[i r]|] eqn:L; [|discriminate].
      intros [= <- <-]. cbn [Py.contains].
      rewrite (IH _ _ eq_refl), orb_false_r.
      destruct (String.prefix e (String c i)) eqn:Q; [|reflexivity].
      apply lazy_until_split in L.
      apply (prefix_app_r _ _ (e ++ r)) in Q. cbn [append] in Q.
      rewrite <- L in Q. congruence.
Qed.

(** Where a span was found and how the scan goes on. *)
Lemma findall_from_In (n : nat) (s m : string) :
  In m (Re.findall_from n s) ->
  Py.contains Re.END m = false
  /\ Py.contains (Re.BEGIN ++ m ++ Re.END) s = true.
Proof.
  revert s; induction n as [|n IH]; intros s; [intros []|].
  cbn [Re.findall_from].
  destruct (Re.tool_result_here s) as [[inner rest]|] eqn:E.
  - intros [<-|Hin].
    + split.
      * unfold Re.tool_result_here in E.
        destruct (String.prefix Re.BEGIN s); [|discriminate].
        now apply lazy_until_shortest in E.
      * apply tool_result_here_split in E. apply contains_iff.
        exists EmptyString, rest. rewrite E. cbn [append].
        now rewrite !string_app_assoc.
    + destruct (IH _ Hin) as [H1 H2]. split; [exact H1|].
      apply tool_result_here_split in E.
      apply contains_iff in H2 as (a & b & ->). apply contains_iff.
      exists (Re.BEGIN ++ inner ++ Re.END ++ a), b.
      rewrite E. now rewrite !string_app_assoc.
  - destruct s as [|c s]; [intros []|]. intros Hin.
    destruct (IH _ Hin) as [H1 H2]. split; [exact H1|].
    apply contains_iff in H2 as (a & b & ->). apply contains_iff.
    now exists (String c a), b.
Qed.

(** ** The spans of [TOOL_RESULT_PATTERN] and the tag of [INNER_TAG_PATTERN] *)

(** X1: every captured group of [TOOL_RESULT_PATTERN.findall] stands in the
    text between a begin marker and an end marker, and holds no end marker
    itself (the group ends at the nearest one). *)
Theorem X1_findall_group_between_markers (text m : string) :
  In m (Re.TOOL_RESULT_findall text) ->
  Py.contains Re.END m = false
  /\ Py.contains (Re.BEGIN ++ m ++ Re.END) text = true.
Proof. apply findall_from_In. Qed.

(** X1 on a text with a repeated begin marker. *)
Lemma X1_findall_group_witness :
  In "<tool_result>c" (Re.TOOL_RESULT_findall "a<tool_result><tool_result>c</tool_result>d</tool_result>")
  /\ Py.contains Re.END "<tool_result>c" = false
  /\ Py.contains (Re.BEGIN ++ "<tool_result>c" ++ Re.END)
       "a<tool_result><tool_result>c</tool_result>d</tool_result>" = true.
Proof.
  split; [left; reflexivity|].
  apply (X1_findall_group_between_markers
           "a<tool_result><tool_result>c</tool_result>d</tool_result>"
           "<tool_result>c").
  left; reflexivity.
Defined.

Lemma span_tag_split (s name rest : string) :
  Re.span_tag s = (name, rest) ->
  s = name ++ rest
  /\ forallb Re.is_tag_char (list_ascii_of_string name) = true.
Proof.
  revert name rest; induction s as [|c s IH]; intros name rest;
    cbn [Re.span_tag].
  - intros [= <- <-]. now split.
  - destruct (Re.is_tag_char c) eqn:C.
    + destruct (Re.span_tag s) as [n r]. intros [= <- <-].
      destruct (IH _ _ eq_refl) as [-> H]. split; [reflexivity|].
      cbn. now rewrite C.
    + intros [= <- <-]. now split.
Qed.

Lemma inner_tag_here_split (s tag : string) :
  Re.inner_tag_here s = Some tag ->
  tag <> EmptyString
  /\ forallb Re.is_tag_char (list_ascii_of_string tag) = true
  /\ exists b, s = "<" ++ tag ++ ">" ++ b.
Proof.
  destruct s as [|c s]; [discriminate|].
  destruct c as [[] [] [] [] [] [] [] []]; try discriminate.
  cbn [Re.inner_tag_here].
  destruct (Re.span_tag s) as [name rest] eqn:E.
  apply span_tag_split in E as [-> H].
  destruct name as [|x name]; [discriminate|].
  destruct rest as [|d rest]; [discriminate|].
  destruct d as [[] [] [] [] [] [] [] []]; try discriminate.
  intros [= <-]. split; [discriminate|]. split; [exact H|].
  exists rest. reflexivity.
Qed.

Lemma INNER_TAG_search_split (s tag : string) :
  Re.INNER_TAG_search s = Some tag ->
  tag <> EmptyString
  /\ forallb Re.is_tag_char (list_ascii_of_string tag) = true
  /\ Py.contains ("<" ++ tag ++ ">") s = true.
Proof.
  induction s as [|c s IH]; cbn [Re.INNER_TAG_search].
  - destruct (Re.inner_tag_here EmptyString) eqn:E; [|discriminate].
    discriminate E.
  - destruct (Re.inner_tag_here (String c s)) as [t|] eqn:E.
    + intros [= ->]. apply inner_tag_here_split in E as (H1 & H2 & b & E).
      split; [exact H1|]. split; [exact H2|].
      apply contains_iff. exists EmptyString, b. rewrite E. cbn [append].
      now rewrite !string_app_assoc.
    + intros H. destruct (IH H) as (H1 & H2 & H3).
      split; [exact H1|]. split; [exact H2|].
      cbn [Py.contains]. rewrite H3. apply orb_true_r.
Qed.

(** X2: a [tool_type] that [analyze_tool_calls] returns is a non-empty name
    of letters, digits, hyphens and underscores, and the prompt holds it
    between angle brackets. *)
Theorem X2_tool_type_is_a_tag_of_the_prompt
    (encode : string -> list nat) (text tag : string) :
  snd (Analyze.analyze_tool_calls encode (PyStr text)) = Some tag ->
  tag <> EmptyString
  /\ forallb Re.is_tag_char (list_ascii_of_string tag) = true
  /\ Py.contains ("<" ++ tag ++ ">") text = true.
Proof.
  cbn [Analyze.analyze_tool_calls]. unfold Analyze.analyze_matches.
  rewrite loop_from. cbn [snd].
  destruct (find Analyze.counted (Re.TOOL_RESULT_findall text)) as [m|] eqn:F;
    [|discriminate].
  apply find_some in F as [Hin _]. intros H.
  apply INNER_TAG_search_split in H as (H1 & H2 & H3).
  split; [exact H1|]. split; [exact H2|].
  apply (contains_trans _ _ _ H3).
  apply (contains_trans _ _ _ (strip_contained m)).
  apply findall_from_In in Hin as [_ Hin].
  refine (contains_trans _ _ _ _ Hin).
  apply contains_iff. now exists Re.BEGIN, Re.END.
Qed.

(** X2 on the end-to-end example of the specification. *)
Lemma X2_tool_type_witness :
  snd (Analyze.analyze_tool_calls char_tokens
         (PyStr "<tool_result><read_file>data</read_file></tool_result>done"))
  = Some "read_file"
  /\ "read_file" <> EmptyString
  /\ forallb Re.is_tag_char (list_ascii_of_string "read_file") = true
  /\ Py.contains ("<" ++ "read_file" ++ ">")
       "<tool_result><read_file>data</read_file></tool_result>done" = true.
Proof.
  split; [reflexivity|].
  apply (X2_tool_type_is_a_tag_of_the_prompt char_tokens). reflexivity.
Defined.

(** ** Trimmed strings *)

Lemma lstrip_length (s : string) :
  String.length (Py.lstrip s) <= String.length s.
Proof.
  induction s as [|c s IH]; cbn [Py.lstrip]; [lia|].
  destruct (Py.isspace c); cbn [String.length]; lia.
Qed.

Lemma lstrip_fixed_head (c : ascii) (s : string) :
  Py.lstrip (String c s) = String c s -> Py.isspace c = false.
Proof.
  cbn [Py.lstrip]. destruct (Py.isspace c); [|reflexivity].
  intros H. pose proof (lstrip_length s) as L. rewrite H in L.
  cbn [String.length] in L. lia.
Qed.

Lemma lstrip_idem (s : string) : Py.lstrip (Py.lstrip s) = Py.lstrip s.
Proof.
  induction s as [|c s IH]; [reflexivity|]. cbn [Py.lstrip].
  destruct (Py.isspace c) eqn:C; [exact IH|]. cbn [Py.lstrip]. now rewrite C.
Qed.

Lemma rstrip_cons (c : ascii) (s : string) :
  Py.rstrip (String c s) =
  match Py.rstrip s with
  | EmptyString => if Py.isspace c then EmptyString else String c EmptyString
  | r => String c r
  end.
Proof. reflexivity. Qed.

Lemma rstrip_idem (s : string) : Py.rstrip (Py.rstrip s) = Py.rstrip s.
Proof.
  induction s as [|c s IH]; [reflexivity|]. rewrite rstrip_cons.
  destruct (Py.rstrip s) as [|d r] eqn:R.
  - destruct (Py.isspace c) eqn:C; [reflexivity|].
    rewrite rstrip_cons. cbn [Py.rstrip]. now rewrite C.
  - rewrite rstrip_cons, IH. reflexivity.
Qed.

Lemma lstrip_rstrip (s : string) :
  Py.lstrip s = s -> Py.lstrip (Py.rstrip s) = Py.rstrip s.
Proof.
  destruct s as [|c s]; [reflexivity|]. intros H.
  apply lstrip_fixed_head in H. rewrite rstrip_cons.
  destruct (Py.rstrip s); rewrite ?H; cbn [Py.lstrip]; now rewrite H.
Qed.

(** What [strip] returns has no white space at either end. *)
Lemma strip_ends (s : string) :
  Py.lstrip (Py.strip s) = Py.strip s /\ Py.rstrip (Py.strip s) = Py.strip s.
Proof.
  unfold Py.strip. split; [|apply rstrip_idem].
  apply lstrip_rstrip, lstrip_idem.
Qed.

Lemma strip_fixed (s : string) :
  Py.lstrip s = s -> Py.rstrip s = s -> Py.strip s = s.
Proof. unfold Py.strip. now intros -> ->. Qed.

Lemma strip_idem (s : string) : Py.strip (Py.strip s) = Py.strip s.
Proof. destruct (strip_ends s). now apply strip_fixed. Qed.

Lemma lstrip_app (a b : string) :
  Py.lstrip a = a -> a <> EmptyString -> Py.lstrip (a ++ b) = a ++ b.
Proof.
  destruct a as [|c a]; [contradiction|]. intros H _.
  apply lstrip_fixed_head in H. cbn [append Py.lstrip]. now rewrite H.
Qed.

Lemma app_not_empty (a r : string) :
  r <> EmptyString -> a ++ r <> EmptyString.
Proof. destruct a; cbn; [auto|discriminate]. Qed.

Lemma rstrip_app (a b : string) :
  Py.rstrip b <> EmptyString -> Py.rstrip (a ++ b) = a ++ Py.rstrip b.
Proof.
  intros H. induction a as [|c a IH]; [reflexivity|].
  cbn [append]. rewrite rstrip_cons, IH.
  pose proof (app_not_empty a _ H) as N.
  now destruct (a ++ Py.rstrip b).
Qed.

(** The parts [normalize_content] joins, put together, need no trimming. *)
Lemma join_trimmed (parts : list string) :
  parts <> [] ->
  Forall (fun p => p <> EmptyString /\ Py.lstrip p = p /\ Py.rstrip p = p)
         parts ->
  let joined := Py.join ExtractPrompts.NEWLINE parts in
  joined <> EmptyString /\ Py.lstrip joined = joined /\ Py.rstrip joined = joined.
Proof.
  cbv zeta. unfold Py.join.
  induction parts as [|x [|y l] IH]; [contradiction| |]; intros _ Hall.
  - cbn. now inversion Hall.
  - inversion Hall as [|? ? (Hx & Hl & Hr) Hrest]; subst.
    destruct (IH ltac:(discriminate) Hrest) as (Jn & Jl & Jr).
    change (String.concat ExtractPrompts.NEWLINE (x :: y :: l))
      with (x ++ ExtractPrompts.NEWLINE
              ++ String.concat ExtractPrompts.NEWLINE (y :: l)).
    split; [|split].
    + destruct x; [contradiction|discriminate].
    + now apply lstrip_app.
    + rewrite rstrip_app.
      * rewrite rstrip_app; [now rewrite Jr|now rewrite Jr].
      * rewrite rstrip_app; [|now rewrite Jr]. rewrite Jr.
        now apply app_not_empty.
Qed.

Lemma item_parts_trimmed (item : json) :
  Forall (fun p => p <> EmptyString /\ Py.lstrip p = p /\ Py.rstrip p = p)
         (ExtractPrompts.item_parts item).
Proof.
  assert (T : forall s, Py.truthy (Py.strip s) = true ->
                        Py.strip s <> EmptyString
                        /\ Py.lstrip (Py.strip s) = Py.strip s
                        /\ Py.rstrip (Py.strip s) = Py.strip s).
  { intros s H. split; [|apply strip_ends].
    intros E. rewrite E in H. discriminate. }
  unfold ExtractPrompts.item_parts.
  repeat match goal with
         | |- Forall _ [] => constructor
         | |- Forall _ [_] => constructor; [now apply T|constructor]
         | |- context [match ?x with _ => _ end] => destruct x eqn:?
         end.
Qed.

Lemma flat_map_item_parts_trimmed (items : list json) :
  Forall (fun p => p <> EmptyString /\ Py.lstrip p = p /\ Py.rstrip p = p)
         (flat_map ExtractPrompts.item_parts items).
Proof.
  induction items as [|i l IH]; cbn [flat_map]; [constructor|].
  apply Forall_app. split; [apply item_parts_trimmed|exact IH].
Qed.

(** What [normalize_content] returns is trimmed; the empty string is
    returned for string content only. *)
Lemma normalize_content_trimmed (content : json) (text : string) :
  ExtractPrompts.normalize_content content = Some text ->
  Py.strip text = text
  /\ (text = EmptyString -> exists s, content = JStr s).
Proof.
  destruct content as [| | |s|items|]; try discriminate;
    cbn [ExtractPrompts.normalize_content].
  - intros [= <-]. split; [apply strip_idem|]. now exists s.
  - destruct (flat_map ExtractPrompts.item_parts items) as [|p l] eqn:E;
      [discriminate|].
    intros H.
    assert (Ht : text = Py.strip (Py.join ExtractPrompts.NEWLINE (p :: l)))
      by (injection H; auto).
    clear H. subst text.
    destruct (join_trimmed (p :: l) ltac:(discriminate)) as (Jn & Jl & Jr).
    { rewrite <- E. apply flat_map_item_parts_trimmed. }
    rewrite (strip_fixed _ Jl Jr). split; [now apply strip_fixed|].
    intros E'. now rewrite E' in Jn.
Qed.

(** ** [normalize_content] and the rows of a file *)

(** X3: on list content [normalize_content] returns [None] when no item
    contributes text and otherwise exactly the contributed parts joined by
    newlines: the final [strip] changes nothing, and the result is never
    the empty string. *)
Theorem X3_normalize_list_is_joined_parts (items : list json) :
  ExtractPrompts.normalize_content (JArr items)
  = match flat_map ExtractPrompts.item_parts items with
    | [] => None
    | parts => Some (Py.join ExtractPrompts.NEWLINE parts)
    end
  /\ ExtractPrompts.normalize_content (JArr items) <> Some EmptyString.
Proof.
  cbn [ExtractPrompts.normalize_content].
  destruct (flat_map ExtractPrompts.item_parts items) as [|p l] eqn:E;
    [split; [reflexivity|discriminate]|].
  destruct (join_trimmed (p :: l) ltac:(discriminate)) as (Jn & Jl & Jr).
  { rewrite <- E. apply flat_map_item_parts_trimmed. }
  rewrite (strip_fixed _ Jl Jr). split; [reflexivity|].
  intros H. apply Jn. now injection H.
Qed.

(** When a message gives a row, and which. *)
Lemma message_rows_In (file_path : string) (msg : json)
    (row : ExtractPrompts.prompt_row) :
  In row (ExtractPrompts.message_rows file_path msg)
  <-> exists members r text,
        msg = JObj members
        /\ ExtractPrompts.obj_get "role" members = Some (JStr r)
        /\ (r = "user" \/ r = "assistant")
        /\ ExtractPrompts.normalize_content
             match ExtractPrompts.obj_get "content" members with
             | Some c => c
             | None => JStr EmptyString
             end = Some text
        /\ text <> EmptyString
        /\ row = (file_path, text, r).
Proof.
  split.
  - unfold ExtractPrompts.message_rows, ExtractPrompts.message_try,
      ExtractPrompts.get, ExtractPrompts.bind.
    destruct msg as [| | | | |members]; try (intros []).
    destruct (ExtractPrompts.obj_get "role" members) as [[| | |r| |]|] eqn:R;
      try (intros []).
    destruct (String.eqb r "user" || String.eqb r "assistant")%bool eqn:U;
      [|intros []].
    destruct (ExtractPrompts.normalize_content _) as [text|] eqn:N;
      [|intros []].
    destruct (Py.truthy text) eqn:T; [|intros []].
    intros [<-|[]]. exists members, r, text.
    repeat split; auto.
    + apply orb_true_iff in U as [U|U]; apply String.eqb_eq in U; auto.
    + intros ->. discriminate.
  - intros (members & r & text & -> & R & U & N & T & ->).
    unfold ExtractPrompts.message_rows, ExtractPrompts.message_try,
      ExtractPrompts.get, ExtractPrompts.bind.
    rewrite R.
    assert (E : (String.eqb r "user" || String.eqb r "assistant")%bool = true)
      by (destruct U as [-> | ->]; reflexivity).
    rewrite E, N. destruct text; [contradiction|]. now left.
Qed.

(** X4: a message gives a row exactly when it is an object whose [role] is
    the string [user] or [assistant] and whose content (the empty string
    when the key is missing) normalises to a non-empty text; the row is
    then (file path, text, role). *)
Theorem X4_message_row_condition (file_path : string) (msg : json)
    (row : ExtractPrompts.prompt_row) :
  In row (ExtractPrompts.message_rows file_path msg)
  <-> exists members r text,
        msg = JObj members
        /\ ExtractPrompts.obj_get "role" members = Some (JStr r)
        /\ (r = "user" \/ r = "assistant")
        /\ ExtractPrompts.normalize_content
             match ExtractPrompts.obj_get "content" members with
             | Some c => c
             | None => JStr EmptyString
             end = Some text
        /\ text <> EmptyString
        /\ row = (file_path, text, r).
Proof. apply message_rows_In. Qed.

Lemma extract_rows_of_messages (file_path : string) (loaded : option json)
    (rows : list ExtractPrompts.prompt_row) :
  ExtractPrompts.extract_prompts_from_file file_path loaded = Ok rows ->
  exists msgs, rows = flat_map (ExtractPrompts.message_rows file_path) msgs.
Proof.
  destruct loaded as [data|]; cbn [ExtractPrompts.extract_prompts_from_file].
  - unfold ExtractPrompts.bind.
    destruct (ExtractPrompts.get data "request" (JObj [])) as [req|];
      [|discriminate].
    destruct (ExtractPrompts.get req "messages" (JArr [])) as [ms|];
      [|discriminate].
    destruct (ExtractPrompts.iterate ms) as [msgs|]; [|discriminate].
    intros [= <-]. now exists msgs.
  - intros [= <-]. now exists [].
Qed.

(** X5: every row a file yields carries the path of the file, the role
    [user] or [assistant], and a text that is non-empty and has no white
    space at either end. *)
Theorem X5_rows_are_trimmed_user_or_assistant
    (file_path : string) (loaded : option json)
    (rows : list ExtractPrompts.prompt_row) (row : ExtractPrompts.prompt_row) :
  ExtractPrompts.extract_prompts_from_file file_path loaded = Ok rows ->
  In row rows ->
  exists text r,
    row = (file_path, text, r)
    /\ (r = "user" \/ r = "assistant")
    /\ text <> EmptyString
    /\ Py.strip text = text.
Proof.
  intros H Hin. apply extract_rows_of_messages in H as (msgs & ->).
  apply in_flat_map in Hin as (msg & _ & Hin).
  apply message_rows_In in Hin
    as (members & r & text & _ & _ & U & N & T & ->).
  exists text, r. repeat split; auto.
  now apply normalize_content_trimmed in N.
Qed.

(** X5 on a record with a system message, padded text and list content. *)
Lemma X5_rows_witness :
  let data :=
    JObj [("request",
           JObj [("messages",
                  JArr [JObj [("role", JStr "system"); ("content", JStr "be brief")];
                        JObj [("role", JStr "user"); ("content", JStr "  fix bug ")];
                        JObj [("role", JStr "assistant");
                              ("content",
                               JArr [JObj [("type", JStr "text");
                                           ("text", JStr " done ")];
                                     JObj [("type", JStr "image")]])]])])] in
  ExtractPrompts.extract_prompts_from_file "t.json" (Some data)
  = Ok [("t.json", "fix bug", "user"); ("t.json", "done", "assistant")]
  /\ In ("t.json", "done", "assistant")
        [("t.json", "fix bug", "user"); ("t.json", "done", "assistant")]
  /\ exists text r,
      ("t.json", "done", "assistant") = ("t.json", text, r)
      /\ (r = "user" \/ r = "assistant")
      /\ text <> EmptyString
      /\ Py.strip text = text.
Proof.
  cbv zeta.
  match goal with
  | |- ExtractPrompts.extract_prompts_from_file ?fp ?l = Ok ?rows /\ _ =>
      split; [reflexivity|]; split; [right; left; reflexivity|];
      apply (X5_rows_are_trimmed_user_or_assistant fp l rows);
      [reflexivity|right; left; reflexivity]
  end.
Defined.

(** ** Which files end the run *)

(** X6: [extract_prompts_from_file] returns on a decoded document exactly
    when the document is an object, its [request] (when present) is an
    object, and the [messages] of that request (when present) is iterable;
    otherwise it raises.  Missing keys never raise. *)
Theorem X6_extract_returns_iff_shape (file_path : string) (data : json) :
  (exists rows,
      ExtractPrompts.extract_prompts_from_file file_path (Some data) = Ok rows)
  <-> Shape.is_dict data = true
      /\ forall req,
          Shape.member "request" data = Some req ->
          Shape.is_dict req = true
          /\ forall msgs,
              Shape.member "messages" req = Some msgs ->
              Shape.is_iterable msgs = true.
Proof.
  cbn [ExtractPrompts.extract_prompts_from_file].
  unfold ExtractPrompts.bind, ExtractPrompts.get.
  destruct data as [| | | | |members]; cbn [Shape.is_dict Shape.member];
    try (split; [intros [rows H]; discriminate H|intros [H _]; discriminate H]).
  destruct (ExtractPrompts.obj_get "request" members) as [req|] eqn:R.
  - destruct req as [| | | | |rm];
      try (split; [intros [rows H]; discriminate H
                  |intros [_ H]; destruct (H _ eq_refl) as [H' _];
                   cbn in H'; discriminate H']).
    cbn [Shape.is_dict Shape.member].
    destruct (ExtractPrompts.obj_get "messages" rm) as [ms|] eqn:M.
    + destruct ms; cbn [ExtractPrompts.iterate];
        try (split; [intros [rows H]; discriminate H
                    |intros [_ H]; destruct (H _ eq_refl) as [_ H'];
                     cbn [Shape.member] in H'; rewrite M in H';
                     specialize (H' _ eq_refl); cbn in H'; discriminate H']);
        (split; [intros _; split; [reflexivity|];
                 intros req [= <-]; split; [reflexivity|];
                 cbn [Shape.member]; rewrite M; now intros msgs [= <-]
                |intros _; eexists; reflexivity]).
    + cbn [ExtractPrompts.iterate]. split; [|intros _; eexists; reflexivity].
      intros _. split; [reflexivity|]. intros req [= <-].
      split; [reflexivity|]. cbn [Shape.member]. rewrite M. discriminate.
  - cbn [ExtractPrompts.obj_get ExtractPrompts.iterate].
    split; [|intros _; eexists; reflexivity].
    intros _. split; [reflexivity|]. discriminate.
Qed.

Lemma collect_ok (files : list (string * option json))
    (all_rows : list ExtractPrompts.prompt_row) :
  Forall (fun f => exists rs,
              ExtractPrompts.extract_prompts_from_file (fst f) (snd f) = Ok rs)
         files ->
  ExtractPrompts.collect files all_rows
  = Ok (all_rows
        ++ flat_map
             (fun f =>
                match ExtractPrompts.extract_prompts_from_file (fst f) (snd f) with
                | Ok rs => rs
                | Raise _ => []
                end)
             files)%list.
Proof.
  intros H. revert all_rows.
  induction H as [|[fp l] files [rs E] _ IH]; intros all_rows.
  - cbn. now rewrite app_nil_r.
  - cbn [ExtractPrompts.collect flat_map fst snd] in *. rewrite E.
    cbn [ExtractPrompts.bind]. rewrite IH. now rewrite app_assoc.
Qed.

Lemma collect_ok_inv (files : list (string * option json))
    (all_rows rows : list ExtractPrompts.prompt_row) :
  ExtractPrompts.collect files all_rows = Ok rows ->
  Forall (fun f => exists rs,
              ExtractPrompts.extract_prompts_from_file (fst f) (snd f) = Ok rs)
         files.
Proof.
  revert all_rows; induction files as [|[fp l] files IH]; intros all_rows;
    [constructor|].
  cbn [ExtractPrompts.collect].
  destruct (ExtractPrompts.extract_prompts_from_file fp l) as [rs|e] eqn:E;
    [|discriminate].
  cbn [ExtractPrompts.bind]. intros H. constructor; [now exists rs|].
  now apply IH in H.
Qed.

(** X7: the run hands rows to the CSV writer exactly when every file
    returned, and then they are the rows of the files, file after file in
    completion order, none dropped and none repeated. *)
Theorem X7_main_returns_all_rows (files : list (string * option json)) :
  ((exists rows, ExtractPrompts.main files = Ok rows)
   <-> Forall (fun f => exists rs,
                   ExtractPrompts.extract_prompts_from_file (fst f) (snd f)
                   = Ok rs)
              files)
  /\ forall rows,
      ExtractPrompts.main files = Ok rows ->
      rows = flat_map
               (fun f =>
                  match ExtractPrompts.extract_prompts_from_file
                          (fst f) (snd f) with
                  | Ok rs => rs
                  | Raise _ => []
                  end)
               files.
Proof.
  unfold ExtractPrompts.main. split; [split|].
  - intros [rows H]. now apply collect_ok_inv in H.
  - intros H. rewrite (collect_ok _ _ H). eexists; reflexivity.
  - intros rows H. pose proof (collect_ok_inv _ _ _ H) as F.
    rewrite (collect_ok _ _ F) in H. now injection H as <-.
Qed.

(** X8: the order in which the workers complete does not change which rows
    are collected: two orders of the same files give the same rows up to
    their order. *)
Theorem X8_completion_order_permutes_rows
    (files files' : list (string * option json))
    (rows : list ExtractPrompts.prompt_row) :
  Permutation files files' ->
  ExtractPrompts.main files = Ok rows ->
  exists rows',
    ExtractPrompts.main files' = Ok rows' /\ Permutation rows rows'.
Proof.
  unfold ExtractPrompts.main. intros P H.
  pose proof (collect_ok_inv _ _ _ H) as F.
  rewrite (collect_ok _ _ F) in H. injection H as <-.
  assert (F' : Forall (fun f => exists rs,
                           ExtractPrompts.extract_prompts_from_file
                             (fst f) (snd f) = Ok rs) files').
  { rewrite Forall_forall in *. intros f Hf. apply F.
    now apply (Permutation_in _ (Permutation_sym P)). }
  eexists. split; [apply (collect_ok _ _ F')|].
  cbn [app]. now apply Permutation_flat_map.
Qed.

(** X8 on two files completing in either order. *)
Lemma X8_completion_order_witness :
  let a := ("a.json",
            Some (JObj [("request",
                         JObj [("messages",
                                JArr [JObj [("role", JStr "user");
                                            ("content", JStr "hi")]])])])) in
  let b := ("b.json", @None json) in
  let c := ("c.json",
            Some (JObj [("request",
                         JObj [("messages",
                                JArr [JObj [("role", JStr "assistant");
                                            ("content", JStr "yo")]])])])) in
  Permutation [a; b; c] [c; a; b]
  /\ ExtractPrompts.main [a; b; c]
     = Ok [("a.json", "hi", "user"); ("c.json", "yo", "assistant")]
  /\ exists rows',
      ExtractPrompts.main [c; a; b] = Ok rows'
      /\ Permutation [("a.json", "hi", "user"); ("c.json", "yo", "assistant")]
           rows'.
Proof.
  cbv zeta.
  match goal with
  | |- Permutation ?l ?l' /\ ExtractPrompts.main _ = Ok ?rows /\ _ =>
      assert (P : Permutation l l')
        by (apply Permutation_sym, (Permutation_cons_app [_; _] []),
              Permutation_refl);
      split; [exact P|]; split; [reflexivity|];
      apply (X8_completion_order_permutes_rows l l' rows P); reflexivity
  end.
Defined.

(** ** The enriched frame *)

Lemma analyze_tool_calls_none_zero (encode : string -> list nat) (prompt : cell) :
  snd (Analyze.analyze_tool_calls encode prompt) = None ->
  fst (Analyze.analyze_tool_calls encode prompt) = 0.
Proof.
  destruct prompt as [p|]; [|reflexivity].
  cbn [Analyze.analyze_tool_calls]. unfold Analyze.analyze_matches.
  rewrite loop_from. cbn [fst snd].
  induction (Re.TOOL_RESULT_findall p) as [|m ms IH]; [reflexivity|].
  cbn [filter find]. destruct (Analyze.counted m) eqn:C; [|exact IH].
  unfold Analyze.counted in C.
  destruct (Re.INNER_TAG_search (Py.strip m)); [discriminate|].
  rewrite andb_false_r in C; discriminate.
Qed.

(** X9: [add_token_columns] keeps the rows of the CSV, in order and with
    their three columns unchanged, and gives every row the token count of
    its prompt; a row without [tool_type] has no tool tokens, and a row
    whose prompt is not a string has 0 tokens, 0 tool tokens and no type. *)
Theorem X9_frame_keeps_rows_and_counts
    (encode : string -> list nat) (csv : list (string * cell * string)) :
  map (fun r => (Frame.file_path r, Frame.prompt r, Frame.role r))
      (Frame.add_token_columns encode csv) = csv
  /\ Forall
       (fun r =>
          Frame.num_token r = Analyze.count_tokens encode (Frame.prompt r)
          /\ (Frame.tool_type r = None -> Frame.num_token_from_toolcall r = 0)
          /\ (Frame.prompt r = NotStr ->
              Frame.num_token r = 0
              /\ Frame.num_token_from_toolcall r = 0
              /\ Frame.tool_type r = None))
       (Frame.add_token_columns encode csv).
Proof.
  split.
  - unfold Frame.add_token_columns. rewrite map_map.
    induction csv as [|[[fp p] rl] csv IH]; [reflexivity|].
    cbn [map]. rewrite IH. f_equal.
    now destruct (Analyze.analyze_tool_calls encode p).
  - apply Forall_forall. intros r Hr.
    apply add_token_columns_row in Hr as [Hn Hp].
    split; [exact Hn|]. split.
    + intros Ht. pose proof (analyze_tool_calls_none_zero encode (Frame.prompt r)) as Z.
      rewrite <- Hp in Z. cbn [fst snd] in Z. now apply Z.
    + intros E. rewrite E in Hn, Hp. cbn in Hn, Hp.
      injection Hp as H1 H2. auto.
Qed.

(** Splitting the captured groups in two: the tokens add up and the first
    type found wins. *)
Lemma analyze_matches_app (encode : string -> list nat) (a b : list string) :
  Analyze.analyze_matches encode (a ++ b)%list
  = (fst (Analyze.analyze_matches encode a)
     + fst (Analyze.analyze_matches encode b),
     match snd (Analyze.analyze_matches encode a) with
     | Some t => Some t
     | None => snd (Analyze.analyze_matches encode b)
     end).
Proof.
  unfold Analyze.analyze_matches. rewrite fold_left_app, !loop_from.
  cbn [fst snd]. reflexivity.
Qed.

(** ** The corpus-wide percentage *)

Lemma Qnat_nonneg (n : nat) : (0 <= Frame.Qnat n)%Q.
Proof.
  unfold Frame.Qnat. change 0%Q with (inject_Z 0).
  rewrite <- Zle_Qle. lia.
Qed.

Lemma Qnat_pos (n : nat) : 0 < n -> (0 < Frame.Qnat n)%Q.
Proof.
  intros H. unfold Frame.Qnat. change 0%Q with (inject_Z 0).
  rewrite <- Zlt_Qlt. lia.
Qed.

Lemma sum_le (A : Type) (f g : A -> nat) (l : list A) :
  Forall (fun x => f x <= g x) l ->
  Frame.sum (map f l) <= Frame.sum (map g l).
Proof.
  induction 1 as [|x l H _ IH]; cbn; [lia|].
  unfold Frame.sum in IH. lia.
Qed.

(** X10: the percentage [overall_stats] prints is
    [100 * sum(tool) / sum(total)] when the corpus has tokens and 0 when it
    has none; it is never negative, and at most 100 when no row has more
    tool tokens than tokens. *)
Theorem X10_overall_percentage (df : list Frame.row) :
  let total := Frame.sum (map Frame.num_token df) in
  let tool := Frame.sum (map Frame.num_token_from_toolcall df) in
  (0 < total ->
   (Frame.pct_tool df == 100 * Frame.Qnat tool / Frame.Qnat total)%Q)
  /\ (total = 0 -> Frame.pct_tool df = 0%Q)
  /\ (0 <= Frame.pct_tool df)%Q
  /\ (Forall (fun r => Frame.num_token_from_toolcall r <= Frame.num_token r) df
      -> (Frame.pct_tool df <= 100)%Q).
Proof.
  cbv zeta. destruct (pct_tool_spec df) as [H1 H2]. cbv zeta in H1, H2.
  split; [exact H1|]. split; [exact H2|].
  unfold Frame.pct_tool.
  destruct (Nat.ltb_spec 0 (Frame.sum (map Frame.num_token df))) as [L|L].
  - pose proof (Qnat_pos _ L) as P.
    pose proof (Qnat_nonneg (Frame.sum (map Frame.num_token_from_toolcall df)))
      as N.
    split.
    + apply Qmult_le_0_compat; [|lra].
      apply Qle_shift_div_l; [exact P|]. lra.
    + intros F. apply sum_le in F.
      assert (D : (Frame.Qnat (Frame.sum (map Frame.num_token_from_toolcall df))
                   / Frame.Qnat (Frame.sum (map Frame.num_token df)) <= 1)%Q).
      { apply Qle_shift_div_r; [exact P|]. rewrite Qmult_1_l.
        unfold Frame.Qnat. rewrite <- Zle_Qle. lia. }
      lra.
  - split; [lra|intros _; lra].
Qed.

(** ** The per-conversation series *)

Section AscendingLabels.

Variable K : Type.
Variable cmp : K -> K -> comparison.
Hypothesis cmp_eq : forall a b : K, cmp a b = Eq <-> a = b.

(** Ascending labels are distinct. *)
Lemma ascending_NoDup {V : Type} (g : list (K * V)) :
  Frame.ascending cmp g -> NoDup (map fst g).
Proof.
  unfold Frame.ascending. induction 1 as [|a g Hs IH Hall]; cbn [map];
    constructor; [|exact IH].
  intros Hin. apply in_map_iff in Hin as (b & Hb & Hin).
  rewrite Forall_forall in Hall. specialize (Hall _ Hin).
  rewrite Hb, (proj2 (cmp_eq _ _) eq_refl) in Hall. discriminate.
Qed.

End AscendingLabels.

(** X11: [file_tool_pct] has exactly one entry per conversation of the
    frame, in ascending order of the paths, and the entry holds
    [sum(tool) / sum(total) * 100] of the conversation's rows: a finite
    value when the conversation has tokens, [NaN] when it has neither
    tokens nor tool tokens, [inf] when only its token sum is 0. *)
Theorem X11_file_tool_pct_entries (df : list Frame.row) :
  Frame.ascending String.compare (Frame.file_tool_pct df)
  /\ NoDup (map fst (Frame.file_tool_pct df))
  /\ (forall fp,
         In fp (map fst (Frame.file_tool_pct df))
         <-> exists r, In r df /\ Frame.file_path r = fp)
  /\ forall fp,
      (exists r, In r df /\ Frame.file_path r = fp) ->
      Frame.series_get String.compare fp (Frame.file_tool_pct df)
      = Some
          match Frame.file_sum Frame.num_token df fp,
                Frame.file_sum Frame.num_token_from_toolcall df fp with
          | O, O => NaN
          | O, S _ => Inf
          | S n, tool => Fin (Frame.Qnat tool / Frame.Qnat (S n) * 100)%Q
          end.
Proof.
  destruct (file_tool_pct_conversations df) as [Hasc Hin].
  split; [exact Hasc|]. split; [|split; [exact Hin|]].
  - now apply (ascending_NoDup _ _ string_compare_eq).
  - intros fp H. rewrite (file_tool_pct_spec df fp H).
    unfold Frame.truediv, Frame.times100.
    destruct (Frame.file_sum Frame.num_token df fp);
      now destruct (Frame.file_sum Frame.num_token_from_toolcall df fp).
Qed.

(** X12: the series of summed tool tokens by (conversation, type) has an
    entry exactly for the pairs that have a row, the entry holds the sum of
    [num_token_from_toolcall] over those rows, and the pairs stand in
    ascending lexicographic order. *)
Theorem X12_tool_type_by_file_entries (df : list Frame.row) :
  Frame.ascending Frame.pair_compare (Frame.tool_type_by_file df)
  /\ forall fp tp v,
      In ((fp, tp), v) (Frame.tool_type_by_file df)
      <-> (exists r,
              In r df /\ Frame.file_path r = fp /\ Frame.tool_type r = Some tp)
          /\ v = Frame.type_sum df fp tp.
Proof.
  split.
  - exact (proj1 (groupby_sum_spec _ _ pair_compare_eq pair_compare_antisym
                    pair_compare_trans (Frame.typed_rows df))).
  - intros fp tp v. rewrite tool_type_by_file_entries.
    now rewrite typed_rows_has_key.
Qed.

(** ** The buckets *)

(** X13: [pd.cut] with the edges 0, 20, ..., 100 and [right=True] files a
    finite percentage [q] under bucket [i] exactly when
    [20 i < q <= 20 (i + 1)] with [i < 5]; [NaN] and [inf] get no bucket. *)
Theorem X13_cut_bucket (q : Q) (i : nat) :
  (Frame.cut Frame.bins (Fin q) = Some i
   <-> i < 5
       /\ (inject_Z (Z.of_nat (20 * i)) < q)%Q
       /\ (q <= inject_Z (Z.of_nat (20 * (i + 1))))%Q)
  /\ Frame.cut Frame.bins NaN = None
  /\ Frame.cut Frame.bins Inf = None.
Proof.
  split; [|split; reflexivity].
  unfold Frame.cut, Frame.bins, Frame.cut_from, Frame.Qlt_bool.
  destruct (Qle_bool q 0) eqn:E0, (Qle_bool q 20) eqn:E20,
    (Qle_bool q 40) eqn:E40, (Qle_bool q 60) eqn:E60,
    (Qle_bool q 80) eqn:E80, (Qle_bool q 100) eqn:E100;
    cbn [negb andb];
    repeat match goal with
           | H : Qle_bool _ _ = true |- _ => apply Qle_bool_iff in H
           | H : Qle_bool _ _ = false |- _ => apply Qle_bool_false in H
           end;
    (split;
     [ intros H;
       first [ discriminate H
             | injection H as <-; cbn; unfold inject_Z;
               split; [lia|split; lra] ]
     | intros (Hi & Hlo & Hhi);
       do 5 (destruct i as [|i];
             [cbn in Hlo, Hhi; unfold inject_Z in Hlo, Hhi; try lra;
              reflexivity|]);
       lia ]).
Qed.

Lemma filter_length_perm {A : Type} (f : A -> bool) (l l' : list A) :
  Permutation l l' -> List.length (filter f l) = List.length (filter f l').
Proof.
  induction 1 as [|x l l' _ IH|x y l|l l' l'' _ IH1 _ IH2]; cbn [filter].
  - reflexivity.
  - destruct (f x); cbn; congruence.
  - destruct (f x), (f y); reflexivity.
  - congruence.
Qed.

(** X14: [range_counts] lists the five labels in their declared order
    whatever the percentages are, and the counts do not depend on the order
    of the conversations (so the [sort_values] before [pd.cut] does not
    change them). *)
Theorem X14_range_counts_labels_and_order (pcts : list (string * fval)) :
  map fst (Frame.range_counts pcts) = Frame.labels
  /\ forall pcts',
      Permutation pcts pcts' ->
      Frame.range_counts pcts = Frame.range_counts pcts'.
Proof.
  split; [reflexivity|]. intros pcts' P.
  unfold Frame.range_counts.
  apply map_ext. intros il. f_equal.
  apply filter_length_perm. now apply Permutation_map.
Qed.

(** ** The frame of dominant types *)

Lemma idxmax_group_label (df : list Frame.row) (fp : string)
    (label : string * string) :
  Frame.idxmax (Frame.level0_group fp (Frame.tool_type_by_file df)) = Some label ->
  fst label = fp
  /\ exists r,
      In r df /\ Frame.file_path r = fp /\ Frame.tool_type r = Some (snd label).
Proof.
  intros E. destruct (idxmax_spec _ _ E) as (b & v & a & Eg & _).
  assert (H : In (label, v)
                (Frame.level0_group fp (Frame.tool_type_by_file df))).
  { rewrite Eg. apply in_elt. }
  apply level0_group_In in H as [H Hfp]. cbn [fst] in Hfp.
  split; [exact Hfp|]. destruct label as [f tp]. cbn [fst snd] in *. subst f.
  apply tool_type_by_file_entries in H as [H _].
  now apply typed_rows_has_key in H.
Qed.

Lemma level0_keys_typed (df : list Frame.row) (fp : string) :
  In fp (Frame.level0_keys (Frame.tool_type_by_file df))
  <-> exists r,
        In r df /\ Frame.file_path r = fp /\ Frame.tool_type r <> None.
Proof.
  rewrite level0_keys_In. split.
  - intros ([[f tp] v] & He & Hfp). cbn [fst] in Hfp. subst f.
    apply tool_type_by_file_entries in He as [He _].
    apply typed_rows_has_key in He as (r & Hr & Hf & Ht).
    exists r. rewrite Ht. repeat split; auto. discriminate.
  - intros (r & Hr & Hf & Ht).
    destruct (Frame.tool_type r) as [tp|] eqn:T; [|contradiction].
    exists ((fp, tp), Frame.type_sum df fp tp). split; [|reflexivity].
    apply tool_type_by_file_entries. split; [|reflexivity].
    apply typed_rows_has_key. now exists r.
Qed.

Lemma dominant_labels (df : list Frame.row) :
  map fst (Frame.dominant_tool_type_df df)
  = Frame.level0_keys (Frame.tool_type_by_file df).
Proof.
  unfold Frame.dominant_tool_type_df, Frame.dominant_tool_type.
  rewrite map_map. cbn [fst].
  assert (H : forall fp,
             In fp (Frame.level0_keys (Frame.tool_type_by_file df)) ->
             In fp (Frame.level0_keys (Frame.tool_type_by_file df)))
    by auto.
  revert H.
  generalize (Frame.level0_keys (Frame.tool_type_by_file df)) at 1 3 4.
  intros l. induction l as [|fp l IH]; intros H; [reflexivity|].
  cbn [flat_map]. rewrite map_app, IH by (intros x Hx; apply H; now right).
  specialize (H fp (or_introl eq_refl)).
  apply level0_keys_In in H as (e & He & Hfp).
  assert (Hg : In e (Frame.level0_group fp (Frame.tool_type_by_file df)))
    by now apply level0_group_In.
  destruct (Frame.idxmax (Frame.level0_group fp (Frame.tool_type_by_file df)))
    as [label|] eqn:E.
  - apply idxmax_group_label in E as [E _]. cbn. now rewrite E.
  - destruct (Frame.level0_group fp (Frame.tool_type_by_file df));
      [destruct Hg|discriminate].
Qed.

(** X15: the frame of dominant types has exactly one row per conversation
    that has a row with a [tool_type], none for the other conversations,
    and the dominant type of a conversation is the type of one of its
    rows. *)
Theorem X15_dominant_frame_rows (df : list Frame.row) :
  NoDup (map fst (Frame.dominant_tool_type_df df))
  /\ (forall fp,
         In fp (map fst (Frame.dominant_tool_type_df df))
         <-> exists r,
               In r df /\ Frame.file_path r = fp /\ Frame.tool_type r <> None)
  /\ forall fp tp,
      In (fp, tp) (Frame.dominant_tool_type_df df) ->
      exists r,
        In r df /\ Frame.file_path r = fp /\ Frame.tool_type r = Some tp.
Proof.
  rewrite dominant_labels. split; [|split].
  - unfold Frame.level0_keys.
    apply (ascending_NoDup _ _ string_compare_eq).
    exact (proj1 (groupby_sum_spec _ _ string_compare_eq string_compare_antisym
                    string_compare_trans _)).
  - apply level0_keys_typed.
  - intros fp tp H. unfold Frame.dominant_tool_type_df in H.
    apply in_map_iff in H as ([fp0 [f t]] & Heq & Hin).
    cbn [fst snd] in Heq. injection Heq as -> ->.
    apply dominant_tool_type_In in Hin as [_ E].
    apply idxmax_group_label in E as [E1 (r & Hr & Hf & Ht)].
    cbn [fst snd] in *. subst fp0. now exists r.
Qed.

(** ** Counting the values of a column *)

Lemma count_of_count_into_same (k : string) (acc : list (string * nat)) :
  Stats.count_of k (Stats.count_into k acc) = S (Stats.count_of k acc).
Proof.
  unfold Stats.count_of.
  induction acc as [|[k' n] acc IH]; cbn [Stats.count_into find fst].
  - now rewrite String.eqb_refl.
  - destruct (String.eqb k k') eqn:E; cbn [find fst];
      rewrite (String.eqb_sym k' k), E; [reflexivity|exact IH].
Qed.

Lemma count_of_count_into_other (k k0 : string) (acc : list (string * nat)) :
  k0 <> k ->
  Stats.count_of k0 (Stats.count_into k acc) = Stats.count_of k0 acc.
Proof.
  intros N. apply String.eqb_neq in N. unfold Stats.count_of.
  induction acc as [|[k' n] acc IH]; cbn [Stats.count_into find fst].
  - now rewrite String.eqb_sym, N.
  - destruct (String.eqb k k') eqn:E; cbn [find fst].
    + apply String.eqb_eq in E; subst k'.
      now rewrite String.eqb_sym, N.
    + destruct (String.eqb k' k0); [reflexivity|exact IH].
Qed.

Lemma count_into_labels (k x : string) (acc : list (string * nat)) :
  In x (map fst (Stats.count_into k acc)) <-> x = k \/ In x (map fst acc).
Proof.
  induction acc as [|[k' n] acc IH]; cbn [Stats.count_into map fst In].
  - intuition.
  - destruct (String.eqb_spec k k') as [->|N]; cbn [map fst In].
    + intuition.
    + rewrite IH. intuition.
Qed.

Lemma count_into_NoDup (k : string) (acc : list (string * nat)) :
  NoDup (map fst acc) -> NoDup (map fst (Stats.count_into k acc)).
Proof.
  induction acc as [|[k' n] acc IH]; cbn [Stats.count_into map fst]; intros H.
  - repeat constructor. intros [].
  - inversion H as [|? ? Hn Hd]; subst.
    destruct (String.eqb_spec k k') as [->|N]; cbn [map fst].
    + now constructor.
    + constructor; [|now apply IH].
      rewrite count_into_labels. intros [E|E]; [now subst|contradiction].
Qed.

Lemma count_into_positive (k : string) (acc : list (string * nat)) :
  Forall (fun kv => 0 < snd kv) acc ->
  Forall (fun kv => 0 < snd kv) (Stats.count_into k acc).
Proof.
  induction 1 as [|[k' n] acc H Hall IH]; cbn [Stats.count_into].
  - repeat constructor.
  - destruct (String.eqb k k'); constructor; cbn [snd] in *; try lia; auto.
Qed.

Lemma count_into_sum (k : string) (acc : list (string * nat)) :
  Frame.sum (map snd (Stats.count_into k acc)) = S (Frame.sum (map snd acc)).
Proof.
  unfold Frame.sum.
  induction acc as [|[k' n] acc IH]; cbn [Stats.count_into]; [reflexivity|].
  destruct (String.eqb k k'); cbn in *; lia.
Qed.

Lemma counts_from (l : list string) (acc : list (string * nat)) :
  NoDup (map fst acc) ->
  Forall (fun kv => 0 < snd kv) acc ->
  let c := fold_left (fun acc k => Stats.count_into k acc) l acc in
  NoDup (map fst c)
  /\ Forall (fun kv => 0 < snd kv) c
  /\ Frame.sum (map snd c) = Frame.sum (map snd acc) + List.length l
  /\ forall t,
      Stats.count_of t c = Stats.count_of t acc + count_occ string_dec l t.
Proof.
  cbv zeta. revert acc; induction l as [|k l IH]; intros acc Hd Hp;
    cbn [fold_left].
  - repeat split; auto; cbn; lia.
  - destruct (IH _ (count_into_NoDup k _ Hd) (count_into_positive k _ Hp))
      as (H1 & H2 & H3 & H4).
    repeat split; auto.
    + rewrite H3, count_into_sum. cbn [List.length]. lia.
    + intros t. rewrite H4. cbn [count_occ].
      destruct (string_dec k t) as [->|N].
      * rewrite count_of_count_into_same. lia.
      * rewrite count_of_count_into_other by congruence. lia.
Qed.

Lemma In_count_of (t : string) (n : nat) (c : list (string * nat)) :
  NoDup (map fst c) -> In (t, n) c -> Stats.count_of t c = n.
Proof.
  unfold Stats.count_of.
  induction c as [|[k m] c IH]; [intros _ []|]. cbn [map fst find].
  intros Hd. inversion Hd as [|? ? Hn Hd']; subst.
  intros [[= -> ->]|Hin].
  - now rewrite String.eqb_refl.
  - destruct (String.eqb_spec k t) as [->|N]; [|now apply IH].
    exfalso. apply Hn. apply in_map_iff. now exists (t, n).
Qed.

Lemma count_of_In (t : string) (c : list (string * nat)) :
  0 < Stats.count_of t c -> In (t, Stats.count_of t c) c.
Proof.
  unfold Stats.count_of.
  destruct (find (fun kv => String.eqb (fst kv) t) c) as [[k n]|] eqn:F;
    [|cbn; lia].
  intros _. apply find_some in F as [Hin E]. cbn [fst snd] in *.
  apply String.eqb_eq in E. now subst.
Qed.

Lemma sum_perm (l l' : list nat) :
  Permutation l l' -> Frame.sum l = Frame.sum l'.
Proof.
  unfold Frame.sum.
  induction 1; cbn in *; lia.
Qed.

(** A table that is a reordering of [counts l]: distinct labels, and the
    entry of a value is its number of occurrences. *)
Lemma counts_perm_spec (l : list string) (c : list (string * nat)) :
  Permutation c (Stats.counts l) ->
  NoDup (map fst c)
  /\ (forall t n, In (t, n) c <-> 0 < n /\ n = count_occ string_dec l t)
  /\ Frame.sum (map snd c) = List.length l.
Proof.
  intros P.
  destruct (counts_from l [] (NoDup_nil _) (Forall_nil _))
    as (H1 & H2 & H3 & H4).
  fold (Stats.counts l) in H1, H2, H3, H4. cbn in H3, H4.
  split; [|split].
  - eapply Permutation_NoDup; [|exact H1].
    apply Permutation_map, Permutation_sym, P.
  - intros t n. split.
    + intros Hin. apply (Permutation_in _ P) in Hin.
      rewrite Forall_forall in H2. pose proof (H2 _ Hin) as Hp. cbn in Hp.
      split; [exact Hp|]. rewrite <- H4. symmetry. now apply In_count_of.
    + intros [Hp ->]. apply (Permutation_in _ (Permutation_sym P)).
      rewrite <- H4 in *. now apply count_of_In.
  - rewrite <- H3. apply sum_perm, Permutation_map, P.
Qed.

(** ** The insertion sort *)

Section InsertionSortFacts.

Variable V : Type.
Variable leb : V -> V -> bool.
Hypothesis leb_total : forall a b, leb a b = true \/ leb b a = true.

Lemma insert_desc_perm (x : string * V) (l : list (string * V)) :
  Permutation (Stats.insert_desc V leb x l) (x :: l).
Proof.
  induction l as [|y l IH]; cbn [Stats.insert_desc]; [reflexivity|].
  destruct (leb (snd y) (snd x)); [reflexivity|].
  rewrite IH. apply perm_swap.
Qed.

Lemma sort_desc_perm (l : list (string * V)) :
  Permutation (Stats.sort_desc leb l) l.
Proof.
  unfold Stats.sort_desc.
  induction l as [|x l IH]; cbn [fold_right]; [reflexivity|].
  rewrite insert_desc_perm. now constructor.
Qed.

Lemma insert_desc_sorted (x : string * V) (l : list (string * V)) :
  Sorted (fun a b => leb (snd b) (snd a) = true) l ->
  Sorted (fun a b => leb (snd b) (snd a) = true) (Stats.insert_desc V leb x l).
Proof.
  induction 1 as [|y l Hs IH Hhd]; cbn [Stats.insert_desc].
  - repeat constructor.
  - destruct (leb (snd y) (snd x)) eqn:E.
    + constructor; [now constructor|]. now constructor.
    + constructor; [exact IH|].
      destruct l as [|z l]; cbn [Stats.insert_desc].
      * constructor. destruct (leb_total (snd x) (snd y)); congruence.
      * destruct (leb (snd z) (snd x)).
        -- constructor. destruct (leb_total (snd x) (snd y)); congruence.
        -- constructor. now inversion Hhd.
Qed.

Lemma sort_desc_sorted (l : list (string * V)) :
  Sorted (fun a b => leb (snd b) (snd a) = true) (Stats.sort_desc leb l).
Proof.
  unfold Stats.sort_desc.
  induction l as [|x l IH]; cbn [fold_right]; [constructor|].
  now apply insert_desc_sorted.
Qed.

End InsertionSortFacts.

(** ** [tool_type_stats] *)

Lemma tool_types_count (df : list Frame.row) (t : string) :
  count_occ string_dec (Stats.tool_types df) t
  = List.length
      (filter (fun r =>
                 match Frame.tool_type r with
                 | Some t' => String.eqb t' t
                 | None => false
                 end)
              df).
Proof.
  unfold Stats.tool_types.
  induction df as [|r df IH]; [reflexivity|]. cbn [flat_map filter].
  destruct (Frame.tool_type r) as [t'|]; [|exact IH].
  cbn [app count_occ].
  destruct (string_dec t' t) as [->|N].
  - rewrite String.eqb_refl. cbn. now rewrite IH.
  - apply String.eqb_neq in N. now rewrite N.
Qed.

Lemma tool_types_length (df : list Frame.row) :
  List.length (Stats.tool_types df)
  = List.length
      (filter (fun r =>
                 match Frame.tool_type r with
                 | Some _ => true
                 | None => false
                 end)
              df).
Proof.
  unfold Stats.tool_types.
  induction df as [|r df IH]; [reflexivity|]. cbn [flat_map filter].
  destruct (Frame.tool_type r); cbn; now rewrite ?IH.
Qed.

(** X16: [tool_type_counts] has one entry per tool type that occurs, the
    entry is the number of rows of that type, and the counts add up to the
    number of rows that have a type, whichever order the sort leaves equal
    counts in. *)
Theorem X16_tool_type_counts
    (sort_counts : list (string * nat) -> list (string * nat))
    (sort_counts_perm : forall c, Permutation (sort_counts c) c)
    (df : list Frame.row) :
  let c := Stats.tool_type_counts sort_counts df in
  NoDup (map fst c)
  /\ (forall t n,
         In (t, n) c
         <-> 0 < n
             /\ n = List.length
                      (filter (fun r =>
                                 match Frame.tool_type r with
                                 | Some t' => String.eqb t' t
                                 | None => false
                                 end)
                              df))
  /\ Frame.sum (map snd c)
     = List.length
         (filter (fun r =>
                    match Frame.tool_type r with
                    | Some _ => true
                    | None => false
                    end)
                 df).
Proof.
  cbv zeta. unfold Stats.tool_type_counts, Stats.value_counts.
  destruct (counts_perm_spec (Stats.tool_types df) _ (sort_counts_perm _))
    as (H1 & H2 & H3).
  split; [exact H1|]. split.
  - intros t n. rewrite H2. now rewrite tool_types_count.
  - now rewrite H3, tool_types_length.
Qed.

(** X16 for the insertion sort, on a frame with two types. *)
Lemma X16_tool_type_counts_witness :
  let df :=
    [Frame.mkRow "a.json" NotStr "assistant" 9 5 (Some "ls");
     Frame.mkRow "a.json" NotStr "user" 3 0 None;
     Frame.mkRow "b.json" NotStr "assistant" 9 4 (Some "cat");
     Frame.mkRow "b.json" NotStr "assistant" 8 2 (Some "ls")] in
  (forall c, Permutation (Stats.sort_desc Nat.leb c) c)
  /\ Stats.tool_type_counts (Stats.sort_desc Nat.leb) df = [("ls", 2); ("cat", 1)]
  /\ Frame.sum (map snd (Stats.tool_type_counts (Stats.sort_desc Nat.leb) df))
     = 3.
Proof.
  cbv zeta. split; [apply sort_desc_perm|]. split; [reflexivity|].
  exact (proj2 (proj2 (X16_tool_type_counts (Stats.sort_desc Nat.leb)
                         (sort_desc_perm _ Nat.leb) _))).
Defined.

Lemma by_type_sum_for (column : Frame.row -> nat) (df : list Frame.row)
    (t : string) :
  Frame.sum_for String.compare t (Stats.by_type column df)
  = Frame.sum
      (map column
         (filter (fun r =>
                    match Frame.tool_type r with
                    | Some t' => String.eqb t' t
                    | None => false
                    end)
                 df)).
Proof.
  unfold Frame.sum_for, Stats.by_type.
  induction df as [|r df IH]; [reflexivity|]. cbn [flat_map filter].
  destruct (Frame.tool_type r) as [t'|]; [|exact IH].
  cbn [app filter fst].
  replace (Frame.same_key String.compare t t') with (String.eqb t' t).
  - destruct (String.eqb t' t); cbn [map Frame.sum fold_right snd];
      fold Frame.sum; unfold Frame.sum in *; now rewrite ?IH.
  - apply eq_true_iff_eq.
    now rewrite (same_key_iff _ _ string_compare_eq), String.eqb_eq.
Qed.

Lemma by_type_has_key (column : Frame.row -> nat) (df : list Frame.row)
    (t : string) :
  Frame.has_key String.compare t (Stats.by_type column df) = true
  <-> exists r, In r df /\ Frame.tool_type r = Some t.
Proof.
  unfold Frame.has_key, Stats.by_type. rewrite existsb_exists. split.
  - intros ([k v] & Hin & Hs). apply in_flat_map in Hin as (r & Hr & Hin).
    apply (same_key_iff _ _ string_compare_eq) in Hs. cbn [fst] in Hs. subst k.
    destruct (Frame.tool_type r) as [t'|] eqn:T; [|destruct Hin].
    destruct Hin as [[= -> _]|[]]. now exists r.
  - intros (r & Hr & T). exists (t, column r). split.
    + apply in_flat_map. exists r. split; [exact Hr|]. rewrite T. now left.
    + now apply (same_key_iff _ _ string_compare_eq).
Qed.

Lemma sum_ones {A : Type} (l : list A) :
  Frame.sum (map (fun _ => 1) l) = List.length l.
Proof. unfold Frame.sum. induction l; cbn; congruence. Qed.

(** X18: [avg_token_by_type] has an entry exactly for the tool types that
    occur, and the entry of a type is the sum of [num_token_from_toolcall]
    over the rows of that type divided by the number of those rows. *)
Theorem X18_avg_token_by_type
    (sort_floats : list (string * Q) -> list (string * Q))
    (sort_floats_perm : forall s, Permutation (sort_floats s) s)
    (df : list Frame.row) (t : string) (m : Q) :
  In (t, m) (Stats.avg_token_by_type sort_floats df)
  <-> (exists r, In r df /\ Frame.tool_type r = Some t)
      /\ let rows :=
           filter (fun r =>
                     match Frame.tool_type r with
                     | Some t' => String.eqb t' t
                     | None => false
                     end)
                  df in
         m = (Frame.Qnat (Frame.sum (map Frame.num_token_from_toolcall rows))
              / Frame.Qnat (List.length rows))%Q.
Proof.
  cbv zeta. unfold Stats.avg_token_by_type.
  set (sums := Frame.groupby_sum String.compare
                 (Stats.by_type Frame.num_token_from_toolcall df)).
  set (sizes := Frame.groupby_sum String.compare
                  (Stats.by_type (fun _ => 1) df)).
  destruct (groupby_sum_spec _ _ string_compare_eq string_compare_antisym
              string_compare_trans
              (Stats.by_type Frame.num_token_from_toolcall df))
    as [Hasc Hget].
  fold sums in Hasc, Hget.
  assert (Hsize : forall k,
             (exists r, In r df /\ Frame.tool_type r = Some k) ->
             Frame.series_get String.compare k sizes
             = Some (List.length
                       (filter (fun r =>
                                  match Frame.tool_type r with
                                  | Some t' => String.eqb t' k
                                  | None => false
                                  end)
                               df))).
  { intros k Hk. unfold sizes.
    rewrite (proj2 (groupby_sum_spec _ _ string_compare_eq
                      string_compare_antisym string_compare_trans _)).
    rewrite (proj2 (by_type_has_key _ df k) Hk).
    now rewrite by_type_sum_for, sum_ones. }
  split.
  - intros Hin. apply (Permutation_in _ (sort_floats_perm _)) in Hin.
    apply in_map_iff in Hin as ([k s] & Heq & Hin). cbn [fst snd] in Heq.
    apply (In_series_get _ _ string_compare_eq string_compare_antisym) in Hin;
      [|exact Hasc].
    rewrite Hget in Hin.
    destruct (Frame.has_key String.compare k
                (Stats.by_type Frame.num_token_from_toolcall df)) eqn:Hk;
      [|discriminate].
    apply by_type_has_key in Hk. injection Hin as <-.
    rewrite (Hsize _ Hk), by_type_sum_for in Heq.
    injection Heq as -> <-. now split.
  - intros [Hk ->].
    apply (Permutation_in _ (Permutation_sym (sort_floats_perm _))).
    apply in_map_iff.
    exists (t, Frame.sum_for String.compare t
                 (Stats.by_type Frame.num_token_from_toolcall df)).
    cbn [fst snd]. split.
    + now rewrite (Hsize _ Hk), by_type_sum_for.
    + apply (series_get_In _ _ string_compare_eq). rewrite Hget.
      now rewrite (proj2 (by_type_has_key _ df t) Hk).
Qed.

(** X19: the counts of [freq_dominant] are, per tool type, the number of
    conversations whose dominant type it is; they add up to the number of
    rows of the frame of dominant types, one per conversation that has a
    row with a type. *)
Theorem X19_freq_dominant
    (sort_counts : list (string * nat) -> list (string * nat))
    (sort_counts_perm : forall c, Permutation (sort_counts c) c)
    (df : list Frame.row) :
  let f := Stats.freq_dominant sort_counts df in
  NoDup (map fst f)
  /\ (forall t n,
         In (t, n) f
         <-> 0 < n
             /\ n = count_occ string_dec
                      (map snd (Frame.dominant_tool_type_df df)) t)
  /\ Frame.sum (map snd f) = List.length (Frame.dominant_tool_type_df df).
Proof.
  cbv zeta. unfold Stats.freq_dominant, Stats.value_counts.
  destruct (counts_perm_spec (map snd (Frame.dominant_tool_type_df df)) _
              (sort_counts_perm _)) as (H1 & H2 & H3).
  split; [exact H1|]. split; [exact H2|].
  now rewrite H3, length_map.
Qed.

(** X18 for the insertion sort: the mean of the two rows of type [ls]. *)
Lemma X18_avg_token_by_type_witness :
  let df :=
    [Frame.mkRow "a.json" NotStr "assistant" 9 5 (Some "ls");
     Frame.mkRow "b.json" NotStr "assistant" 9 4 (Some "cat");
     Frame.mkRow "b.json" NotStr "assistant" 8 2 (Some "ls")] in
  (forall s, Permutation (Stats.sort_desc Qle_bool s) s)
  /\ In ("ls", (Frame.Qnat 7 / Frame.Qnat 2)%Q)
        (Stats.avg_token_by_type (Stats.sort_desc Qle_bool) df).
Proof.
  cbv zeta. split; [apply sort_desc_perm|].
  apply (proj2 (X18_avg_token_by_type (Stats.sort_desc Qle_bool)
                  (sort_desc_perm _ Qle_bool) _ "ls" _)).
  split; [|reflexivity].
  eexists. split; [left; reflexivity|reflexivity].
Defined.

(** X19 for the insertion sort, on two conversations with the same
    dominant type. *)
Lemma X19_freq_dominant_witness :
  let df :=
    [Frame.mkRow "a.json" NotStr "assistant" 9 5 (Some "ls");
     Frame.mkRow "b.json" NotStr "assistant" 9 4 (Some "cat");
     Frame.mkRow "b.json" NotStr "assistant" 8 6 (Some "ls")] in
  (forall c, Permutation (Stats.sort_desc Nat.leb c) c)
  /\ Stats.freq_dominant (Stats.sort_desc Nat.leb) df = [("ls", 2)]
  /\ Frame.sum (map snd (Stats.freq_dominant (Stats.sort_desc Nat.leb) df))
     = List.length (Frame.dominant_tool_type_df df).
Proof.
  cbv zeta. split; [apply sort_desc_perm|]. split; [reflexivity|].
  exact (proj2 (proj2 (X19_freq_dominant (Stats.sort_desc Nat.leb)
                         (sort_desc_perm _ Nat.leb) _))).
Defined.

(** ** [find_latest_gz_for_id] *)

Lemma keep_latest_from (l : list S3.obj) (b : S3.obj) :
  S3.endswith ".gz" (S3.Key b) = true ->
  exists o,
    fold_left S3.keep_latest l (Some b) = Some o
    /\ S3.endswith ".gz" (S3.Key o) = true
    /\ (S3.LastModified b <= S3.LastModified o)%Z
    /\ (forall x, In x l -> S3.endswith ".gz" (S3.Key x) = true ->
                  (S3.LastModified x <= S3.LastModified o)%Z)
    /\ (o = b
        \/ exists before after,
             l = (before ++ o :: after)%list
             /\ (S3.LastModified b < S3.LastModified o)%Z
             /\ forall x, In x before -> S3.endswith ".gz" (S3.Key x) = true ->
                          (S3.LastModified x < S3.LastModified o)%Z).
Proof.
  revert b; induction l as [|y l IH]; intros b Hb; cbn [fold_left].
  - exists b. repeat split; auto; [lia|intros x []].
  - unfold S3.keep_latest at 2.
    destruct (S3.endswith ".gz" (S3.Key y)) eqn:Gy.
    + destruct (Z.ltb_spec (S3.LastModified b) (S3.LastModified y)) as [L|L].
      * destruct (IH y Gy) as (o & E & Go & Hle & Hall & Hpos).
        exists o. split; [exact E|]. split; [exact Go|]. split; [lia|].
        split.
        -- intros x [<-|Hx] Gx; [exact Hle|now apply Hall].
        -- right. destruct Hpos as [->|(bf & af & -> & Hlt & Hbf)].
           ++ exists [], l. split; [reflexivity|]. split; [exact L|].
              intros x [].
           ++ exists (y :: bf), af. split; [reflexivity|]. split; [lia|].
              intros x [<-|Hx] Gx; [exact Hlt|now apply Hbf].
      * destruct (IH b Hb) as (o & E & Go & Hle & Hall & Hpos).
        exists o. split; [exact E|]. split; [exact Go|]. split; [exact Hle|].
        split.
        -- intros x [<-|Hx] Gx; [lia|now apply Hall].
        -- destruct Hpos as [->|(bf & af & -> & Hlt & Hbf)]; [now left|].
           right. exists (y :: bf), af. split; [reflexivity|].
           split; [exact Hlt|].
           intros x [<-|Hx] Gx; [lia|now apply Hbf].
    + destruct (IH b Hb) as (o & E & Go & Hle & Hall & Hpos).
      exists o. split; [exact E|]. split; [exact Go|]. split; [exact Hle|].
      split.
      * intros x [<-|Hx] Gx; [congruence|now apply Hall].
      * destruct Hpos as [->|(bf & af & -> & Hlt & Hbf)]; [now left|].
        right. exists (y :: bf), af. split; [reflexivity|].
        split; [exact Hlt|].
        intros x [<-|Hx] Gx; [congruence|now apply Hbf].
Qed.

Lemma keep_latest_spec (l : list S3.obj) :
  match fold_left S3.keep_latest l None with
  | None => forall x, In x l -> S3.endswith ".gz" (S3.Key x) = false
  | Some o =>
      S3.endswith ".gz" (S3.Key o) = true
      /\ exists before after,
          l = (before ++ o :: after)%list
          /\ (forall x, In x before -> S3.endswith ".gz" (S3.Key x) = true ->
                        (S3.LastModified x < S3.LastModified o)%Z)
          /\ (forall x, In x after -> S3.endswith ".gz" (S3.Key x) = true ->
                        (S3.LastModified x <= S3.LastModified o)%Z)
  end.
Proof.
  induction l as [|y l IH]; cbn [fold_left]; [intros x []|].
  unfold S3.keep_latest at 2.
  destruct (S3.endswith ".gz" (S3.Key y)) eqn:Gy.
  - destruct (keep_latest_from l y Gy) as (o & E & Go & Hle & Hall & Hpos).
    rewrite E. split; [exact Go|].
    destruct Hpos as [->|(bf & af & -> & Hlt & Hbf)].
    + exists [], l. split; [reflexivity|]. split; [intros x []|exact Hall].
    + exists (y :: bf), af. split; [reflexivity|]. split.
      * intros x [<-|Hx] Gx; [exact Hlt|now apply Hbf].
      * intros x Hx. apply Hall, in_or_app. right. now right.
  - destruct (fold_left S3.keep_latest l None) as [o|].
    + destruct IH as (Go & bf & af & -> & Hbf & Haf).
      split; [exact Go|]. exists (y :: bf), af.
      split; [reflexivity|]. split; [|exact Haf].
      intros x [<-|Hx] Gx; [congruence|now apply Hbf].
    + intros x [<-|Hx]; [exact Gy|now apply IH].
Qed.

Lemma over_pages_all (pages : list (list S3.obj)) (latest : option S3.obj) :
  S3.over_pages (map Some pages) latest
  = fold_left S3.keep_latest (concat pages) latest.
Proof.
  revert latest; induction pages as [|p pages IH]; intros latest;
    cbn [map S3.over_pages concat]; [reflexivity|].
  now rewrite IH, fold_left_app.
Qed.

Lemma over_pages_failed (before : list (list S3.obj))
    (rest : list (option (list S3.obj))) (latest : option S3.obj) :
  S3.over_pages (map Some before ++ None :: rest)%list latest = None.
Proof.
  revert latest; induction before as [|p before IH]; intros latest;
    cbn [map app S3.over_pages]; [reflexivity|apply IH].
Qed.

(** X20: when every page arrives, [find_latest_gz_for_id] returns [None]
    exactly when no listed key ends in [.gz], and otherwise a listed [.gz]
    object that no other [.gz] object is newer than, the first such in
    listing order; when fetching a page raises [ClientError] it returns
    [None] whatever was listed before. *)
Theorem X20_find_latest_gz
    (pages : list (list S3.obj)) (rest : list (option (list S3.obj))) :
  match S3.find_latest_gz_for_id (map Some pages) with
  | None => forall x, In x (concat pages) -> S3.endswith ".gz" (S3.Key x) = false
  | Some o =>
      S3.endswith ".gz" (S3.Key o) = true
      /\ exists before after,
          concat pages = (before ++ o :: after)%list
          /\ (forall x, In x before -> S3.endswith ".gz" (S3.Key x) = true ->
                        (S3.LastModified x < S3.LastModified o)%Z)
          /\ (forall x, In x after -> S3.endswith ".gz" (S3.Key x) = true ->
                        (S3.LastModified x <= S3.LastModified o)%Z)
  end
  /\ S3.find_latest_gz_for_id (map Some pages ++ None :: rest)%list = None.
Proof.
  unfold S3.find_latest_gz_for_id. split.
  - rewrite over_pages_all. apply keep_latest_spec.
  - apply over_pages_failed.
Qed.

Example find_latest_gz_two_pages :
  S3.find_latest_gz_for_id
    [Some [S3.mkObj "id/a.json.gz" 5; S3.mkObj "id/notes.txt" 9];
     Some [];
     Some [S3.mkObj "id/b.json.gz" 7; S3.mkObj "id/c.json.gz" 7]]
  = Some (S3.mkObj "id/b.json.gz" 7).
Proof. reflexivity. Qed.

(** ** [load_ids_from_csv] *)

Lemma getitem_absent (key : string) (fieldnames fields : list string) :
  ~ In key fieldnames ->
  Ids.getitem key (Ids.record_items fieldnames fields) = None.
Proof.
  revert fields; induction fieldnames as [|n names IH]; intros fields H;
    [reflexivity|].
  assert (N : n <> key) by (intros ->; apply H; now left).
  assert (H' : ~ In key names) by (intros Hin; apply H; now right).
  apply String.eqb_neq in N.
  destruct fields as [|f rest]; cbn [Ids.record_items Ids.getitem];
    now rewrite IH, N.
Qed.

Lemma getitem_present (key : string) (fieldnames fields : list string) :
  In key fieldnames ->
  Ids.getitem key (Ids.record_items fieldnames fields) <> None.
Proof.
  revert fields; induction fieldnames as [|n names IH]; intros fields;
    [intros []|].
  intros Hin.
  destruct fields as [|f rest]; cbn [Ids.record_items Ids.getitem].
  - destruct (Ids.getitem key (Ids.record_items names [])) eqn:G;
      [discriminate|].
    destruct Hin as [->|Hin]; [now rewrite String.eqb_refl|].
    now apply IH in G.
  - destruct (Ids.getitem key (Ids.record_items names rest)) eqn:G;
      [discriminate|].
    destruct Hin as [->|Hin]; [now rewrite String.eqb_refl|].
    now apply IH in G.
Qed.

Lemma load_rows_ids (fieldnames : list string) (records : list (list string))
    (id_column : string) (ids out : list string) :
  Forall (fun id => id <> EmptyString /\ Py.strip id = id) ids ->
  Ids.load_rows fieldnames records id_column ids = Ids.Return out ->
  Forall (fun id => id <> EmptyString /\ Py.strip id = id) out
  /\ List.length out <= List.length ids + List.length records.
Proof.
  revert ids; induction records as [|fields records IH]; intros ids Hids;
    cbn [Ids.load_rows].
  - intros [= <-]. split; [exact Hids|lia].
  - destruct fields as [|f fs].
    + intros H. destruct (IH _ Hids H). split; [assumption|cbn; lia].
    + destruct (Ids.getitem id_column
                  (Ids.record_items fieldnames (f :: fs))) as [[value|]|];
        try discriminate.
      cbv zeta. destruct (Py.truthy (Py.strip value)) eqn:T; intros H.
      * destruct (IH (ids ++ [Py.strip value])%list) with (2 := H) as [H1 H2].
        { apply Forall_app. split; [exact Hids|]. constructor; [|constructor].
          split; [|apply strip_idem].
          intros E. rewrite E in T. discriminate. }
        split; [exact H1|]. rewrite length_app in H2. cbn in *. lia.
      * destruct (IH _ Hids H). split; [assumption|cbn; lia].
Qed.

Lemma load_rows_missing_column (fieldnames : list string)
    (records : list (list string)) (id_column : string) (ids : list string) :
  ~ In id_column fieldnames ->
  Ids.load_rows fieldnames records id_column ids
  = if forallb (fun fields => match fields with [] => true | _ => false end)
               records
    then Ids.Return ids
    else Ids.Raised Ids.KeyError.
Proof.
  intros H. induction records as [|fields records IH];
    cbn [Ids.load_rows forallb]; [reflexivity|].
  destruct fields as [|f fs]; [exact IH|].
  now rewrite getitem_absent.
Qed.

(** X21: the ids [load_ids_from_csv] returns are non-empty, have no white
    space at either end, and are at most one per record; when the header
    lacks the id column the function raises [KeyError] at the first record
    that has fields, and returns the empty list when there is none; when
    the header has the column it never raises [KeyError]. *)
Theorem X21_load_ids_from_csv (fieldnames : list string)
    (records : list (list string)) (id_column : string) :
  (forall ids,
      Ids.load_ids_from_csv fieldnames records id_column = Ids.Return ids ->
      Forall (fun id => id <> EmptyString /\ Py.strip id = id) ids
      /\ List.length ids <= List.length records)
  /\ (~ In id_column fieldnames ->
      Ids.load_ids_from_csv fieldnames records id_column
      = if forallb (fun fields => match fields with [] => true | _ => false end)
                   records
        then Ids.Return []
        else Ids.Raised Ids.KeyError)
  /\ (In id_column fieldnames ->
      Ids.load_ids_from_csv fieldnames records id_column
      <> Ids.Raised Ids.KeyError).
Proof.
  unfold Ids.load_ids_from_csv. split; [|split].
  - intros ids H. now apply load_rows_ids in H.
  - apply load_rows_missing_column.
  - intros Hin. generalize (@nil string).
    induction records as [|fields records IH]; intros ids;
      cbn [Ids.load_rows]; [discriminate|].
    destruct fields as [|f fs]; [apply IH|].
    pose proof (getitem_present id_column fieldnames (f :: fs) Hin) as G.
    destruct (Ids.getitem id_column (Ids.record_items fieldnames (f :: fs)))
      as [[value|]|]; [|discriminate|contradiction].
    cbv zeta. destruct (Py.truthy (Py.strip value)); apply IH.
Qed.

Example load_ids_padded :
  Ids.load_ids_from_csv ["name"; "id"]
    [["a"; " 17 "]; []; ["b"; "  "]; ["c"; "18"; "extra"]] "id"
  = Ids.Return ["17"; "18"].
Proof. reflexivity. Qed.

Example load_ids_short_record :
  Ids.load_ids_from_csv ["name"; "id"] [["a"; "17"]; ["b"]] "id"
  = Ids.Raised Ids.AttributeError.
Proof. reflexivity. Qed.

(** * The scanners against the plain statements *)

(** ** Character classes *)

Lemma isspace_code (c : ascii) :
  Py.isspace c
  = existsb (Nat.eqb (nat_of_ascii c))
      [9; 10; 11; 12; 13; 28; 29; 30; 31; 32; 133; 160].
Proof. destruct c as [[] [] [] [] [] [] [] []]; reflexivity. Qed.

Lemma isspace_white (c : ascii) : Py.isspace c = true <-> Decl.white c.
Proof.
  rewrite isspace_code, existsb_exists. unfold Decl.white. split.
  - intros (n & Hin & E). apply Nat.eqb_eq in E. now subst.
  - intros H. exists (nat_of_ascii c). split; [exact H|apply Nat.eqb_refl].
Qed.

Lemma is_tag_char_code (c : ascii) :
  Re.is_tag_char c
  = existsb (Ascii.eqb c) (list_ascii_of_string Decl.tag_alphabet).
Proof. destruct c as [[] [] [] [] [] [] [] []]; reflexivity. Qed.

Lemma is_tag_char_alphabet (c : ascii) :
  Re.is_tag_char c = true
  <-> In c (list_ascii_of_string Decl.tag_alphabet).
Proof.
  rewrite is_tag_char_code, existsb_exists. split.
  - intros (x & Hin & E). apply Ascii.eqb_eq in E. now subst.
  - intros H. exists c. split; [exact H|apply Ascii.eqb_refl].
Qed.

Lemma tag_chars_TagName (t : string) :
  t <> EmptyString ->
  forallb Re.is_tag_char (list_ascii_of_string t) = true ->
  Decl.TagName t.
Proof.
  intros N H. split; [exact N|]. rewrite forallb_forall in H.
  apply Forall_forall. intros c Hc. now apply is_tag_char_alphabet, H.
Qed.

Lemma TagName_tag_chars (t : string) :
  Decl.TagName t ->
  forallb Re.is_tag_char (list_ascii_of_string t) = true.
Proof.
  intros [_ H]. rewrite Forall_forall in H. apply forallb_forall.
  intros c Hc. now apply is_tag_char_alphabet, H.
Qed.

(** ** [strip] *)

Lemma lstrip_split_white (s : string) :
  exists a, s = a ++ Py.lstrip s /\ Decl.White a.
Proof.
  induction s as [|c s (a & E & W)].
  - exists EmptyString. split; [reflexivity|constructor].
  - cbn [Py.lstrip]. destruct (Py.isspace c) eqn:C.
    + exists (String c a). split; [cbn; now f_equal|].
      constructor; [now apply isspace_white|exact W].
    + exists EmptyString. split; [reflexivity|constructor].
Qed.

Lemma rstrip_split_white (s : string) :
  exists b, s = Py.rstrip s ++ b /\ Decl.White b.
Proof.
  induction s as [|c s (b & E & W)].
  - exists EmptyString. split; [reflexivity|constructor].
  - rewrite rstrip_cons. destruct (Py.rstrip s) as [|d r] eqn:R.
    + destruct (Py.isspace c) eqn:C.
      * exists (String c b). cbn [append] in *. split; [now f_equal|].
        constructor; [now apply isspace_white|exact W].
      * exists b. cbn [append] in *. split; [now f_equal|exact W].
    + exists b. cbn [append] in *. split; [now f_equal|exact W].
Qed.

Lemma rstrip_length (s : string) :
  String.length (Py.rstrip s) <= String.length s.
Proof.
  induction s as [|c s IH]; [cbn; lia|]. rewrite rstrip_cons.
  destruct (Py.rstrip s); [destruct (Py.isspace c)|]; cbn in *; lia.
Qed.

Lemma rstrip_white_end (r : string) (c : ascii) :
  Py.isspace c = true ->
  Py.rstrip (r ++ String c EmptyString) = Py.rstrip r.
Proof.
  intros C. induction r as [|x r IH]; cbn [append].
  - rewrite rstrip_cons. cbn [Py.rstrip]. now rewrite C.
  - now rewrite !rstrip_cons, IH.
Qed.

Lemma length_app_string (a b : string) :
  String.length (a ++ b) = String.length a + String.length b.
Proof. induction a as [|c a IH]; cbn; [reflexivity|now rewrite IH]. Qed.

Lemma rstrip_fixed_last (r : string) (c : ascii) :
  Py.rstrip (r ++ String c EmptyString) = r ++ String c EmptyString ->
  Py.isspace c = false.
Proof.
  intros H. destruct (Py.isspace c) eqn:C; [|reflexivity].
  rewrite (rstrip_white_end r c C) in H.
  pose proof (rstrip_length r) as L. rewrite H, length_app_string in L.
  cbn in L. lia.
Qed.

(** [strip] returns the text without the white space at its two ends. *)
Lemma strip_Trim (s : string) : Decl.Trim s (Py.strip s).
Proof.
  destruct (strip_ends s) as [Hl Hr]. split; [|split].
  - destruct (lstrip_split_white s) as (a & Ea & Wa).
    destruct (rstrip_split_white (Py.lstrip s)) as (b & Eb & Wb).
    exists a, b. unfold Py.strip. now rewrite <- Eb.
  - intros c r E. rewrite E in Hl. apply lstrip_fixed_head in Hl.
    rewrite <- isspace_white. congruence.
  - intros r c E. rewrite E in Hr. apply rstrip_fixed_last in Hr.
    rewrite <- isspace_white. congruence.
Qed.

Lemma lstrip_white_app (a x : string) :
  Decl.White a -> Py.lstrip (a ++ x) = Py.lstrip x.
Proof.
  unfold Decl.White. induction a as [|c a IH]; cbn [append]; [reflexivity|].
  cbn [list_ascii_of_string]. intros H. inversion H as [|? ? Hc Ha]; subst.
  apply isspace_white in Hc. cbn [Py.lstrip]. rewrite Hc. now apply IH.
Qed.

Lemma rstrip_white (b : string) : Decl.White b -> Py.rstrip b = EmptyString.
Proof.
  unfold Decl.White. induction b as [|c b IH]; [reflexivity|].
  cbn [list_ascii_of_string]. intros H. inversion H as [|? ? Hc Hb]; subst.
  apply isspace_white in Hc. rewrite rstrip_cons, (IH Hb). now rewrite Hc.
Qed.

Lemma lstrip_white (b : string) : Decl.White b -> Py.lstrip b = EmptyString.
Proof.
  intros H. pose proof (lstrip_white_app b EmptyString H) as E.
  cbn [Py.lstrip] in E. rewrite <- E.
  f_equal. clear. induction b; cbn; congruence.
Qed.

Lemma string_last (t : string) :
  t <> EmptyString -> exists r c, t = r ++ String c EmptyString.
Proof.
  induction t as [|x t IH]; [contradiction|]. intros _.
  destruct t as [|y t].
  - now exists EmptyString, x.
  - destruct (IH ltac:(discriminate)) as (r & c & E).
    exists (String x r), c. cbn [append]. now rewrite <- E.
Qed.

(** ... and nothing else is that text. *)
Lemma Trim_strip (s t : string) : Decl.Trim s t -> t = Py.strip s.
Proof.
  intros ((a & b & -> & Wa & Wb) & Hhead & Hlast).
  unfold Py.strip. rewrite (lstrip_white_app a _ Wa).
  destruct t as [|c t0] eqn:Et.
  - cbn [append]. now rewrite (lstrip_white b Wb).
  - rewrite <- Et in *.
    assert (C : Py.isspace c = false).
    { destruct (Py.isspace c) eqn:C; [|reflexivity].
      exfalso. apply (Hhead c t0 Et). now apply isspace_white. }
    assert (L : Py.lstrip (t ++ b) = t ++ b).
    { rewrite Et. cbn [append Py.lstrip]. now rewrite C. }
    rewrite L.
    destruct (string_last t) as (r & d & Er); [rewrite Et; discriminate|].
    assert (D : Py.isspace d = false).
    { destruct (Py.isspace d) eqn:D; [|reflexivity].
      exfalso. apply (Hlast r d Er). now apply isspace_white. }
    rewrite Er, string_app_assoc. cbn [append].
    assert (R : Py.rstrip (String d b) = String d EmptyString).
    { rewrite rstrip_cons, (rstrip_white b Wb). now rewrite D. }
    rewrite rstrip_app; rewrite R; [reflexivity|discriminate].
Qed.

(** ** The inner tag *)

Lemma span_tag_complete (t b : string) :
  forallb Re.is_tag_char (list_ascii_of_string t) = true ->
  Re.span_tag (t ++ String ">" b) = (t, String ">" b).
Proof.
  induction t as [|c t IH]; cbn [append list_ascii_of_string forallb].
  - intros _. reflexivity.
  - intros H. apply andb_true_iff in H as [C H].
    cbn [Re.span_tag]. now rewrite C, (IH H).
Qed.

(** The pattern matches wherever a tag stands. *)
Lemma inner_tag_here_complete (t b : string) :
  Decl.TagName t -> Re.inner_tag_here ("<" ++ t ++ ">" ++ b) = Some t.
Proof.
  intros T. pose proof (TagName_tag_chars t T) as H. destruct T as [N _].
  cbn [append Re.inner_tag_here]. rewrite (span_tag_complete t b H).
  destruct t; [contradiction|reflexivity].
Qed.

Lemma inner_tag_here_TagAt (s tag : string) :
  Re.inner_tag_here s = Some tag -> exists b, Decl.TagAt s EmptyString tag b.
Proof.
  intros H. apply inner_tag_here_split in H as (N & C & b & E).
  exists b. split; [exact E|now apply tag_chars_TagName].
Qed.

Lemma TagAt_cons (c : ascii) (s a t b : string) :
  Decl.TagAt s a t b -> Decl.TagAt (String c s) (String c a) t b.
Proof. intros [-> T]. now split. Qed.

Lemma TagAt_inv (c : ascii) (s a t b : string) :
  Decl.TagAt (String c s) a t b ->
  (a = EmptyString /\ Re.inner_tag_here (String c s) = Some t)
  \/ exists a', a = String c a' /\ Decl.TagAt s a' t b.
Proof.
  intros [E T]. destruct a as [|x a].
  - left. split; [reflexivity|]. rewrite E. cbn [append].
    now apply (inner_tag_here_complete t b).
  - right. cbn [append] in E. injection E as <- E. exists a.
    split; [reflexivity|now split].
Qed.

Lemma TagAt_not_empty (a t b : string) : ~ Decl.TagAt EmptyString a t b.
Proof. intros [E _]. destruct a; discriminate E. Qed.

(** [search] returns the leftmost tag. *)
Lemma search_FirstTag (s tag : string) :
  Re.INNER_TAG_search s = Some tag -> Decl.FirstTag s tag.
Proof.
  revert tag; induction s as [|c s IH]; intros tag;
    cbn [Re.INNER_TAG_search].
  - cbn. discriminate.
  - destruct (Re.inner_tag_here (String c s)) as [t|] eqn:E.
    + intros [= ->]. apply inner_tag_here_TagAt in E as [b E].
      exists EmptyString, b. split; [exact E|]. intros; cbn; lia.
    + intros H. destruct (IH _ H) as (a & b & T & M).
      exists (String c a), b. split; [now apply TagAt_cons|].
      intros a' t' b' T'. apply TagAt_inv in T' as [[_ E']|(a'' & -> & T')].
      * congruence.
      * cbn [String.length]. apply le_n_S. now apply (M a'' t' b').
Qed.

Lemma search_Untagged (s : string) :
  Re.INNER_TAG_search s = None -> Decl.Untagged s.
Proof.
  induction s as [|c s IH]; cbn [Re.INNER_TAG_search].
  - intros _ a t b. apply TagAt_not_empty.
  - destruct (Re.inner_tag_here (String c s)) as [t|] eqn:E; [discriminate|].
    intros H a t b T. apply TagAt_inv in T as [[_ E']|(a' & -> & T)].
    + congruence.
    + exact (IH H a' t b T).
Qed.

Lemma app_inj_length (a a' x y : string) :
  a ++ x = a' ++ y -> String.length a = String.length a' ->
  a = a' /\ x = y.
Proof.
  revert a'; induction a as [|c a IH]; intros [|c' a']; cbn;
    try discriminate.
  - now split.
  - intros [= <- E] [= L]. destruct (IH _ E L) as [-> ->]. now split.
Qed.

(** At one place of a text there stands at most one tag. *)
Lemma TagAt_same_place (s a t b a' t' b' : string) :
  Decl.TagAt s a t b -> Decl.TagAt s a' t' b' ->
  String.length a = String.length a' -> t = t'.
Proof.
  intros [E T] [E' T'] L. rewrite E in E'.
  destruct (app_inj_length _ _ _ _ E' L) as [_ X].
  pose proof (inner_tag_here_complete t b T) as H.
  rewrite X, (inner_tag_here_complete t' b' T') in H. congruence.
Qed.

Lemma FirstTag_unique (s t t' : string) :
  Decl.FirstTag s t -> Decl.FirstTag s t' -> t = t'.
Proof.
  intros (a & b & T & M) (a' & b' & T' & M').
  apply (TagAt_same_place s a t b a' t' b' T T').
  pose proof (M _ _ _ T'). pose proof (M' _ _ _ T). lia.
Qed.

Lemma FirstTag_search (s tag : string) :
  Decl.FirstTag s tag -> Re.INNER_TAG_search s = Some tag.
Proof.
  intros F. destruct (Re.INNER_TAG_search s) as [t|] eqn:E.
  - f_equal. apply search_FirstTag in E. exact (FirstTag_unique s t tag E F).
  - apply search_Untagged in E. destruct F as (a & b & T & _).
    destruct (E a tag b T).
Qed.

(** ** The blocks the loop counts and those it skips *)

Lemma startswith_Excluded (t : string) :
  Py.startswith Analyze.EXCLUDED t = true <-> Decl.Excluded t.
Proof.
  unfold Py.startswith. split.
  - intros H. apply prefix_split in H.
    exists (Py.drop (String.length Analyze.EXCLUDED) t). exact H.
  - intros [r ->]. apply (prefix_app Analyze.EXCLUDED r).
Qed.

Lemma counted_Tagged (m tag : string) :
  Analyze.counted m = true /\ Re.INNER_TAG_search (Py.strip m) = Some tag
  <-> Decl.Tagged m tag.
Proof.
  unfold Analyze.counted. split.
  - intros [C S]. exists (Py.strip m). split; [apply strip_Trim|].
    split; [|now apply search_FirstTag].
    intros X. apply startswith_Excluded in X. rewrite X in C. discriminate C.
  - intros (t & T & X & F). apply Trim_strip in T. subst t.
    apply FirstTag_search in F. rewrite F. split; [|reflexivity].
    destruct (Py.startswith Analyze.EXCLUDED (Py.strip m)) eqn:P;
      [|reflexivity].
    destruct X. now apply startswith_Excluded.
Qed.

Lemma counted_Skipped (m : string) :
  Analyze.counted m = false <-> Decl.Skipped m.
Proof.
  unfold Analyze.counted. split.
  - intros C. exists (Py.strip m). split; [apply strip_Trim|].
    destruct (Py.startswith Analyze.EXCLUDED (Py.strip m)) eqn:P.
    + left. now apply startswith_Excluded.
    + right. destruct (Re.INNER_TAG_search (Py.strip m)) eqn:S;
        [discriminate C|now apply search_Untagged].
  - intros (t & T & [X|U]); apply Trim_strip in T; subst t.
    + apply startswith_Excluded in X. now rewrite X.
    + destruct (Re.INNER_TAG_search (Py.strip m)) as [tag|] eqn:S;
        [|apply andb_false_r].
      apply search_FirstTag in S as (a & b & T & _). destruct (U a tag b T).
Qed.

(** ** The spans of [findall] *)

Lemma drop_app (p r : string) : Py.drop (String.length p) (p ++ r) = r.
Proof. induction p as [|c p IH]; [now destruct r|exact IH]. Qed.

Lemma app_split_le (x y p b : string) :
  x ++ y = p ++ b -> String.length p <= String.length x ->
  exists u, x = p ++ u /\ b = u ++ y.
Proof.
  revert x; induction p as [|c p IH]; intros x; cbn [append String.length].
  - intros <- _. now exists x.
  - destruct x as [|d x]; cbn [append String.length]; [lia|].
    intros [= -> E] L. destruct (IH x E ltac:(lia)) as (u & -> & ->).
    now exists u.
Qed.

Lemma Occurs_contains (p s : string) :
  Decl.Occurs p s <-> Py.contains p s = true.
Proof. symmetry. apply contains_iff. Qed.

Lemma Occurs_cons (p s : string) (c : ascii) :
  Decl.Occurs p s -> Decl.Occurs p (String c s).
Proof. intros (a & b & ->). now exists (String c a), b. Qed.

Lemma lazy_until_none (e s : string) :
  Re.lazy_until e s = None -> ~ Decl.Occurs e s.
Proof.
  rewrite Occurs_contains. induction s as [|c s IH];
    cbn [Re.lazy_until Py.contains].
  - destruct (String.prefix e EmptyString); [discriminate|]. intros _ [=].
  - destruct (String.prefix e (String c s)); [discriminate|].
    destruct (Re.lazy_until e s) as [[i r]|]; [discriminate|].
    intros _. cbn [orb]. now apply IH.
Qed.

(** The end marker overlaps no shifted copy of itself. *)
Lemma END_overlap (m rest z : string) :
  m ++ Re.END ++ rest = Re.END ++ z ->
  m = EmptyString \/ exists x, m = Re.END ++ x.
Proof.
  unfold Re.END. intros H.
  destruct m as [|c0 m]; [now left|right].
  do 13 (destruct m as [|? m]; [cbn [append] in H; discriminate H|]).
  cbn [append] in H. injection H as -> -> -> -> -> -> -> -> -> -> -> -> -> -> _.
  now exists m.
Qed.

Lemma lazy_until_complete (m rest : string) :
  ~ Decl.Occurs Re.END m ->
  Re.lazy_until Re.END (m ++ Re.END ++ rest) = Some (m, rest).
Proof.
  induction m as [|c m IH]; intros N.
  - cbn [append]. pose proof (prefix_app Re.END rest) as P.
    destruct (Re.END ++ rest) eqn:E; [discriminate E|].
    cbn [Re.lazy_until]. rewrite P, <- E. now rewrite drop_app.
  - cbn [append Re.lazy_until].
    destruct (String.prefix Re.END (String c (m ++ Re.END ++ rest))) eqn:P.
    + exfalso. apply prefix_split in P.
      change (String c (m ++ Re.END ++ rest))
        with (String c m ++ Re.END ++ rest) in P.
      apply END_overlap in P as [P|[x P]]; [discriminate P|].
      apply N. exists EmptyString, x. exact P.
    + rewrite IH; [reflexivity|].
      intros O. apply N. now apply Occurs_cons.
Qed.

Lemma findall_hit (s m rest : string) :
  Re.tool_result_here s = Some (m, rest) ->
  Re.TOOL_RESULT_findall s = m :: Re.TOOL_RESULT_findall rest.
Proof.
  intros E. pose proof (tool_result_here_length _ _ _ E) as L.
  change (String.length Re.BEGIN) with 13 in L.
  change (String.length Re.END) with 14 in L.
  unfold Re.TOOL_RESULT_findall at 1.
  destruct (String.length s) as [|n] eqn:Hn; [cbn in L; lia|].
  cbn [Re.findall_from]. rewrite E. f_equal.
  apply findall_from_enough. lia.
Qed.

Lemma findall_skip (c : ascii) (s : string) :
  Re.tool_result_here (String c s) = None ->
  Re.TOOL_RESULT_findall (String c s) = Re.TOOL_RESULT_findall s.
Proof.
  intros E. unfold Re.TOOL_RESULT_findall at 1.
  cbn [String.length Re.findall_from]. now rewrite E.
Qed.

Lemma tool_result_here_begin (b : string) :
  Re.tool_result_here (Re.BEGIN ++ b) = Re.lazy_until Re.END b.
Proof.
  unfold Re.tool_result_here. now rewrite prefix_app, drop_app.
Qed.

(** A text that starts with a span. *)
Lemma tool_result_here_complete (m rest : string) :
  ~ Decl.Occurs Re.END m ->
  Re.tool_result_here (Re.BEGIN ++ m ++ Re.END ++ rest) = Some (m, rest).
Proof.
  intros N. rewrite tool_result_here_begin. now apply lazy_until_complete.
Qed.

Lemma Blocks_cons (c : ascii) (s : string) (ms : list string) :
  Re.tool_result_here (String c s) = None ->
  Decl.Blocks s ms -> Decl.Blocks (String c s) ms.
Proof.
  intros E B. destruct B as [text H|g m rest ms M N B].
  - apply Decl.Blocks_end. intros a b Ea. destruct a as [|x a].
    + cbn [append] in Ea. rewrite Ea, tool_result_here_begin in E.
      now apply lazy_until_none.
    + cbn [append] in Ea. injection Ea as _ Ea. now apply (H a b).
  - change (String c (g ++ Re.BEGIN ++ m ++ Re.END ++ rest))
      with (String c g ++ Re.BEGIN ++ m ++ Re.END ++ rest).
    apply Decl.Blocks_span; [|exact N|exact B].
    intros a b Ea. destruct a as [|x a].
    + exfalso. cbn [append] in Ea.
      rewrite Ea, tool_result_here_begin in E.
      apply lazy_until_none in E. apply E.
      change (String c (g ++ Re.BEGIN ++ m ++ Re.END ++ rest))
        with (String c g ++ Re.BEGIN ++ m ++ Re.END ++ rest) in Ea.
      rewrite <- (string_app_assoc Re.BEGIN) in Ea.
      rewrite <- (string_app_assoc (String c g)) in Ea.
      apply app_split_le in Ea as (u & _ & ->).
      * now exists u, rest.
      * rewrite !length_app_string. cbn. lia.
    + cbn [append] in Ea. injection Ea as _ Ea.
      cbn [String.length]. apply le_n_S. now apply (M a b).
Qed.

(** The scan finds the spans of the text, one after the other. *)
Lemma findall_Blocks (text : string) :
  Decl.Blocks text (Re.TOOL_RESULT_findall text).
Proof.
  remember (String.length text) as n eqn:Hn. revert text Hn.
  induction n as [n IH] using lt_wf_ind. intros text Hn.
  destruct (Re.tool_result_here text) as [[m rest]|] eqn:E.
  - rewrite (findall_hit _ _ _ E).
    pose proof (tool_result_here_length _ _ _ E) as L.
    change (String.length Re.BEGIN) with 13 in L.
    assert (N : ~ Decl.Occurs Re.END m).
    { unfold Re.tool_result_here in E.
      destruct (String.prefix Re.BEGIN text); [|discriminate E].
      apply lazy_until_shortest in E; [|discriminate].
      rewrite Occurs_contains, E. discriminate. }
    apply tool_result_here_split in E. rewrite E.
    apply (Decl.Blocks_span EmptyString m rest).
    + intros; cbn; lia.
    + exact N.
    + apply (IH (String.length rest)); [lia|reflexivity].
  - destruct text as [|c s].
    + apply Decl.Blocks_end. intros a b Ea. destruct a; discriminate Ea.
    + rewrite (findall_skip _ _ E). apply Blocks_cons; [exact E|].
      apply (IH (String.length s)); [subst n; cbn; lia|reflexivity].
Qed.

Lemma findall_no_span (s : string) :
  (forall a b, s = a ++ Re.BEGIN ++ b -> ~ Decl.Occurs Re.END b) ->
  Re.TOOL_RESULT_findall s = [].
Proof.
  induction s as [|c s IH]; intros H; [reflexivity|].
  destruct (Re.tool_result_here (String c s)) as [[m rest]|] eqn:E.
  - exfalso. apply tool_result_here_split in E.
    apply (H EmptyString (m ++ Re.END ++ rest) E). now exists m, rest.
  - rewrite (findall_skip _ _ E). apply IH. intros a b ->.
    now apply (H (String c a) b).
Qed.

Lemma findall_first_span (g m rest : string) :
  (forall a b, g ++ Re.BEGIN ++ m ++ Re.END ++ rest = a ++ Re.BEGIN ++ b ->
               String.length g <= String.length a) ->
  ~ Decl.Occurs Re.END m ->
  Re.TOOL_RESULT_findall (g ++ Re.BEGIN ++ m ++ Re.END ++ rest)
  = m :: Re.TOOL_RESULT_findall rest.
Proof.
  intros M N. induction g as [|c g IH].
  - cbn [append]. apply findall_hit. now apply tool_result_here_complete.
  - cbn [append].
    destruct (Re.tool_result_here
                (String c (g ++ Re.BEGIN ++ m ++ Re.END ++ rest)))
      as [[m' rest']|] eqn:E.
    + exfalso. apply tool_result_here_split in E.
      specialize (M EmptyString (m' ++ Re.END ++ rest') E). cbn in M. lia.
    + rewrite (findall_skip _ _ E). apply IH. intros a b Ea.
      specialize (M (String c a) b). cbn [append String.length] in M.
      rewrite Ea in M. specialize (M eq_refl). lia.
Qed.

(** ... and they are the only such sequence. *)
Lemma Blocks_findall (text : string) (ms : list string) :
  Decl.Blocks text ms -> ms = Re.TOOL_RESULT_findall text.
Proof.
  induction 1 as [text H|g m rest ms M N B IH].
  - symmetry. now apply findall_no_span.
  - rewrite (findall_first_span g m rest M N). now f_equal.
Qed.

(** ** The type of a row *)

Lemma find_split {A : Type} (f : A -> bool) (l : list A) (m : A) :
  find f l = Some m ->
  exists pre post,
    l = (pre ++ m :: post)%list
    /\ Forall (fun x => f x = false) pre /\ f m = true.
Proof.
  induction l as [|x l IH]; cbn [find]; [discriminate|].
  destruct (f x) eqn:F.
  - intros [= ->]. now exists [], l.
  - intros H. destruct (IH H) as (pre & post & -> & P & M).
    exists (x :: pre), post. split; [reflexivity|]. split; [|exact M].
    now constructor.
Qed.

Lemma find_skip {A : Type} (f : A -> bool) (pre l : list A) :
  Forall (fun x => f x = false) pre -> find f (pre ++ l)%list = find f l.
Proof.
  induction 1 as [|x pre F _ IH]; [reflexivity|].
  cbn [app find]. now rewrite F.
Qed.

Lemma find_none {A : Type} (f : A -> bool) (l : list A) :
  find f l = None <-> Forall (fun x => f x = false) l.
Proof.
  split.
  - induction l as [|x l IH]; cbn [find]; [constructor|].
    destruct (f x) eqn:F; [discriminate|]. intros H. constructor; auto.
  - induction 1 as [|x l F _ IH]; [reflexivity|]. cbn [find]. now rewrite F.
Qed.

Lemma Forall_counted_Skipped (ms : list string) :
  Forall (fun m => Analyze.counted m = false) ms <-> Forall Decl.Skipped ms.
Proof.
  split; intros H; eapply Forall_impl; try exact H;
    intros m; apply counted_Skipped.
Qed.

Lemma tool_type_find (encode : string -> list nat) (text : string) :
  snd (Analyze.analyze_tool_calls encode (PyStr text))
  = match find Analyze.counted (Re.TOOL_RESULT_findall text) with
    | Some m => Re.INNER_TAG_search (Py.strip m)
    | None => None
    end.
Proof.
  cbn [Analyze.analyze_tool_calls]. unfold Analyze.analyze_matches.
  now rewrite loop_from.
Qed.

(** C5: the tool-result blocks of a text are its spans from a begin marker
    to the nearest end marker, taken from left to right without overlap
    ([Decl.Blocks]); there is such a sequence for every text.  A block is
    skipped when its trimmed content starts with [<str-replace>] or holds no
    tag, and has tag [t] when its trimmed content is not excluded and [t] is
    the leftmost tag in it.  [tool_type] is [t] exactly when some block has
    tag [t] and every block before it is skipped, and is absent exactly when
    every block is skipped.  A text in which the begin marker does not occur,
    and a cell that is not a string, have [tool_tokens = 0] and no
    [tool_type]. *)
Theorem C5_tool_type_is_tag_of_first_counted_block
    (encode : string -> list nat) (text : string) :
  (exists blocks, Decl.Blocks text blocks)
  /\ (forall blocks, Decl.Blocks text blocks ->
        (forall tag,
            snd (Analyze.analyze_tool_calls encode (PyStr text)) = Some tag
            <-> exists pre m post,
                  blocks = (pre ++ m :: post)%list
                  /\ Forall Decl.Skipped pre /\ Decl.Tagged m tag)
        /\ (snd (Analyze.analyze_tool_calls encode (PyStr text)) = None
            <-> Forall Decl.Skipped blocks))
  /\ (~ Decl.Occurs Re.BEGIN text ->
      Analyze.analyze_tool_calls encode (PyStr text) = (0, None))
  /\ Analyze.analyze_tool_calls encode NotStr = (0, None).
Proof.
  split; [exists (Re.TOOL_RESULT_findall text); apply findall_Blocks|].
  split; [|split; [|reflexivity]].
  - intros blocks B. apply Blocks_findall in B. subst blocks.
    rewrite tool_type_find. split; [intros tag; split|split].
    + destruct (find Analyze.counted (Re.TOOL_RESULT_findall text))
        as [m|] eqn:F; [|discriminate].
      intros S. apply find_split in F as (pre & post & E & P & C).
      exists pre, m, post. split; [exact E|].
      split; [now apply Forall_counted_Skipped|].
      now apply counted_Tagged.
    + intros (pre & m & post & -> & P & T).
      apply Forall_counted_Skipped in P. apply counted_Tagged in T as [C S].
      rewrite (find_skip _ _ _ P). cbn [find]. now rewrite C.
    + destruct (find Analyze.counted (Re.TOOL_RESULT_findall text))
        as [m|] eqn:F.
      * intros S. apply find_some in F as [_ C].
        unfold Analyze.counted in C. rewrite S, andb_false_r in C.
        discriminate C.
      * intros _. now apply Forall_counted_Skipped, find_none.
    + intros P. apply Forall_counted_Skipped, find_none in P.
      now rewrite P.
  - intros N. cbn [Analyze.analyze_tool_calls].
    unfold Re.TOOL_RESULT_findall. rewrite findall_from_no_begin;
      [reflexivity|].
    destruct (Py.contains Re.BEGIN text) eqn:C; [|reflexivity].
    destruct N. now apply Occurs_contains.
Qed.

(** ** Excluded blocks and the aggregates *)

(** Two frames whose rows agree on [file_path], [num_token_from_toolcall]
    and [tool_type]. *)
Lemma same_tool_columns_typed_rows (df df' : list Frame.row) :
  Forall2 (fun r r' =>
             Frame.file_path r = Frame.file_path r'
             /\ Frame.num_token_from_toolcall r = Frame.num_token_from_toolcall r'
             /\ Frame.tool_type r = Frame.tool_type r')
          df df' ->
  map Frame.num_token_from_toolcall df = map Frame.num_token_from_toolcall df'
  /\ map Frame.tool_type df = map Frame.tool_type df'
  /\ Frame.typed_rows df = Frame.typed_rows df'
  /\ Stats.tool_types df = Stats.tool_types df'
  /\ forall column,
      (forall r r', In r df -> In r' df' ->
                    Frame.num_token_from_toolcall r
                    = Frame.num_token_from_toolcall r' ->
                    column r = column r') ->
      Stats.by_type column df = Stats.by_type column df'.
Proof.
  unfold Frame.typed_rows, Stats.tool_types, Stats.by_type.
  induction 1 as [|r r' df df' (Hf & Hn & Ht) _ (I1 & I2 & I3 & I4 & I5)];
    [repeat split|].
  cbn [map flat_map]. rewrite I1, I2, I3, I4, Hf, Hn, Ht.
  repeat split. intros column Hc.
  rewrite (I5 column) by (intros x x' Hx Hx'; apply Hc; now right).
  rewrite (Hc r r') by (try (now left); exact Hn).
  reflexivity.
Qed.

(** C6 (as amended): a block whose trimmed inner content starts with
    [<str-replace>] adds nothing to [tool_tokens] and cannot become
    [tool_type]: the row gets the pair of a text whose blocks are the other
    blocks.  Hence the block enters no total of tool tokens and no tally of
    types: the two columns of the frame, the sums by (conversation, type),
    the dominant types, the type counts, the mean tool tokens by type and
    the counts of dominant types are those of the frame without the
    block. *)
Theorem C6_excluded_block_adds_no_tool_tokens_or_type
    (encode : string -> list nat) (text text' : string)
    (pre post : list string) (m : string) :
  Decl.Blocks text (pre ++ m :: post)%list ->
  Decl.Blocks text' (pre ++ post)%list ->
  (exists t, Decl.Trim m t /\ Decl.Excluded t) ->
  Analyze.analyze_tool_calls encode (PyStr text)
  = Analyze.analyze_tool_calls encode (PyStr text')
  /\ forall (before after : list (string * cell * string)) (fp role : string),
      let df :=
        Frame.add_token_columns encode
          (before ++ (fp, PyStr text, role) :: after)%list in
      let df' :=
        Frame.add_token_columns encode
          (before ++ (fp, PyStr text', role) :: after)%list in
      map Frame.num_token_from_toolcall df
      = map Frame.num_token_from_toolcall df'
      /\ map Frame.tool_type df = map Frame.tool_type df'
      /\ Frame.tool_type_by_file df = Frame.tool_type_by_file df'
      /\ Frame.dominant_tool_type_df df = Frame.dominant_tool_type_df df'
      /\ forall sort_counts sort_floats,
          Stats.tool_type_counts sort_counts df
          = Stats.tool_type_counts sort_counts df'
          /\ Stats.avg_token_by_type sort_floats df
             = Stats.avg_token_by_type sort_floats df'
          /\ Stats.freq_dominant sort_counts df
             = Stats.freq_dominant sort_counts df'.
Proof.
  intros Hm Hm' (t & Ht & Hex).
  apply Blocks_findall in Hm, Hm'. symmetry in Hm, Hm'.
  apply Trim_strip in Ht. subst t. apply startswith_Excluded in Hex.
  assert (E : Analyze.analyze_tool_calls encode (PyStr text)
              = Analyze.analyze_tool_calls encode (PyStr text')).
  { cbn [Analyze.analyze_tool_calls]. rewrite Hm, Hm'.
    apply analyze_matches_drop. unfold Analyze.counted. now rewrite Hex. }
  split; [exact E|]. intros before after fp role df df'.
  assert (F : Forall2
                (fun r r' =>
                   Frame.file_path r = Frame.file_path r'
                   /\ Frame.num_token_from_toolcall r
                      = Frame.num_token_from_toolcall r'
                   /\ Frame.tool_type r = Frame.tool_type r')
                df df').
  { subst df df'. unfold Frame.add_token_columns. rewrite !map_app.
    apply Forall2_app; [|cbn [map]; constructor].
    - induction before as [|x l IH]; cbn [map]; constructor; auto.
    - rewrite E.
      now destruct (Analyze.analyze_tool_calls encode (PyStr text')).
    - induction after as [|x l IH]; cbn [map]; constructor; auto. }
  destruct (same_tool_columns_typed_rows _ _ F) as (H1 & H2 & H3 & H4 & H5).
  assert (T : Frame.tool_type_by_file df = Frame.tool_type_by_file df')
    by (unfold Frame.tool_type_by_file; now rewrite H3).
  assert (D : Frame.dominant_tool_type_df df = Frame.dominant_tool_type_df df')
    by (unfold Frame.dominant_tool_type_df, Frame.dominant_tool_type;
        now rewrite T).
  split; [exact H1|]. split; [exact H2|]. split; [exact T|].
  split; [exact D|]. intros sort_counts sort_floats.
  split; [|split].
  - unfold Stats.tool_type_counts. now rewrite H4.
  - unfold Stats.avg_token_by_type.
    rewrite (H5 Frame.num_token_from_toolcall) by auto.
    now rewrite (H5 (fun _ => 1)) by auto.
  - unfold Stats.freq_dominant. now rewrite D.
Qed.

(** C6 on a text with one tagged and one excluded block, beside the same
    text without the excluded block. *)
Lemma C6_excluded_block_witness :
  Decl.Blocks
    "<tool_result><zz>abcd</tool_result><tool_result> <str-replace>x<b>y</tool_result>"
    (["<zz>abcd"] ++ " <str-replace>x<b>y" :: [])%list
  /\ Decl.Blocks "<tool_result><zz>abcd</tool_result>" (["<zz>abcd"] ++ [])%list
  /\ (exists t, Decl.Trim " <str-replace>x<b>y" t /\ Decl.Excluded t)
  /\ Analyze.analyze_tool_calls char_tokens
       (PyStr "<tool_result><zz>abcd</tool_result><tool_result> <str-replace>x<b>y</tool_result>")
     = (8, Some "zz")
  /\ Analyze.analyze_tool_calls char_tokens
       (PyStr "<tool_result><zz>abcd</tool_result><tool_result> <str-replace>x<b>y</tool_result>")
     = Analyze.analyze_tool_calls char_tokens
         (PyStr "<tool_result><zz>abcd</tool_result>").
Proof.
  assert (B : Decl.Blocks
                "<tool_result><zz>abcd</tool_result><tool_result> <str-replace>x<b>y</tool_result>"
                (["<zz>abcd"] ++ " <str-replace>x<b>y" :: [])%list)
    by exact (findall_Blocks
                "<tool_result><zz>abcd</tool_result><tool_result> <str-replace>x<b>y</tool_result>").
  assert (B' : Decl.Blocks "<tool_result><zz>abcd</tool_result>"
                 (["<zz>abcd"] ++ [])%list)
    by exact (findall_Blocks "<tool_result><zz>abcd</tool_result>").
  assert (X : exists t, Decl.Trim " <str-replace>x<b>y" t /\ Decl.Excluded t).
  { exists "<str-replace>x<b>y". split.
    - exact (strip_Trim " <str-replace>x<b>y").
    - now exists "x<b>y". }
  split; [exact B|]. split; [exact B'|]. split; [exact X|].
  split; [reflexivity|].
  exact (proj1 (C6_excluded_block_adds_no_tool_tokens_or_type char_tokens
                  "<tool_result><zz>abcd</tool_result><tool_result> <str-replace>x<b>y</tool_result>"
                  "<tool_result><zz>abcd</tool_result>"
                  ["<zz>abcd"] [] " <str-replace>x<b>y" B B' X)).
Defined.

(** C6 as the specification states it fails: an excluded block does enter
    downstream totals, because the row's [num_token] counts the whole
    prompt.  With one token per character, the conversation below has 76
    tokens with its excluded block and 35 without it, against 8 tool tokens
    in both; its share of tool tokens is 800/76 against 800/35 per cent,
    and the bucket report counts it in (0, 20] against (20, 40]. *)
Lemma C6_excluded_block_counts_in_totals :
  exists (text text' : string) (pre post : list string) (m : string),
    Decl.Blocks text (pre ++ m :: post)%list
    /\ Decl.Blocks text' (pre ++ post)%list
    /\ (exists t, Decl.Trim m t /\ Decl.Excluded t)
    /\ exists df df',
        df = Frame.add_token_columns char_tokens
               [("a.json", PyStr text, "assistant")]
        /\ df' = Frame.add_token_columns char_tokens
                   [("a.json", PyStr text', "assistant")]
        /\ Frame.sum (map Frame.num_token df) = 76
        /\ Frame.sum (map Frame.num_token df') = 35
        /\ Frame.sum (map Frame.num_token_from_toolcall df) = 8
        /\ Frame.sum (map Frame.num_token_from_toolcall df') = 8
        /\ Frame.file_tool_pct df = [("a.json", Fin (800 # 76))]
        /\ Frame.file_tool_pct df' = [("a.json", Fin (800 # 35))]
        /\ map snd (Frame.range_counts (Frame.file_tool_pct df))
           = [1; 0; 0; 0; 0]
        /\ map snd (Frame.range_counts (Frame.file_tool_pct df'))
           = [0; 1; 0; 0; 0].
Proof.
  exists "<tool_result><zz>abcd</tool_result><tool_result><str-replace>x</tool_result>",
         "<tool_result><zz>abcd</tool_result>",
         ["<zz>abcd"], [], "<str-replace>x".
  split;
    [exact (findall_Blocks
              "<tool_result><zz>abcd</tool_result><tool_result><str-replace>x</tool_result>")|].
  split; [exact (findall_Blocks "<tool_result><zz>abcd</tool_result>")|].
  split.
  { exists "<str-replace>x". split; [exact (strip_Trim "<str-replace>x")|].
    now exists "x". }
  eexists. eexists. split; [reflexivity|]. split; [reflexivity|].
  repeat split; vm_compute; reflexivity.
Qed.
